(** * baserow-emailer: the status-driven row pipeline, embedded and verified

    A shallow embedding of [app/emailer.py], [app/send_email.py] and
    [app/main.py].  Python values are a small tagged union, dicts are
    insertion-ordered association lists, exceptions are an error result,
    and the remote collaborators (row store, template host, mail API) are
    an environment of scripted answers together with a world that records
    every external call. *)

From Stdlib Require Import ZArith Ascii String List Bool Lia.
From stdpp Require Import base option list gmap.
Import ListNotations.
Set Warnings "-register-all".
Local Open Scope Z_scope.
Local Open Scope string_scope.
Local Open Scope list_scope.

(** ** Python values *)

(** The JSON-like values the row store hands out.  A [string] stands for a
    Python [str] whose code points are below 256. *)
Inductive value : Type :=
| VNone
| VBool (b : bool)
| VInt (z : Z)
| VStr (s : string)
| VList (l : list value)
| VDict (d : list (string * value)).

(** A Python dict with string keys, in insertion order. *)
Abbreviation dict := (list (string * value)).

(** Python truthiness: [bool(v)], used by [if v] and [not v]. *)
Definition truthy (v : value) : bool :=
  match v with
  | VNone => false
  | VBool b => b
  | VInt z => negb (z =? 0)%Z
  | VStr s => negb (String.eqb s "")
  | VList l => match l with [] => false | _ => true end
  | VDict d => match d with [] => false | _ => true end
  end.

(** Equality of the values a single-select cell can hold (identifiers);
    containers are never option identifiers and compare unequal. *)
Definition value_eqb (a b : value) : bool :=
  match a, b with
  | VNone, VNone => true
  | VBool x, VBool y => Bool.eqb x y
  | VInt x, VInt y => (x =? y)%Z
  | VStr x, VStr y => String.eqb x y
  | _, _ => false
  end.

(** ** Exceptions *)

(** The exception classes the code names, and [OtherError] for an exception
    of any other class, as template code may raise when it is rendered. *)
Inductive exn : Type :=
| KeyError (key : string)
| ValueError (msg : string)
| TypeError
| AttributeError
| HTTPError (status : Z)
| RequestException
| TemplateSyntaxError
| TemplateError
| StoreError
| SendFailed
| OtherError (class : string).

Inductive result (A : Type) : Type :=
| Ok (a : A)
| Raise (e : exn).
Arguments Ok {A} a.
Arguments Raise {A} e.

Definition is_ok {A} (r : result A) : bool :=
  match r with Ok _ => true | Raise _ => false end.

(** ** Dicts *)

Fixpoint dict_get (d : dict) (k : string) : option value :=
  match d with
  | [] => None
  | (k', v) :: d' => if String.eqb k' k then Some v else dict_get d' k
  end.

(** [d[k] = v]: an existing key keeps its position, a new key goes last. *)
Fixpoint dict_set (d : dict) (k : string) (v : value) : dict :=
  match d with
  | [] => [(k, v)]
  | (k', v') :: d' =>
      if String.eqb k' k then (k', v) :: d' else (k', v') :: dict_set d' k v
  end.

(** [d[k]], raising [KeyError] on a missing key. *)
Definition getitem (d : dict) (k : string) : result value :=
  match dict_get d k with
  | Some v => Ok v
  | None => Raise (KeyError k)
  end.

(** [d.get(k, dflt)]. *)
Definition dict_get_default (d : dict) (k : string) (dflt : value) : value :=
  match dict_get d k with
  | Some v => v
  | None => dflt
  end.

Definition keys (d : dict) : list string := map fst d.

(** ** Python string methods *)

(** [str.isspace] on one code point below 256. *)
Definition is_space (c : ascii) : bool :=
  let n := nat_of_ascii c in
  ((9 <=? n) && (n <=? 13) || (28 <=? n) && (n <=? 32)
   || (n =? 133) || (n =? 160))%nat.

Definition comma : ascii := ","%char.
Definition space : ascii := " "%char.
Definition underscore : ascii := "_"%char.

(** [s.split(sep)] for a one-character separator: never empty. *)
Fixpoint split (sep : ascii) (s : string) : list string :=
  match s with
  | EmptyString => [EmptyString]
  | String c s' =>
      if Ascii.eqb c sep then EmptyString :: split sep s'
      else match split sep s' with
           | [] => [String c EmptyString]
           | h :: t => String c h :: t
           end
  end.

Fixpoint lstrip (s : string) : string :=
  match s with
  | EmptyString => EmptyString
  | String c s' => if is_space c then lstrip s' else s
  end.

Fixpoint rstrip (s : string) : string :=
  match s with
  | EmptyString => EmptyString
  | String c s' =>
      match rstrip s' with
      | EmptyString => if is_space c then EmptyString else String c EmptyString
      | r => String c r
      end
  end.

(** [s.strip()]. *)
Definition strip (s : string) : string := rstrip (lstrip s).

(** [s.replace(old, new)] for one-character [old] and [new]. *)
Fixpoint replace (old new : ascii) (s : string) : string :=
  match s with
  | EmptyString => EmptyString
  | String c s' =>
      String (if Ascii.eqb c old then new else c) (replace old new s')
  end.

(** ** emailer.comma_delimited_to_list *)

(** [if input_string: return [item.strip() for item in input_string.split(",")]
    else: return []].  A truthy value that is not a [str] has no [split]. *)
Definition comma_delimited_to_list (input_string : value) : result (list string) :=
  if truthy input_string then
    match input_string with
    | VStr s => Ok (map strip (split comma s))
    | _ => Raise AttributeError
    end
  else Ok [].

(** ** The row store, the world and the environment *)

(** [Filter(field, value, operator)] of the row-store client. *)
Record Filter := mkFilter {
  filter_field : value;
  filter_value : value;
  filter_op : string
}.

(** A field of a table's schema: [field.TYPE] and [field.options_details]. *)
Record Field := mkField {
  TYPE : string;
  options_details : list dict
}.

(** A table handle: [table.fields], from which [table.field_names]. *)
Record Table := mkTable {
  table_id : Z;
  fields : list (string * Field)
}.

Definition field_names (t : Table) : list string := map fst (fields t).

(** A row object held by the client: a snapshot of the stored row. *)
Record Row := mkRow {
  row_table : Z;
  row_id : Z;
  values : dict
}.

(** The JSON message posted to the mail API. *)
Record Message := mkMessage {
  msg_subject : value;
  msg_body : string;
  msg_to : list string;
  msg_cc : list string;
  msg_from : option string
}.

(** Every call that leaves the process, in the order it is made. *)
Inductive event : Type :=
| EvAuthenticate (client_id tenant_id : option string)
| EvGetTable (id : value)
| EvGetRows (table : Z) (filters : list Filter)
| EvUpdate (table row : Z) (field : string) (v : value) (ok : bool)
| EvHttpGet (url : value)
| EvPost (endpoint : string) (m : Message) (status : option Z).

(** The world: the stored rows, keyed by (table id, row id), and the calls
    made so far, oldest first. *)
Record World := mkWorld {
  store : gmap (Z * Z) dict;
  trace : list event
}.

(** The collaborators' answers.  The [nat] is the serial number of the call
    (the number of calls made before it), so an answer may change from one
    call to the next; [None] and [false] stand for a raised exception.
    The renderer raises whatever the template code raises. *)
Record Env := mkEnv {
  env_get_table : nat -> value -> option Table;
  env_get_rows_ok : nat -> bool;
  env_update_ok : nat -> bool;
  env_http_get : nat -> value -> option (Z * string);
  env_jinja_parse : string -> bool;
  env_jinja_render : string -> dict -> result string;
  env_http_post : nat -> option Z;
  env_token : nat -> option string
}.

(** ** The monad of effectful Python code: state and exceptions *)

Definition M (A : Type) : Type := World -> result A * World.

#[export] Instance result_ret : MRet result := fun A a => Ok a.
#[export] Instance result_bind : MBind result := fun A B f r =>
  match r with
  | Ok a => f a
  | Raise e => Raise e
  end.

#[export] Instance M_ret : MRet M := fun A a w => (Ok a, w).
#[export] Instance M_bind : MBind M := fun A B f m w =>
  match m w with
  | (Ok a, w') => f a w'
  | (Raise e, w') => (Raise e, w')
  end.

(** A pure step that may raise. *)
Definition lift {A} (r : result A) : M A := fun w => (r, w).

(** Record one external call. *)
Definition emit (e : event) (w : World) : World :=
  mkWorld (store w) (trace w ++ [e])%list.

(** The serial number of the next external call. *)
Definition now (w : World) : nat := length (trace w).

(** [try: body  except Exception: handler]. *)
Definition try_except {A} (body : M A) (handler : exn -> M A) : M A := fun w =>
  match body w with
  | (Ok a, w') => (Ok a, w')
  | (Raise e, w') => handler e w'
  end.

(** [for x in xs: body(x)]; an exception leaving the body leaves the loop. *)
Fixpoint for_each {A} (xs : list A) (body : A -> M unit) : M unit :=
  match xs with
  | [] => mret tt
  | x :: xs' => body x ≫= fun _ => for_each xs' body
  end.

Section Emailer.

Variable env : Env.

(** ** The row-store client *)

(** [baserow.get_table(id)]. *)
Definition get_table (id : value) : M Table := fun w =>
  let w' := emit (EvGetTable id) w in
  match env_get_table env (now w) id with
  | Some t => (Ok t, w')
  | None => (Raise StoreError, w')
  end.

(** The stored cell a filter looks at; an absent cell is blank. *)
Definition cell (vals : dict) (field : value) : value :=
  match field with
  | VStr f => dict_get_default vals f VNone
  | _ => VNone
  end.

(** The store's evaluation of one filter on one stored row. *)
Definition filter_matches (vals : dict) (f : Filter) : bool :=
  if String.eqb (filter_op f) "single_select_equal" then
    value_eqb (cell vals (filter_field f)) (filter_value f)
  else if String.eqb (filter_op f) "empty" then
    match cell vals (filter_field f) with VNone => true | _ => false end
  else if String.eqb (filter_op f) "boolean" then
    Bool.eqb (truthy (cell vals (filter_field f)))
             (value_eqb (filter_value f) (VStr "true"))
  else false.

Definition is_included (include : list value) (k : string) : bool :=
  existsb (fun f => value_eqb f (VStr k)) include.

(** The columns of a stored row that a query returns. *)
Definition project (include : option (list value)) (vals : dict) : dict :=
  match include with
  | None => vals
  | Some fs => List.filter (fun kv => is_included fs (fst kv)) vals
  end.

Definition selects (tid : Z) (filters : list Filter) (filter_type : string)
    (entry : Z * Z * dict) : bool :=
  (fst (fst entry) =? tid)%Z &&
  (if String.eqb filter_type "OR"
   then existsb (filter_matches (snd entry)) filters
   else forallb (filter_matches (snd entry)) filters).

(** The answer of the store to a query: the rows of the table that the
    filters select, in the store's order, cut down to the included columns. *)
Definition select_rows (t : Table) (include : option (list value))
    (filters : list Filter) (filter_type : string) (st : gmap (Z * Z) dict)
    : list Row :=
  map (fun e => mkRow (fst (fst e)) (snd (fst e)) (project include (snd e)))
      (List.filter (selects (table_id t) filters filter_type) (map_to_list st)).

(** [table.get_rows(include=..., filters=..., filter_type=...)]. *)
Definition get_rows (t : Table) (include : option (list value))
    (filters : list Filter) (filter_type : string) : M (list Row) := fun w =>
  let w' := emit (EvGetRows (table_id t) filters) w in
  if env_get_rows_ok env (now w) then
    (Ok (select_rows t include filters filter_type (store w)), w')
  else (Raise StoreError, w').

(** [row.update({field: v})]: one write to the store.  It succeeds when the
    store accepts it and the row exists, and then the client's copy follows;
    a write that raises leaves the stored row as it was. *)
Definition row_update (row : Row) (field : value) (v : value) : M Row := fun w =>
  match field with
  | VStr f =>
      let key := (row_table row, row_id row) in
      match store w !! key with
      | Some cells =>
          if env_update_ok env (now w) then
            (Ok (mkRow (row_table row) (row_id row) (dict_set (values row) f v)),
             mkWorld (<[key := dict_set cells f v]> (store w))
                     (trace w ++ [EvUpdate (row_table row) (row_id row) f v true])%list)
          else
            (Raise StoreError,
             emit (EvUpdate (row_table row) (row_id row) f v false) w)
      | None =>
          (Raise StoreError,
           emit (EvUpdate (row_table row) (row_id row) f v false) w)
      end
  | _ => (Raise TypeError, w)
  end.

(** [row.to_dict()] and [row[field]]. *)
Definition to_dict (row : Row) : dict := values row.

Definition row_getitem (row : Row) (field : value) : result value :=
  match field with
  | VStr f => getitem (values row) f
  | _ => Raise (KeyError "")
  end.

(** ** emailer.get_active_configurations *)

(** The inner loop over [row_dict.items()], filling [new_row]. *)
Fixpoint collapse_items (items : dict) (new_row : dict) : result dict :=
  match items with
  | [] => Ok new_row
  | (key, v) :: rest =>
      match v with
      | VList [] =>
          Raise (ValueError ("Expected a non-empty list for key '" ++ key
                             ++ "', but got an empty list."))
      | VList (first :: _) => collapse_items rest (dict_set new_row key first)
      | _ => collapse_items rest (dict_set new_row key v)
      end
  end.

(** The outer loop over the active rows, appending to
    [active_configurations]. *)
Fixpoint collapse_rows (rows : list Row) (active_configurations : list dict)
    : result (list dict) :=
  match rows with
  | [] => Ok active_configurations
  | row :: rest =>
      new_row ← collapse_items (to_dict row) [];
      collapse_rows rest (active_configurations ++ [new_row])%list
  end.

Definition get_active_configurations (config_table_id : value) : M (list dict) :=
  configuration_table ← get_table config_table_id;
  active_configuration_rows ←
    get_rows configuration_table None
             [mkFilter (VStr "Active") (VStr "true") "boolean"] "AND";
  match active_configuration_rows with
  | [] => mret []
  | _ => lift (collapse_rows active_configuration_rows [])
  end.

(** ** emailer.get_option_id *)

(** [{option["value"]: option for option in options_details}], as far as a
    [str] key can see it: a later option with the same label replaces an
    earlier one, a label that is not a [str] is never found by a [str], a
    missing label and an unhashable one raise. *)
Fixpoint build_options_index (options : list dict) (index : dict) : result dict :=
  match options with
  | [] => Ok index
  | option :: rest =>
      label ← getitem option "value";
      match label with
      | VStr s => build_options_index rest (dict_set index s (VDict option))
      | VList _ | VDict _ => Raise TypeError
      | _ => build_options_index rest index
      end
  end.

Definition get_option_id (options : list dict) (option_value : string)
    : result value :=
  options_index ← build_options_index options [];
  let option_details := dict_get_default options_index option_value VNone in
  option_id ←
    (if truthy option_details then
       match option_details with
       | VDict d => Ok (dict_get_default d "id" VNone)
       | _ => Raise AttributeError
       end
     else Ok VNone);
  if negb (truthy option_id) then
    Raise (ValueError ("The option '" ++ option_value
                       ++ "' is not found in the provided options."))
  else Ok option_id.

(** ** emailer.validate_jinja2_template and emailer.create_email_message *)

(** [requests.Response.raise_for_status]: an [HTTPError] for the client and
    server error statuses, 400 to 599, and nothing for any other status. *)
Definition raise_for_status (status : Z) : result unit :=
  if (400 <=? status)%Z && (status <? 600)%Z then Raise (HTTPError status)
  else Ok tt.

(** [env.parse(template_content)] returns, or raises a syntax error that
    the function logs and raises again. *)
Definition validate_jinja2_template (template_content : string) : result bool :=
  if env_jinja_parse env template_content then Ok true
  else Raise TemplateSyntaxError.

(** [{key.replace(" ", "_"): value for key, value in variables.items()}]. *)
Definition rename_keys (variables : dict) : dict :=
  fold_left (fun acc kv => dict_set acc (replace space underscore (fst kv)) (snd kv))
            variables [].

(** [requests.get(template_url)] and [response.raise_for_status()]. *)
Definition fetch_template (template_url : value) : M string := fun w =>
  let w' := emit (EvHttpGet template_url) w in
  match env_http_get env (now w) template_url with
  | None => (Raise RequestException, w')
  | Some (status, text) =>
      match raise_for_status status with
      | Ok _ => (Ok text, w')
      | Raise e => (Raise e, w')
      end
  end.

(** Each [except] clause of the function logs and raises the same
    exception again, so the body is the whole behaviour. *)
Definition create_email_message (variables : dict) (template_url : value)
    : M string :=
  template_content ← fetch_template template_url;
  valid_template ← lift (validate_jinja2_template template_content);
  if negb valid_template then
    lift (Raise (ValueError "The Jinja2 template is not valid."))
  else
    let variables := rename_keys variables in
    lift (env_jinja_render env template_content variables).

(** ** send_email.send_email *)

(** [subject[:50]] needs a value that can be sliced. *)
Definition sliceable (v : value) : bool :=
  match v with
  | VStr _ | VList _ => true
  | _ => false
  end.

Definition endpoint_of (from_email : option string) : string :=
  match from_email with
  | Some a =>
      if String.eqb a "" then "https://graph.microsoft.com/v1.0/me/sendMail"
      else "https://graph.microsoft.com/v1.0/users/" ++ a ++ "/sendMail"
  | None => "https://graph.microsoft.com/v1.0/me/sendMail"
  end.

Definition message_of (subject : value) (recipients : list string)
    (body : string) (from_email : option string) (cc : list string) : Message :=
  mkMessage subject body recipients cc
            (match from_email with
             | Some a => if String.eqb a "" then None else Some a
             | None => None
             end).

(** The message is built, the attempt is logged (which slices the subject),
    then the message is posted inside [try].  Status 202 is success; for any
    other status the function logs the failure and calls
    [response.raise_for_status()]; a [RequestException] (which [HTTPError]
    is) becomes [Exception("Failed to send email.")]. *)
Definition send_email (access_token : string) (subject : value)
    (recipients : list string) (body : string) (from_email : option string)
    (cc : list string) : M unit := fun w =>
  if negb (sliceable subject) then (Raise TypeError, w)
  else
    let status := env_http_post env (now w) in
    let w' := emit (EvPost (endpoint_of from_email)
                           (message_of subject recipients body from_email cc)
                           status) w in
    match status with
    | None => (Raise SendFailed, w')
    | Some code =>
        if (code =? 202)%Z then (Ok tt, w')
        else match raise_for_status code with
             | Ok _ => (Ok tt, w')
             | Raise _ => (Raise SendFailed, w')
             end
    end.

(** ** emailer.process_emailer_config *)

(** [field in source_table.field_names]. *)
Definition is_field_name (names : list string) (field : value) : bool :=
  match field with
  | VStr f => existsb (String.eqb f) names
  | _ => false
  end.

(** [source_table.fields[field]]. *)
Definition table_field (t : Table) (field : value) : result Field :=
  match field with
  | VStr f =>
      match List.find (fun nf => String.eqb (fst nf) f) (fields t) with
      | Some nf => Ok (snd nf)
      | None => Raise (KeyError f)
      end
  | _ => Raise (KeyError "")
  end.

(** [configuration["Message Template"].get("url", None)]. *)
Definition template_url_of (configuration : dict) : result value :=
  template ← getitem configuration "Message Template";
  match template with
  | VDict d => Ok (dict_get_default d "url" VNone)
  | _ => Raise AttributeError
  end.

(** The body of [for row in queued_rows]: the per-row transition.  Each
    [except Exception ... continue] ends the body normally; the recipient
    lookup and parsing stand outside every [try]. *)
Definition process_row (configuration : dict) (access_token : string)
    (trigger_field recipient_field : value) (cc_recipients : list string)
    (inprogress_option_id sent_option_id email_template_url : value)
    (row : Row) : M unit :=
  claimed ← @try_except (option Row)
    (row' ← row_update row trigger_field inprogress_option_id; mret (Some row'))
    (fun _ => mret None);
  match claimed with
  | None => mret tt
  | Some row =>
      rendered ← @try_except (option string)
        (m ← create_email_message (to_dict row) email_template_url; mret (Some m))
        (fun _ => mret None);
      match rendered with
      | None => mret tt
      | Some email_message =>
          let subject := dict_get_default configuration "Subject" (VStr "No Subject") in
          recipients ← lift (row_getitem row recipient_field ≫= comma_delimited_to_list);
          match recipients with
          | [] => mret tt
          | _ =>
              let body := email_message in
              sent ← @try_except bool
                (_ ← send_email access_token subject recipients body None cc_recipients;
                 mret true)
                (fun _ => mret false);
              if (sent : bool) then
                @try_except unit
                  (_ ← row_update row trigger_field sent_option_id; mret tt)
                  (fun _ => mret tt)
              else mret tt
          end
      end
  end.

(** The outer [except Exception] logs and raises again, so every exception
    of the body is the function's own. *)
Definition process_emailer_config (configuration : dict) (access_token : string)
    : M unit :=
  source_table_id ← lift (getitem configuration "Source Table ID");
  trigger_field ← lift (getitem configuration "Email Trigger Field");
  trigger_value ← lift (getitem configuration "Trigger On Blank");
  let trigger_on_blank := truthy trigger_value in
  recipient_field ← lift (getitem configuration "Email Recipient Field");
  cc_recipients ← lift (getitem configuration "CC Recipients" ≫= comma_delimited_to_list);
  source_table ← get_table source_table_id;
  template_fields ←
    lift (getitem configuration "Message Template Fields" ≫= comma_delimited_to_list);
  let include_fields := trigger_field :: recipient_field :: map VStr template_fields in
  let source_table_fields := field_names source_table in
  if negb (forallb (is_field_name source_table_fields) include_fields) then mret tt
  else
    trigger ← lift (table_field source_table trigger_field);
    if negb (String.eqb (TYPE trigger) "single_select") then mret tt
    else
      queued_option_id ← lift (get_option_id (options_details trigger) "Queued");
      if negb (truthy queued_option_id) then mret tt
      else
        inprogress_option_id ←
          lift (get_option_id (options_details trigger) "In Progress");
        if negb (truthy inprogress_option_id) then mret tt
        else
          sent_option_id ← lift (get_option_id (options_details trigger) "Sent");
          if negb (truthy sent_option_id) then mret tt
          else
            let queued_rows_filter :=
              mkFilter trigger_field queued_option_id "single_select_equal" in
            let blank_rows_filter := mkFilter trigger_field (VStr "") "empty" in
            let filter_list :=
              queued_rows_filter :: (if trigger_on_blank then [blank_rows_filter] else []) in
            queued_rows ← get_rows source_table (Some include_fields) filter_list "OR";
            email_template_url ← lift (template_url_of configuration);
            if negb (truthy email_template_url) then mret tt
            else
              for_each queued_rows
                (process_row configuration access_token trigger_field
                   recipient_field cc_recipients inprogress_option_id
                   sent_option_id email_template_url).

(** ** main.main *)

(** [auth.authenticate]: the token provider, answering with a token or
    raising. *)
Definition authenticate (client_id tenant_id : option string) : M string := fun w =>
  let w' := emit (EvAuthenticate client_id tenant_id) w in
  match env_token env (now w) with
  | Some token => (Ok token, w')
  | None => (Raise (ValueError "Failed to create device flow"), w')
  end.

(** What [os.getenv] returns, as a Python value. *)
Definition env_value (o : option string) : value :=
  match o with
  | Some s => VStr s
  | None => VNone
  end.

(** The [for configuration in active_configurations] loop of [main], with
    its [try ... except Exception] around each call. *)
Definition process_all (active_configurations : list dict) (access_token : string)
    : M unit :=
  for_each active_configurations (fun configuration =>
    @try_except unit (process_emailer_config configuration access_token)
                     (fun _ => mret tt)).

Definition main (getenv : string -> option string) : M unit :=
  let client_id := getenv "CLIENT_ID" in
  let tenant_id := getenv "TENANT_ID" in
  let baserow_url := getenv "BASEROW_URL" in
  let baserow_api_token := getenv "BASEROW_API_TOKEN" in
  let config_table_id := getenv "CONFIG_TABLE_ID" in
  let error_table_id := getenv "ERROR_TABLE_ID" in
  if negb (existsb truthy
             (map env_value [client_id; tenant_id; baserow_url;
                             baserow_api_token; config_table_id; error_table_id]))
  then lift (Raise (ValueError "Missing environment variables"))
  else
    access_token ← authenticate client_id tenant_id;
    active_configurations ← get_active_configurations (env_value config_table_id);
    process_all active_configurations access_token.

End Emailer.

(** * Vocabulary of the specification *)

(** The calls made between two worlds. *)
Definition new_events (w w' : World) : list event :=
  drop (length (trace w)) (trace w').

(** What one recorded call does to the store: only an accepted write
    changes it. *)
Definition apply_event (e : event) (st : gmap (Z * Z) dict) : gmap (Z * Z) dict :=
  match e with
  | EvUpdate t i f v true => <[(t, i) := dict_set (default [] (st !! (t, i))) f v]> st
  | _ => st
  end.

Definition replay (delta : list event) (st : gmap (Z * Z) dict) : gmap (Z * Z) dict :=
  fold_left (fun st e => apply_event e st) delta st.

(** A computation is sound when it only appends to the trace and the store
    it leaves is the replay of what it appended. *)
Definition sound {A} (m : M A) : Prop :=
  forall w, exists delta,
    trace (m w).2 = (trace w ++ delta)%list /\
    store (m w).2 = replay delta (store w).

(** Kinds of recorded calls. *)
Definition is_update (e : event) : bool :=
  match e with EvUpdate _ _ _ _ _ => true | _ => false end.

Definition is_post (e : event) : bool :=
  match e with EvPost _ _ _ => true | _ => false end.

(** An accepted write to row [(t, i)]. *)
Definition writes_row (t i : Z) (e : event) : bool :=
  match e with
  | EvUpdate t' i' _ _ true => (t' =? t)%Z && (i' =? i)%Z
  | _ => false
  end.

(** The statuses for which [send_email] returns without raising. *)
Definition send_returns (status : option Z) : bool :=
  match status with
  | None => false
  | Some code => (code =? 202)%Z || negb ((400 <=? code)%Z && (code <? 600)%Z)
  end.

(** [row[recipient_field]] parsed, on the client's copy of a claimed row. *)
Definition recipients_of (row : Row) (f : string) (ip rf : value)
    : result (list string) :=
  row_getitem (mkRow (row_table row) (row_id row) (dict_set (values row) f ip)) rf
    ≫= comma_delimited_to_list.

(** The traces of one per-row transition on row [(t, i)], whose recipient
    field parses to [rcpts]: the claim write comes first, the template fetch
    follows an accepted claim, the post needs recipients, and the [Sent]
    write follows a post that [send_email] returned from. *)
Inductive row_run (t i : Z) (f : string) (ip sent url : value)
    (rcpts : result (list string)) : result unit -> list event -> Prop :=
| run_unclaimed :
    row_run t i f ip sent url rcpts (Ok tt) [EvUpdate t i f ip false]
| run_stuck :
    row_run t i f ip sent url rcpts (Ok tt)
      [EvUpdate t i f ip true; EvHttpGet url]
| run_escaped e :
    rcpts = Raise e ->
    row_run t i f ip sent url rcpts (Raise e)
      [EvUpdate t i f ip true; EvHttpGet url]
| run_unsent ep m status :
    rcpts = Ok (msg_to m) -> msg_to m <> [] ->
    send_returns status = false ->
    row_run t i f ip sent url rcpts (Ok tt)
      [EvUpdate t i f ip true; EvHttpGet url; EvPost ep m status]
| run_sent ep m status ok :
    rcpts = Ok (msg_to m) -> msg_to m <> [] ->
    send_returns status = true ->
    row_run t i f ip sent url rcpts (Ok tt)
      [EvUpdate t i f ip true; EvHttpGet url; EvPost ep m status;
       EvUpdate t i f sent ok].

(** The traces of the loop over the fetched rows: one per-row trace after
    the other, ending early when an exception leaves a row's body. *)
Inductive rows_run (f : string) (ip sent url rf : value)
    : list Row -> result unit -> list event -> Prop :=
| rows_done : rows_run f ip sent url rf [] (Ok tt) []
| rows_next row rows d r ds :
    row_run (row_table row) (row_id row) f ip sent url
            (recipients_of row f ip rf) (Ok tt) d ->
    rows_run f ip sent url rf rows r ds ->
    rows_run f ip sent url rf (row :: rows) r (d ++ ds)
| rows_raise row rows e d :
    row_run (row_table row) (row_id row) f ip sent url
            (recipients_of row f ip rf) (Raise e) d ->
    rows_run f ip sent url rf (row :: rows) (Raise e) d.

(** The configuration resolves, in world [w], to the source table [src],
    the trigger field [f], the recipient field [rf] and the option
    identifiers [q], [ip] and [sent] of "Queued", "In Progress" and "Sent". *)
Definition resolves (env : Env) (cfg : dict) (w : World) (src : value)
    (f : string) (rf q ip sent : value) : Prop :=
  exists tbl trig,
    getitem cfg "Source Table ID" = Ok src /\
    getitem cfg "Email Trigger Field" = Ok (VStr f) /\
    getitem cfg "Email Recipient Field" = Ok rf /\
    env_get_table env (now w) src = Some tbl /\
    table_field tbl (VStr f) = Ok trig /\
    get_option_id (options_details trig) "Queued" = Ok q /\
    get_option_id (options_details trig) "In Progress" = Ok ip /\
    get_option_id (options_details trig) "Sent" = Ok sent.

(** [rows] is what the run's query returns in world [w]: the rows of the
    source table whose trigger field [f] holds the Queued identifier [q] or,
    when the configuration triggers on blank, nothing. *)
Definition fetched_by (env : Env) (cfg : dict) (w : World) (f : string)
    (q : value) (rows : list Row) : Prop :=
  exists src tbl tob include,
    getitem cfg "Source Table ID" = Ok src /\
    env_get_table env (now w) src = Some tbl /\
    getitem cfg "Trigger On Blank" = Ok tob /\
    rows = select_rows tbl (Some include)
             (mkFilter (VStr f) q "single_select_equal"
              :: (if truthy tob then [mkFilter (VStr f) (VStr "") "empty"] else []))
             "OR" (store w).

(** The run read the source table's schema and made no other call. *)
Definition reads_schema_only (cfg : dict) (delta : list event) : Prop :=
  exists src, getitem cfg "Source Table ID" = Ok src /\ delta = [EvGetTable src].

(** The option list defines an option labelled [label]. *)
Definition has_option (options : list dict) (label : string) : bool :=
  existsb (fun option =>
             match dict_get option "value" with
             | Some (VStr s) => String.eqb s label
             | _ => false
             end) options.

(** A list-valued field collapsed to its first element. *)
Definition collapse_value (v : value) : value :=
  match v with
  | VList (first :: _) => first
  | _ => v
  end.

Definition collapse_dict (d : dict) : dict :=
  map (fun kv => (fst kv, collapse_value (snd kv))) d.

Definition is_empty_list (v : value) : bool :=
  match v with VList [] => true | _ => false end.

Definition has_empty_list (d : dict) : bool :=
  existsb (fun kv => is_empty_list (snd kv)) d.

(** No key occurs twice, as in every Python dict. *)
Fixpoint unique_keys (d : dict) : bool :=
  match d with
  | [] => true
  | (k, _) :: d' => negb (existsb (String.eqb k) (keys d')) && unique_keys d'
  end.

(** The active records that the configuration table holds. *)
Definition active_rows (tbl : Table) (st : gmap (Z * Z) dict) : list Row :=
  select_rows tbl None [mkFilter (VStr "Active") (VStr "true") "boolean"] "AND" st.

Fixpoint count_char (c : ascii) (s : string) : nat :=
  match s with
  | EmptyString => 0%nat
  | String c' s' => ((if Ascii.eqb c' c then 1 else 0) + count_char c s')%nat
  end.

Fixpoint last_char (s : string) : option ascii :=
  match s with
  | EmptyString => None
  | String c EmptyString => Some c
  | String _ s' => last_char s'
  end.

(** Neither the first nor the last character is whitespace. *)
Definition trimmed (s : string) : bool :=
  match s, last_char s with
  | String c _, Some c' => negb (is_space c) && negb (is_space c')
  | _, _ => true
  end.

Definition all_space (s : string) : bool :=
  forallb is_space (list_ascii_of_string s).

(** The renaming of one template variable. *)
Definition rename_char (c : ascii) : ascii :=
  if Ascii.eqb c space then underscore else c.

Definition rename_key (key : string) : string := replace space underscore key.

(** The world after the configurations have been processed one after the
    other, each from the world its predecessor left, whatever each run
    returned or raised. *)
Definition processed_in_turn (env : Env) (cfgs : list dict) (tok : string)
    (w : World) : World :=
  fold_left (fun w cfg => (process_emailer_config env cfg tok w).2) cfgs w.

(** The six environment variables that [main] reads. *)
Definition required_names : list string :=
  ["CLIENT_ID"; "TENANT_ID"; "BASEROW_URL"; "BASEROW_API_TOKEN";
   "CONFIG_TABLE_ID"; "ERROR_TABLE_ID"].

Definition is_set (getenv : string -> option string) (name : string) : bool :=
  truthy (env_value (getenv name)).

(** * A small deployment, for running the pipeline on concrete inputs *)

Module Demo.

(** The trigger field's options: Queued = 1, In Progress = 2, Sent = 3. *)
Definition options : list dict :=
  [ [("id", VInt 1); ("value", VStr "Queued")];
    [("id", VInt 2); ("value", VStr "In Progress")];
    [("id", VInt 3); ("value", VStr "Sent")] ].

(** Source table 7 and configuration table 10. *)
Definition source_table : Table :=
  mkTable 7 [("Status", mkField "single_select" options);
             ("To", mkField "text" []);
             ("Name", mkField "text" [])].

Definition config_table : Table :=
  mkTable 10 [("Active", mkField "boolean" [])].

(** A source table whose trigger field has no "Sent" option. *)
Definition source_table_no_sent : Table :=
  mkTable 7 [("Status", mkField "single_select" (firstn 2 options));
             ("To", mkField "text" []);
             ("Name", mkField "text" [])].

Definition tables (id : value) : option Table :=
  match id with
  | VInt 7 => Some source_table
  | VStr "10" => Some config_table
  | _ => None
  end.

(** The configuration as the loader returns it. *)
Definition configuration : dict :=
  [("Active", VBool true);
   ("Source Table ID", VInt 7);
   ("Email Trigger Field", VStr "Status");
   ("Trigger On Blank", VBool true);
   ("Email Recipient Field", VStr "To");
   ("CC Recipients", VNone);
   ("Message Template Fields", VStr "Name");
   ("Message Template", VDict [("url", VStr "http://t/welcome.txt")]);
   ("Subject", VStr "Welcome")].

(** The same configuration as the store holds it: the template is a file
    field, a list of one file. *)
Definition stored_configuration : dict :=
  [("Active", VBool true);
   ("Source Table ID", VInt 7);
   ("Email Trigger Field", VStr "Status");
   ("Trigger On Blank", VBool true);
   ("Email Recipient Field", VStr "To");
   ("CC Recipients", VNone);
   ("Message Template Fields", VStr "Name");
   ("Message Template", VList [VDict [("url", VStr "http://t/welcome.txt")]]);
   ("Subject", VStr "Welcome")].

(** Row 1 is blank with a recipient, row 2 is queued with none. *)
Definition row1 : dict := [("Status", VNone); ("To", VStr "a@x.com"); ("Name", VStr "A")].
Definition row2 : dict := [("Status", VInt 1); ("To", VStr ""); ("Name", VStr "B")].

Definition rows : gmap (Z * Z) dict :=
  <[(7%Z, 1%Z) := row1]> (<[(7%Z, 2%Z) := row2]> ∅).

Definition rows_and_configuration : gmap (Z * Z) dict :=
  <[(10%Z, 1%Z) := stored_configuration]> rows.

Definition start : World := mkWorld rows [].
Definition start_all : World := mkWorld rows_and_configuration [].

(** Every collaborator answers; the mail API answers [status]. *)
Definition env_with (update_ok : bool) (status : option Z) : Env :=
  mkEnv (fun _ => tables) (fun _ => true) (fun _ => update_ok)
        (fun _ _ => Some (200%Z, "Hello {{ Name }}"))
        (fun _ => true) (fun _ _ => Ok "Hello")
        (fun _ => status) (fun _ => Some "token").

Definition env_ok : Env := env_with true (Some 202%Z).
Definition env_write_refused : Env := env_with false (Some 202%Z).
Definition env_status_200 : Env := env_with true (Some 200%Z).

Definition env_no_sent : Env :=
  mkEnv (fun _ _ => Some source_table_no_sent) (fun _ => true) (fun _ => true)
        (fun _ _ => Some (200%Z, "Hello {{ Name }}"))
        (fun _ => true) (fun _ _ => Ok "Hello")
        (fun _ => Some 202%Z) (fun _ => Some "token").

(** Environments of the process: all six variables, [CLIENT_ID] alone. *)
Definition getenv_all (name : string) : option string :=
  if existsb (String.eqb name) required_names then
    Some (if String.eqb name "CONFIG_TABLE_ID" then "10" else "x")
  else None.

Definition getenv_client_only (name : string) : option string :=
  if String.eqb name "CLIENT_ID" then Some "x" else None.

Definition getenv_none (name : string) : option string := None.

End Demo.

(** * The rest of the code *)

(** ** emailer.build_index *)

(** A value that can be a dict key. *)
Definition hashable (v : value) : bool :=
  match v with
  | VList _ | VDict _ => false
  | _ => true
  end.

(** The number a key counts as: [True == 1] and [False == 0]. *)
Definition key_number (v : value) : option Z :=
  match v with
  | VBool b => Some (if b then 1 else 0)%Z
  | VInt z => Some z
  | _ => None
  end.

(** Equality of two dict keys, as [==] on hashable values. *)
Definition key_eqb (a b : value) : bool :=
  match a, b with
  | VNone, VNone => true
  | VStr x, VStr y => String.eqb x y
  | (VBool _ | VInt _), (VBool _ | VInt _) =>
      match key_number a, key_number b with
      | Some x, Some y => (x =? y)%Z
      | _, _ => false
      end
  | _, _ => false
  end.

(** A dict from index values to rows, in insertion order. *)
Abbreviation row_index := (list (value * dict)).

(** [index.get(k)], for a key [k] that can be hashed. *)
Fixpoint index_get (index : row_index) (k : value) : option dict :=
  match index with
  | [] => None
  | (k', row) :: index' => if key_eqb k' k then Some row else index_get index' k
  end.

(** [index[k] = row]: an equal key keeps its place and its first spelling. *)
Fixpoint index_set (index : row_index) (k : value) (row : dict) : row_index :=
  match index with
  | [] => [(k, row)]
  | (k', row') :: index' =>
      if key_eqb k' k then (k', row) :: index'
      else (k', row') :: index_set index' k row
  end.

(** [index_value is None or (isinstance(index_value, str) and
    index_value.strip() == '')]. *)
Definition invalid_index_value (v : value) : bool :=
  match v with
  | VNone => true
  | VStr s => String.eqb (strip s) ""
  | _ => false
  end.

(** The loop of [build_index] from a given [index].  A row without the
    field raises [KeyError] with the function's message; a None or blank
    value raises [ValueError] (its message, which prints the value and the
    row's id, is cut to its fixed start); a list or dict value cannot be
    looked up in [index] and raises [TypeError]. *)
Fixpoint build_index_from (rows : list dict) (index_field_name : string)
    (index : row_index) : result row_index :=
  match rows with
  | [] => Ok index
  | row :: rest =>
      match dict_get row index_field_name with
      | None =>
          Raise (KeyError ("The index field '" ++ index_field_name
                           ++ "' is missing in a row."))
      | Some index_value =>
          if invalid_index_value index_value then
            Raise (ValueError "Invalid index value")
          else if negb (hashable index_value) then Raise TypeError
          else build_index_from rest index_field_name
                                (index_set index index_value row)
      end
  end.

Definition build_index (rows : list dict) (index_field_name : string)
    : result row_index :=
  build_index_from rows index_field_name [].

(** The row files under [k]: it has the field, with a value equal to [k]. *)
Definition indexed_under (index_field_name : string) (k : value) (row : dict)
    : bool :=
  match dict_get row index_field_name with
  | Some v => key_eqb v k
  | None => false
  end.

(** A row that [build_index] accepts. *)
Definition indexable (index_field_name : string) (row : dict) : bool :=
  match dict_get row index_field_name with
  | Some v => negb (invalid_index_value v) && hashable v
  | None => false
  end.

(** No two keys of the list are equal as dict keys. *)
Fixpoint distinct_keys (ks : list value) : bool :=
  match ks with
  | [] => true
  | k :: ks' => negb (existsb (key_eqb k) ks') && distinct_keys ks'
  end.

(** ** Vocabulary for the option lookup *)

(** The option carries the label [label]. *)
Definition option_labelled (label : string) (option : dict) : bool :=
  match dict_get option "value" with
  | Some (VStr s) => String.eqb s label
  | _ => false
  end.

(** The option has a label that can be a dict key. *)
Definition well_labelled (option : dict) : bool :=
  match dict_get option "value" with
  | Some v => hashable v
  | None => false
  end.

Definition option_not_found (label : string) : exn :=
  ValueError ("The option '" ++ label ++ "' is not found in the provided options.").

(** ** Vocabulary for the runs *)

(** A call that only reads the store. *)
Definition is_read (e : event) : bool :=
  match e with
  | EvGetTable _ | EvGetRows _ _ => true
  | _ => false
  end.

Definition is_http_get (e : event) : bool :=
  match e with EvHttpGet _ => true | _ => false end.

(** A write, accepted or not, to row [(t, i)]. *)
Definition touches (t i : Z) (e : event) : bool :=
  match e with
  | EvUpdate t' i' _ _ _ => (t' =? t)%Z && (i' =? i)%Z
  | _ => false
  end.

(** The configuration gives the cc list [cc] and the template URL [url]. *)
Definition template_ready (cfg : dict) (cc : list string) (url : value) : Prop :=
  (getitem cfg "CC Recipients" ≫= comma_delimited_to_list) = Ok cc /\
  template_url_of cfg = Ok url /\
  truthy url = true.

(** The rows that the run's query returns from the store [st]: those of the
    source table whose trigger field holds the Queued identifier or, when
    the configuration triggers on blank, nothing, cut down to the trigger
    field, the recipient field and the template fields. *)
Definition queued_rows (tbl : Table) (f : string) (rf : value)
    (fields : list string) (q tob : value) (st : gmap (Z * Z) dict) : list Row :=
  select_rows tbl (Some (VStr f :: rf :: map VStr fields))
    (mkFilter (VStr f) q "single_select_equal"
     :: (if truthy tob then [mkFilter (VStr f) (VStr "") "empty"] else []))
    "OR" st.

(** The keys that [process_emailer_config] reads before its first call. *)
Definition early_keys : list string :=
  ["Source Table ID"; "Email Trigger Field"; "Trigger On Blank";
   "Email Recipient Field"; "CC Recipients"].

(** The configuration's entries are read and the source table is found. *)
Definition reads_configuration (env : Env) (cfg : dict) (w : World)
    (src tf rf : value) (fields : list string) (tbl : Table) : Prop :=
  getitem cfg "Source Table ID" = Ok src /\
  getitem cfg "Email Trigger Field" = Ok tf /\
  is_ok (getitem cfg "Trigger On Blank") = true /\
  getitem cfg "Email Recipient Field" = Ok rf /\
  is_ok (getitem cfg "CC Recipients" ≫= comma_delimited_to_list) = true /\
  env_get_table env (now w) src = Some tbl /\
  (getitem cfg "Message Template Fields" ≫= comma_delimited_to_list) = Ok fields.

(** The schema checks of the run pass. *)
Definition schema_fits (tbl : Table) (tf rf : value) (fields : list string)
    (trig : Field) : Prop :=
  forallb (is_field_name (field_names tbl)) (tf :: rf :: map VStr fields) = true /\
  table_field tbl tf = Ok trig /\
  TYPE trig = "single_select".

(** ** auth.authenticate *)

Module Auth.

(** The calls that [authenticate] makes, on the file system and on the
    identity library. *)
Inductive call : Type :=
| CacheExists
| CacheRead
| NewApplication (client_id tenant_id : option string)
| GetAccounts
| AcquireSilent (account : value)
| InitiateDeviceFlow
| AcquireByDeviceFlow (flow : dict)
| CacheWrite.

(** What the collaborators answer; [None] and [false] stand for a raised
    exception.  Reading and writing the cache file happen inside [try]
    blocks that log and go on, so whether they succeed is of no
    consequence and is not part of the answers. *)
Record Answers := mkAnswers {
  cache_exists : bool;
  application : bool;
  accounts : option (list value);
  silent : option value;
  device_flow : option dict;
  device_result : option dict
}.

Inductive error : Type :=
| Builtin (e : exn)
| Exception (msg : string)
| External.

Inductive outcome : Type :=
| Token (access_token : value)
| Raised (e : error).

(** [access_token = result["access_token"]; return access_token]. *)
Definition finish (result : dict) (calls : list call) : outcome * list call :=
  match dict_get result "access_token" with
  | Some access_token => (Token access_token, calls)
  | None => (Raised (Builtin (KeyError "access_token")), calls)
  end.

(** The body of [if not result:], the interactive authentication. *)
Definition interactive (a : Answers) (calls : list call) : outcome * list call :=
  let calls := (calls ++ [InitiateDeviceFlow])%list in
  match device_flow a with
  | None => (Raised External, calls)
  | Some flow =>
      match dict_get flow "user_code" with
      | None => (Raised (Builtin (ValueError "Failed to create device flow")), calls)
      | Some _ =>
          match dict_get flow "message" with
          | None => (Raised (Builtin (KeyError "message")), calls)
          | Some _ =>
              let calls := (calls ++ [AcquireByDeviceFlow flow])%list in
              match device_result a with
              | None => (Raised External, calls)
              | Some result =>
                  match dict_get result "access_token" with
                  | Some _ => finish result (calls ++ [CacheWrite])%list
                  | None =>
                      (Raised (Exception
                         "Authentication failed. Could not obtain access token."),
                       calls)
                  end
              end
          end
      end
  end.

(** [[account['username'] for account in accounts]], which the function
    evaluates for its log line before it asks for a token. *)
Fixpoint usernames (accounts : list value) : result (list value) :=
  match accounts with
  | [] => Ok []
  | VDict account :: rest =>
      match dict_get account "username" with
      | Some username =>
          match usernames rest with
          | Ok names => Ok (username :: names)
          | Raise e => Raise e
          end
      | None => Raise (KeyError "username")
      end
  | _ :: _ => Raise TypeError
  end.

Definition authenticate (a : Answers) (client_id tenant_id : option string)
    : outcome * list call :=
  let calls := CacheExists :: (if cache_exists a then [CacheRead] else []) in
  let calls := (calls ++ [NewApplication client_id tenant_id])%list in
  if negb (application a) then (Raised External, calls)
  else
    let calls := (calls ++ [GetAccounts])%list in
    match accounts a with
    | None => (Raised External, calls)
    | Some [] => interactive a calls
    | Some (account :: rest) =>
        match usernames (account :: rest) with
        | Raise e => (Raised (Builtin e), calls)
        | Ok _ =>
            let calls := (calls ++ [AcquireSilent account])%list in
            match silent a with
            | None => (Raised External, calls)
            | Some result =>
                if truthy result then
                  match result with
                  | VDict d => finish d calls
                  | _ => (Raised (Builtin AttributeError), calls)
                  end
                else interactive a calls
            end
        end
    end.

(** The silent acquisition gives nothing: there is no account, or the
    accounts are listed and the result is falsy. *)
Definition silent_gives_nothing (a : Answers) : bool :=
  match accounts a with
  | Some [] => true
  | Some (account :: rest) =>
      match usernames (account :: rest), silent a with
      | Ok _, Some result => negb (truthy result)
      | _, _ => false
      end
  | None => false
  end.

Definition is_silent_call (c : call) : bool :=
  match c with AcquireSilent _ => true | _ => false end.

Definition is_device_call (c : call) : bool :=
  match c with
  | InitiateDeviceFlow | AcquireByDeviceFlow _ | CacheWrite => true
  | _ => false
  end.

Definition is_cache_write (c : call) : bool :=
  match c with CacheWrite => true | _ => false end.

End Auth.

(** ** More of the small deployment *)

Module Demo2.

(** Two rows filed under the same name, and one under another. *)
Definition people : list dict :=
  [ [("Name", VStr "ann"); ("Age", VInt 30)];
    [("Name", VStr "bob"); ("Age", VInt 41)];
    [("Name", VStr "ann"); ("Age", VInt 52)] ].

(** The configuration with a recipient field that the table lacks, without
    a template URL, and with a blank subject. *)
Definition configuration_bad_field : dict :=
  dict_set Demo.configuration "Email Recipient Field" (VStr "Cc").

Definition configuration_no_url : dict :=
  dict_set Demo.configuration "Message Template" (VDict []).

Definition configuration_no_subject : dict :=
  dict_set Demo.configuration "Subject" VNone.

(** Row 1 with a number where the recipients should be. *)
Definition row_bad_recipient : Row :=
  mkRow 7 1 [("Status", VNone); ("To", VInt 5); ("Name", VStr "A")].

(** A stored configuration whose template field is an empty list. *)
Definition start_empty_template : World :=
  mkWorld (<[(10%Z, 1%Z) := dict_set Demo.stored_configuration
                              "Message Template" (VList [])]> Demo.rows) [].

(** A cached account whose token is acquired silently, and a first login
    through the device flow. *)
Definition cached : Auth.Answers :=
  Auth.mkAnswers true true (Some [VDict [("username", VStr "u")]])
    (Some (VDict [("access_token", VStr "t1"); ("expires_in", VInt 3600)]))
    None None.

Definition first_login : Auth.Answers :=
  Auth.mkAnswers false true (Some []) None
    (Some [("user_code", VStr "ABCD"); ("message", VStr "go to the login page")])
    (Some [("access_token", VStr "t2")]).


Definition no_user_code : Auth.Answers :=
  Auth.mkAnswers false true (Some []) None (Some [("error", VStr "x")]) None.

End Demo2.

(** * Verification *)

(** ** Dicts and identifiers *)

Lemma dict_get_set_eq d k v : dict_get (dict_set d k v) k = Some v.
Proof.
  induction d as [|[k' v'] d IH]; simpl.
  - by rewrite String.eqb_refl.
  - destruct (String.eqb k' k) eqn:E; simpl; by rewrite E.
Qed.

Lemma dict_get_set_ne d k k' v :
  k <> k' -> dict_get (dict_set d k v) k' = dict_get d k'.
Proof.
  intros Hne. induction d as [|[k0 v0] d IH]; simpl.
  - by destruct (String.eqb_spec k k').
  - destruct (String.eqb_spec k0 k) as [->|]; simpl.
    + by destruct (String.eqb_spec k k').
    + by destruct (String.eqb_spec k0 k').
Qed.

Lemma value_eqb_eq a b : value_eqb a b = true -> a = b.
Proof.
  destruct a, b; simpl; try discriminate; intros H.
  - done.
  - by apply Bool.eqb_prop in H as ->.
  - by apply Z.eqb_eq in H as ->.
  - by apply String.eqb_eq in H as ->.
Qed.

(** ** The store is the replay of the trace *)

Lemma replay_app d1 d2 st : replay (d1 ++ d2) st = replay d2 (replay d1 st).
Proof. unfold replay. by rewrite fold_left_app. Qed.

Lemma new_events_app w w' delta :
  trace w' = trace w ++ delta -> new_events w w' = delta.
Proof. unfold new_events. intros ->. by rewrite drop_app_length. Qed.

(** A row that no accepted write names keeps its cells. *)
Lemma replay_frame t i delta st :
  existsb (writes_row t i) delta = false ->
  replay delta st !! (t, i) = st !! (t, i).
Proof.
  revert st. induction delta as [|e delta IH]; intros st; simpl; [done|].
  intros [He Hd]%orb_false_elim. fold (replay delta (apply_event e st)).
  rewrite IH by done.
  destruct e as [| | |t' i' f v [|]| |]; simpl in *; try done.
  rewrite lookup_insert_ne; [done|]. intros [= -> ->].
  by rewrite !Z.eqb_refl in He.
Qed.

(** If every accepted write to a row sets field [f] to a value in [P], and
    there is one, the row ends with such a value in [f]. *)
Lemma replay_establishes (P : value -> Prop) t i f delta st :
  (forall f' v, In (EvUpdate t i f' v true) delta -> f' = f /\ P v) ->
  existsb (writes_row t i) delta = true ->
  exists cells v,
    replay delta st !! (t, i) = Some cells /\ dict_get cells f = Some v /\ P v.
Proof.
  induction delta as [|e delta IH] using rev_ind; [done|].
  intros Hall Hex. rewrite replay_app. simpl.
  rewrite existsb_app in Hex. simpl in Hex. rewrite orb_false_r in Hex.
  destruct (writes_row t i e) eqn:He.
  - destruct e as [| | |t' i' f' v [|]| |]; simpl in He; try done.
    apply andb_prop in He as [->%Z.eqb_eq ->%Z.eqb_eq].
    destruct (Hall f' v) as [-> HP]; [apply in_or_app; right; by left|].
    simpl. rewrite lookup_insert_eq. eexists _, v.
    split; [done|]. by rewrite dict_get_set_eq.
  - rewrite orb_false_r in Hex.
    destruct IH as (cells & v & Hl & Hg & HP); [|done|].
    { intros f' v Hin. apply Hall, in_or_app. by left. }
    exists cells, v. split; [|done]. rewrite <- Hl.
    apply (replay_frame t i [e]). simpl. by rewrite He.
Qed.

(** ** [split], [strip] and [replace] *)

Lemma split_length sep s : length (split sep s) = S (count_char sep s).
Proof.
  induction s as [|c s IH]; simpl; [done|].
  destruct (Ascii.eqb c sep); simpl; [by rewrite IH|].
  destruct (split sep s); simpl in *; lia.
Qed.

Lemma lstrip_blank s : lstrip s = "" <-> all_space s = true.
Proof.
  unfold all_space. induction s as [|c s IH]; simpl; [done|].
  destruct (is_space c); simpl; [done|]. split; discriminate.
Qed.

Lemma rstrip_blank s : rstrip s = "" <-> all_space s = true.
Proof.
  unfold all_space. induction s as [|c s IH]; simpl; [done|].
  destruct (rstrip s) eqn:E.
  - destruct (is_space c); simpl; [tauto|]. split; discriminate.
  - rewrite andb_true_iff, <- IH. split; [discriminate | intros [_ ?]; done].
Qed.

Lemma lstrip_head s :
  match lstrip s with
  | String c _ => is_space c = false
  | EmptyString => True
  end.
Proof.
  induction s as [|c s IH]; simpl; [done|].
  destruct (is_space c) eqn:E; [done|]. by simpl.
Qed.

Lemma rstrip_head c s : is_space c = false -> rstrip (String c s) = String c (rstrip s).
Proof. intros H. simpl. rewrite H. by destruct (rstrip s). Qed.

Lemma rstrip_last s c : last_char (rstrip s) = Some c -> is_space c = false.
Proof.
  induction s as [|a s IH]; simpl; [done|].
  destruct (rstrip s) as [|b r] eqn:E.
  - destruct (is_space a) eqn:Ha; simpl; [done|]. by intros [= <-].
  - simpl. apply IH.
Qed.

Lemma strip_trimmed s : trimmed (strip s) = true.
Proof.
  unfold strip, trimmed. pose proof (lstrip_head s) as Hh.
  destruct (lstrip s) as [|c u]; [done|].
  rewrite rstrip_head by done.
  destruct (last_char (String c (rstrip u))) as [c'|] eqn:El; [|done].
  rewrite <- rstrip_head in El by done.
  apply rstrip_last in El. by rewrite Hh, El.
Qed.

Lemma all_space_lstrip s : all_space (lstrip s) = true -> lstrip s = "".
Proof.
  pose proof (lstrip_head s) as Hh. unfold all_space.
  destruct (lstrip s) as [|c u]; [done|]. simpl. by rewrite Hh.
Qed.

Lemma strip_blank s : strip s = "" <-> all_space s = true.
Proof.
  unfold strip. rewrite rstrip_blank. split.
  - intros H. by apply lstrip_blank, all_space_lstrip.
  - intros H. apply lstrip_blank in H. by rewrite H.
Qed.

Lemma rename_key_get key n :
  String.get n (rename_key key) = option_map rename_char (String.get n key).
Proof.
  unfold rename_key. revert n. induction key as [|c key IH]; intros n; simpl; [done|].
  destruct n as [|n]; simpl; [done|]. apply IH.
Qed.

Lemma rename_key_no_space key : count_char space (rename_key key) = 0%nat.
Proof.
  unfold rename_key. induction key as [|c key IH]; simpl; [done|].
  rewrite IH. destruct (Ascii.eqb c space) eqn:E; [done|]. by rewrite E.
Qed.

Lemma rename_key_length key : String.length (rename_key key) = String.length key.
Proof. unfold rename_key. induction key as [|c key IH]; simpl; congruence. Qed.

(** In the renamed mapping, a name holds the value of the last variable
    that is renamed to it. *)
Lemma rename_keys_fold vars acc k :
  dict_get (fold_left (fun acc kv => dict_set acc (replace space underscore (fst kv)) (snd kv))
                      vars acc) k
  = match dict_get (rev (map (fun kv => (rename_key (fst kv), snd kv)) vars)) k with
    | Some v => Some v
    | None => dict_get acc k
    end.
Proof.
  revert acc. induction vars as [|[k0 v0] vars IH]; intros acc; simpl; [done|].
  rewrite IH. clear IH. fold (rename_key k0).
  generalize (rev (map (fun kv => (rename_key kv.1, kv.2)) vars)) as d. intros d.
  induction d as [|[k1 v1] d IHd]; simpl.
  - destruct (String.eqb_spec (rename_key k0) k) as [->|Hne].
    + apply dict_get_set_eq.
    + by apply dict_get_set_ne.
  - by destruct (String.eqb k1 k).
Qed.

Lemma rename_keys_last vars k :
  dict_get (rename_keys vars) k
  = dict_get (rev (map (fun kv => (rename_key (fst kv), snd kv)) vars)) k.
Proof.
  unfold rename_keys. rewrite rename_keys_fold.
  by destruct (dict_get (rev _) k).
Qed.

Create HintDb sound.

Section Pipeline.

Variable env : Env.

Lemma sound_ret {A} (a : A) : sound (mret a).
Proof. intros w. exists []. simpl. by rewrite app_nil_r. Qed.

Lemma sound_lift {A} (r : result A) : sound (lift r).
Proof. intros w. exists []. simpl. by rewrite app_nil_r. Qed.

Lemma sound_bind {A B} (m : M A) (k : A -> M B) :
  sound m -> (forall a, sound (k a)) -> sound (m ≫= k).
Proof.
  intros Hm Hk w. destruct (Hm w) as (d1 & Ht1 & Hs1).
  unfold mbind, M_bind. destruct (m w) as [[a|e] w1]; simpl in *.
  - destruct (Hk a w1) as (d2 & Ht2 & Hs2). exists (d1 ++ d2).
    by rewrite Ht2, Hs2, Ht1, Hs1, replay_app, app_assoc.
  - by exists d1.
Qed.

Lemma sound_try {A} (m : M A) (h : exn -> M A) :
  sound m -> (forall e, sound (h e)) -> sound (try_except m h).
Proof.
  intros Hm Hh w. destruct (Hm w) as (d1 & Ht1 & Hs1).
  unfold try_except. destruct (m w) as [[a|e] w1]; simpl in *.
  - by exists d1.
  - destruct (Hh e w1) as (d2 & Ht2 & Hs2). exists (d1 ++ d2).
    by rewrite Ht2, Hs2, Ht1, Hs1, replay_app, app_assoc.
Qed.

Lemma sound_for_each {A} (xs : list A) (body : A -> M unit) :
  (forall x, sound (body x)) -> sound (for_each xs body).
Proof.
  intros Hb. induction xs as [|x xs IH]; simpl.
  - apply sound_ret.
  - apply sound_bind; auto.
Qed.

(** A call that only records itself. *)
Lemma sound_emit_only {A} (m : M A) :
  (forall w, exists e, (m w).2 = emit e w /\ is_update e = false) -> sound m.
Proof.
  intros H w. destruct (H w) as (e & -> & He). exists [e]. simpl.
  split; [done|]. by destruct e.
Qed.

Lemma sound_get_table id : sound (get_table env id).
Proof.
  apply sound_emit_only. intros w. exists (EvGetTable id). unfold get_table.
  by destruct (env_get_table env (now w) id).
Qed.

Lemma sound_get_rows t inc fs ft : sound (get_rows env t inc fs ft).
Proof.
  apply sound_emit_only. intros w. exists (EvGetRows (table_id t) fs).
  unfold get_rows. by destruct (env_get_rows_ok env (now w)).
Qed.

Lemma sound_row_update row field v : sound (row_update env row field v).
Proof.
  intros w. unfold row_update.
  destruct field; try (exists []; simpl; by rewrite app_nil_r).
  destruct (store w !! (row_table row, row_id row)) as [cells|] eqn:Hk.
  - destruct (env_update_ok env (now w)).
    + eexists [_]. split; [done|]. simpl. by rewrite Hk.
    + by eexists [_].
  - by eexists [_].
Qed.

Lemma sound_fetch_template url : sound (fetch_template env url).
Proof.
  apply sound_emit_only. intros w. exists (EvHttpGet url). unfold fetch_template.
  destruct (env_http_get env (now w) url) as [[s x]|]; [|done].
  by destruct (raise_for_status s).
Qed.

Lemma sound_authenticate c t : sound (authenticate env c t).
Proof.
  apply sound_emit_only. intros w. exists (EvAuthenticate c t).
  unfold authenticate. by destruct (env_token env (now w)).
Qed.

Lemma sound_send_email tok subj rcpt body from cc :
  sound (send_email env tok subj rcpt body from cc).
Proof.
  intros w. unfold send_email.
  destruct (negb (sliceable subj)); [exists []; simpl; by rewrite app_nil_r|].
  destruct (env_http_post env (now w)) as [code|]; [|by eexists [_]].
  destruct (code =? 202)%Z; [by eexists [_]|].
  destruct (raise_for_status code); by eexists [_].
Qed.

#[local] Hint Resolve sound_ret sound_lift sound_get_table sound_get_rows
  sound_row_update sound_fetch_template sound_authenticate sound_send_email
  : sound.

Ltac sound_step :=
  match goal with
  | |- sound (_ ≫= _) => apply sound_bind; [|intros ?]
  | |- sound (try_except _ _) => apply sound_try; [|intros ?]
  | |- sound (for_each _ _) => apply sound_for_each; intros ?
  | |- sound (match ?x with _ => _ end) => destruct x
  | |- sound (if ?x then _ else _) => destruct x
  | |- sound _ => solve [auto with sound]
  end.

Lemma sound_process_row cfg tok tf rf cc ip sent url row :
  sound (process_row env cfg tok tf rf cc ip sent url row).
Proof. unfold process_row, create_email_message. repeat sound_step. Qed.

Lemma sound_process_emailer_config cfg tok :
  sound (process_emailer_config env cfg tok).
Proof.
  unfold process_emailer_config. repeat sound_step. apply sound_process_row.
Qed.

(** ** The shape of the traces *)

Lemma process_row_run cfg tok f rf cc ip sent url row w :
  exists delta,
    trace (process_row env cfg tok (VStr f) rf cc ip sent url row w).2
      = trace w ++ delta /\
    row_run (row_table row) (row_id row) f ip sent url (recipients_of row f ip rf)
            (process_row env cfg tok (VStr f) rf cc ip sent url row w).1 delta.
Proof.
  pose proof (eq_refl (recipients_of row f ip rf)) as Hrc.
  revert Hrc. generalize (recipients_of row f ip rf) at 1 3 as rc. intros rc Hrc.
  unfold recipients_of in Hrc.
  unfold process_row, try_except, row_update, create_email_message,
    fetch_template, send_email, lift, emit, now in *.
  unfold mbind, mret, M_bind, M_ret, result_bind in *. simpl.
  destruct (store w !! (row_table row, row_id row)) as [cells|] eqn:Hk;
    [|simpl; eexists; split; [reflexivity|constructor]].
  destruct (env_update_ok env (length (trace w))) eqn:Hu;
    [|simpl; eexists; split; [reflexivity|constructor]].
  simpl.
  repeat (case_match; simpl in *; simplify_eq/=);
    rewrite <- ?app_assoc; simpl;
    (eexists; split; [reflexivity|]).
  all: try (by constructor).
  all: first [apply run_sent | apply run_unsent]; simpl; try done.
  all: unfold send_returns, raise_for_status in *.
  all: repeat match goal with
         | H : context [if ?c then _ else _] |- _ =>
             destruct c eqn:?; try discriminate H
         end.
  all: repeat match goal with
         | H : _ = true |- _ => rewrite H
         | H : _ = false |- _ => rewrite H
         end; done.
Qed.

Lemma for_each_rows_run cfg tok f rf cc ip sent url rows w :
  exists delta,
    trace (for_each rows (process_row env cfg tok (VStr f) rf cc ip sent url) w).2
      = trace w ++ delta /\
    rows_run f ip sent url rf rows
      (for_each rows (process_row env cfg tok (VStr f) rf cc ip sent url) w).1
      delta.
Proof.
  revert w. induction rows as [|row rows IH]; intros w; simpl.
  - exists []. split; [by rewrite app_nil_r | constructor].
  - destruct (process_row_run cfg tok f rf cc ip sent url row w) as (d & Ht & Hr).
    unfold mbind, M_bind.
    destruct (process_row env cfg tok (VStr f) rf cc ip sent url row w)
      as [[[]|e] w1]; simpl in *.
    + destruct (IH w1) as (ds & Hts & Hrs). exists (d ++ ds).
      split; [by rewrite Hts, Ht, app_assoc | by econstructor].
    + exists d. split; [done | by constructor].
Qed.

#[local] Arguments table_field : simpl never.
#[local] Arguments get_option_id : simpl never.
#[local] Arguments template_url_of : simpl never.
#[local] Arguments getitem : simpl never.
#[local] Arguments comma_delimited_to_list : simpl never.
#[local] Arguments select_rows : simpl never.
#[local] Arguments cell : simpl never.

Ltac stop_early :=
  simpl; rewrite <- ?app_assoc; simpl;
  first [ exists []; split; [by rewrite app_nil_r | by left]
        | eexists; split; [reflexivity | right; left; by eexists] ].

(** One run on a configuration stops before the table is read, or after it
    and before the rows are queried, or it resolves the three identifiers,
    queries the rows and loops over them. *)
Lemma config_run cfg tok w :
  exists delta,
    trace (process_emailer_config env cfg tok w).2 = trace w ++ delta /\
    (delta = []
     \/ reads_schema_only cfg delta
     \/ exists src f rf q ip sent url rows tid flt ds,
          resolves env cfg w src f rf q ip sent /\
          fetched_by env cfg w f q rows /\
          delta = EvGetTable src :: EvGetRows tid flt :: ds /\
          (ds = [] \/
           rows_run f ip sent url rf rows
                    (process_emailer_config env cfg tok w).1 ds)).
Proof.
  unfold process_emailer_config, lift, get_table, get_rows, now.
  unfold mbind, M_bind, result_bind. simpl.
  destruct (getitem cfg "Source Table ID") as [src|] eqn:Hsrc; [|stop_early].
  destruct (getitem cfg "Email Trigger Field") as [tf|] eqn:Htf; [|stop_early].
  destruct (getitem cfg "Trigger On Blank") as [tob|] eqn:Htob; [|stop_early].
  destruct (getitem cfg "Email Recipient Field") as [rf|] eqn:Hrf; [|stop_early].
  destruct (getitem cfg "CC Recipients") as [ccv|] eqn:Hccv; [|stop_early].
  destruct (comma_delimited_to_list ccv) as [cc|] eqn:Hcc; [|stop_early].
  destruct (env_get_table env (length (trace w)) src) as [tbl|] eqn:Htbl;
    [|stop_early].
  destruct (getitem cfg "Message Template Fields") as [mtf|] eqn:Hmtf;
    [|stop_early].
  destruct (comma_delimited_to_list mtf) as [fieldsl|] eqn:Hfl; [|stop_early].
  destruct tf as [| | |f| |]; try stop_early.
  simpl.
  destruct (existsb (String.eqb f) (field_names tbl)
            && (is_field_name (field_names tbl) rf
                && forallb (is_field_name (field_names tbl)) (map VStr fieldsl)));
    [|stop_early].
  simpl.
  destruct (table_field tbl (VStr f)) as [trig|] eqn:Htrig; [|stop_early].
  destruct (String.eqb (TYPE trig) "single_select"); [|stop_early]. simpl.
  destruct (get_option_id (options_details trig) "Queued") as [q|] eqn:Hq;
    [|stop_early].
  destruct (truthy q); [|stop_early]. simpl.
  destruct (get_option_id (options_details trig) "In Progress") as [ip|] eqn:Hip;
    [|stop_early].
  destruct (truthy ip); [|stop_early]. simpl.
  destruct (get_option_id (options_details trig) "Sent") as [sent|] eqn:Hsent;
    [|stop_early].
  destruct (truthy sent); [|stop_early]. simpl.
  assert (Hres : resolves env cfg w src f rf q ip sent) by (by exists tbl, trig).
  pose proof (ex_intro _ src (ex_intro _ tbl (ex_intro _ tob (ex_intro _
                (VStr f :: rf :: map VStr fieldsl)
                (conj Hsrc (conj Htbl (conj Htob eq_refl))))))
              : fetched_by env cfg w f q _) as Hfetch.
  assert (Hstop : forall (rw : result unit * World) tid flt,
    rw.2 = emit (EvGetRows tid flt) (emit (EvGetTable src) w) ->
    exists delta,
      trace rw.2 = trace w ++ delta /\
      (delta = []
       \/ reads_schema_only cfg delta
       \/ exists src f rf q ip sent url rows tid flt ds,
            resolves env cfg w src f rf q ip sent /\
            fetched_by env cfg w f q rows /\
            delta = EvGetTable src :: EvGetRows tid flt :: ds /\
            (ds = [] \/ rows_run f ip sent url rf rows rw.1 ds))).
  { intros rw tid flt ->. simpl. rewrite <- app_assoc. simpl.
    eexists. split; [reflexivity|]. right; right.
    eexists src, f, rf, q, ip, sent, VNone, _, tid, flt, [].
    split; [done|]. split; [exact Hfetch|]. split; [done|]. by left. }
  destruct (env_get_rows_ok env _); [|by eapply Hstop].
  destruct (template_url_of cfg) as [url|] eqn:Hurl; [|by eapply Hstop].
  destruct (truthy url); [|by eapply Hstop]. simpl.
  match goal with
  | |- context [for_each ?rows ?body ?w1] =>
      destruct (for_each_rows_run cfg tok f rf cc ip sent url rows w1)
        as (ds & Ht & Hr)
  end.
  simpl in Ht. rewrite <- !app_assoc in Ht. simpl in Ht.
  eexists. split; [exact Ht|]. right; right.
  eexists src, f, rf, q, ip, sent, url, _, _, _, ds.
  split; [done|]. split; [exact Hfetch|]. split; [done|]. right. exact Hr.
Qed.


(** ** What the traces say about writes *)

(** Every write of a per-row transition is to that row's trigger field, of
    the In Progress or the Sent identifier. *)
Lemma row_run_updates t i f ip sent url rc r d :
  row_run t i f ip sent url rc r d ->
  forall t' i' f' v ok, In (EvUpdate t' i' f' v ok) d ->
    t' = t /\ i' = i /\ f' = f /\ (v = ip \/ v = sent).
Proof.
  intros H t' i' f' v ok Hin.
  inversion H; subst; simpl in Hin; intuition (simplify_eq; auto).
Qed.

(** A row with an accepted write has an accepted claim. *)
Lemma row_run_written_claimed t i f ip sent url rc r d :
  row_run t i f ip sent url rc r d ->
  forall t' i' f' v, In (EvUpdate t' i' f' v true) d ->
    In (EvUpdate t' i' f ip true) d.
Proof.
  intros H t' i' f' v Hin.
  inversion H; subst; simpl in *; intuition (simplify_eq; auto).
Qed.


Lemma rows_run_updates f ip sent url rf rows r ds :
  rows_run f ip sent url rf rows r ds ->
  forall t i f' v ok, In (EvUpdate t i f' v ok) ds ->
    f' = f /\ (v = ip \/ v = sent).
Proof.
  induction 1 as [|row rows d r ds Hd _ IH|row rows e d Hd];
    intros t i f' v ok Hin.
  - done.
  - apply in_app_or in Hin as [Hin|Hin]; [|by eapply IH].
    by destruct (row_run_updates _ _ _ _ _ _ _ _ _ Hd _ _ _ _ _ Hin) as (_ & _ & ? & ?).
  - by destruct (row_run_updates _ _ _ _ _ _ _ _ _ Hd _ _ _ _ _ Hin) as (_ & _ & ? & ?).
Qed.

Lemma rows_run_rows f ip sent url rf rows r ds :
  rows_run f ip sent url rf rows r ds ->
  forall t i f' v ok, In (EvUpdate t i f' v ok) ds ->
    exists row, In row rows /\ row_table row = t /\ row_id row = i.
Proof.
  induction 1 as [|row rows d r ds Hd _ IH|row rows e d Hd];
    intros t i f' v ok Hin.
  - done.
  - apply in_app_or in Hin as [Hin|Hin].
    + destruct (row_run_updates _ _ _ _ _ _ _ _ _ Hd _ _ _ _ _ Hin) as (-> & -> & _).
      exists row. split; [by left | done].
    + destruct (IH _ _ _ _ _ Hin) as (row' & Hin' & Heq).
      exists row'. split; [by right | done].
  - destruct (row_run_updates _ _ _ _ _ _ _ _ _ Hd _ _ _ _ _ Hin) as (-> & -> & _).
    exists row. split; [by left | done].
Qed.

Lemma rows_run_written_claimed f ip sent url rf rows r ds :
  rows_run f ip sent url rf rows r ds ->
  forall t i f' v, In (EvUpdate t i f' v true) ds ->
    In (EvUpdate t i f ip true) ds.
Proof.
  induction 1 as [|row rows d r ds Hd _ IH|row rows e d Hd]; intros t i f' v Hin.
  - done.
  - apply in_or_app. apply in_app_or in Hin as [Hin|Hin].
    + left. by eapply row_run_written_claimed.
    + right. by eapply IH.
  - by eapply row_run_written_claimed.
Qed.


Lemma existsb_writes_row t i delta :
  existsb (writes_row t i) delta = true <->
  exists f v, In (EvUpdate t i f v true) delta.
Proof.
  rewrite existsb_exists. split.
  - intros (e & Hin & He).
    destruct e as [| | |t' i' f v [|]| |]; simpl in He; try done.
    apply andb_prop in He as [->%Z.eqb_eq ->%Z.eqb_eq]. eauto.
  - intros (f & v & Hin). eexists. split; [done|]. simpl.
    by rewrite !Z.eqb_refl.
Qed.

Lemma sound_rows cfg tok tf rf cc ip sent url rows :
  sound (for_each rows (process_row env cfg tok tf rf cc ip sent url)).
Proof. apply sound_for_each. intros row. apply sound_process_row. Qed.



(** ** Option resolution *)

Lemma get_option_id_truthy options label v :
  get_option_id options label = Ok v -> truthy v = true.
Proof.
  unfold get_option_id, mbind, result_bind.
  destruct (build_options_index options []) as [index|]; [|done].
  destruct (if truthy (dict_get_default index label VNone) then _ else _)
    as [option_id|]; [|done].
  destruct (truthy option_id) eqn:E; simpl; [|done]. by intros [= <-].
Qed.

Lemma build_options_index_missing options label :
  has_option options label = false ->
  forall idx index,
    build_options_index options idx = Ok index ->
    dict_get index label = dict_get idx label.
Proof.
  induction options as [|option rest IH]; simpl; intros Hno idx index.
  - by intros [= <-].
  - apply orb_false_elim in Hno as [Hhd Hrest].
    unfold getitem, mbind, result_bind.
    destruct (dict_get option "value") as [[| | |s| |]|]; try done;
      try (by apply IH).
    intros Hb. rewrite (IH Hrest _ _ Hb). apply dict_get_set_ne.
    intros ->. by rewrite String.eqb_refl in Hhd.
Qed.

(** A label that no option carries is not resolved: the lookup raises. *)
Lemma get_option_id_missing options label :
  has_option options label = false ->
  forall v, get_option_id options label <> Ok v.
Proof.
  intros Hno v. unfold get_option_id, mbind, result_bind.
  destruct (build_options_index options []) as [index|] eqn:Hb; [|done].
  unfold dict_get_default.
  by rewrite (build_options_index_missing _ _ Hno _ _ Hb).
Qed.

Lemma resolves_functional cfg w src f rf q ip sent src' f' rf' q' ip' sent' :
  resolves env cfg w src f rf q ip sent ->
  resolves env cfg w src' f' rf' q' ip' sent' ->
  src' = src /\ f' = f /\ rf' = rf /\ q' = q /\ ip' = ip /\ sent' = sent.
Proof.
  intros (tbl & trig & H1 & H2 & H3 & H4 & H5 & H6 & H7 & H8)
         (tbl' & trig' & H1' & H2' & H3' & H4' & H5' & H6' & H7' & H8').
  assert (src' = src) as -> by congruence.
  assert (f' = f) as -> by congruence.
  assert (tbl' = tbl) as -> by congruence.
  assert (trig' = trig) as -> by congruence.
  repeat split; congruence.
Qed.

Lemma replay_no_update delta st :
  existsb is_update delta = false -> replay delta st = st.
Proof.
  revert st. induction delta as [|e delta IH]; intros st; simpl; [done|].
  intros [He Hd]%orb_false_elim. fold (replay delta (apply_event e st)).
  rewrite IH by done. by destruct e.
Qed.

(** C4. When the trigger field of the configuration's source table lacks an
    option labelled "Queued", "In Progress" or "Sent", one run on that
    configuration makes no call beyond reading the table's schema: no row
    is queried, no row is written, and the store is as it was. *)
Theorem missing_option_touches_no_row cfg tok w src tf tbl trig label :
  getitem cfg "Source Table ID" = Ok src ->
  getitem cfg "Email Trigger Field" = Ok tf ->
  env_get_table env (now w) src = Some tbl ->
  table_field tbl tf = Ok trig ->
  In label ["Queued"; "In Progress"; "Sent"] ->
  has_option (options_details trig) label = false ->
  let w' := (process_emailer_config env cfg tok w).2 in
  let delta := new_events w w' in
  (delta = [] \/ delta = [EvGetTable src]) /\ store w' = store w.
Proof.
  intros Hsrc Htf Htbl Htrig Hlabel Hno w' delta.
  destruct (config_run cfg tok w) as (ds & Ht & Hcases).
  destruct (sound_process_emailer_config cfg tok w) as (ds' & Ht' & Hs).
  assert (delta = ds) as Hd by (by apply new_events_app).
  assert (ds' = ds) as -> by (rewrite Ht in Ht'; by apply app_inv_head in Ht').
  fold w' in Hs. rewrite Hd, Hs. clear Hd delta Ht Ht' Hs.
  destruct Hcases as [->|[(src' & Hsrc' & ->)|Hloop]].
  - split; [by left | done].
  - split; [right; congruence | done].
  - destruct Hloop as (src' & f & rf & q & ip & sent & url & rows & tid & flt
                       & ds0 & Hres & _).
    destruct Hres as (tbl' & trig' & H1 & H2 & H3 & H4 & H5 & H6 & H7 & H8).
    assert (src' = src) as -> by congruence.
    assert (tf = VStr f) as -> by congruence.
    assert (tbl' = tbl) as -> by congruence.
    assert (trig' = trig) as -> by congruence.
    pose proof (get_option_id_missing _ _ Hno) as Hraise.
    simpl in Hlabel. destruct Hlabel as [<-|[<-|[<-|[]]]]; by edestruct Hraise.
Qed.

(** ** The rows that the query returns *)

Lemma select_rows_in t inc fs ft st row :
  In row (select_rows t inc fs ft st) ->
  exists cells,
    st !! (row_table row, row_id row) = Some cells /\
    selects (table_id t) fs ft (row_table row, row_id row, cells) = true.
Proof.
  unfold select_rows. intros (e & <- & Hin)%in_map_iff.
  apply filter_In in Hin as [Hin Hsel]. destruct e as [[t' i'] cells]. simpl.
  exists cells. split; [|done].
  apply elem_of_map_to_list, list_elem_of_In. exact Hin.
Qed.

(** A fetched row was Queued or blank when the run began. *)
Lemma fetched_was_queued_or_blank cfg w f q rows row :
  fetched_by env cfg w f q rows ->
  In row rows ->
  exists cells,
    store w !! (row_table row, row_id row) = Some cells /\
    (cell cells (VStr f) = q \/ cell cells (VStr f) = VNone).
Proof.
  intros (src & tbl & tob & include & _ & _ & _ & ->) Hin.
  apply select_rows_in in Hin as (cells & Hl & Hsel).
  exists cells. split; [done|].
  unfold selects in Hsel. apply andb_prop in Hsel as [_ Hsel]. simpl in Hsel.
  apply orb_prop in Hsel as [Hq|Hblank].
  - left. unfold filter_matches in Hq. simpl in Hq. by apply value_eqb_eq.
  - right. destruct (truthy tob); [|done]. simpl in Hblank.
    rewrite orb_false_r in Hblank. unfold filter_matches in Hblank.
    simpl in Hblank. by destruct (cell cells (VStr f)).
Qed.

(** Let the configuration resolve to trigger field [f] and the identifiers
    [q] (Queued), [ip] (In Progress) and [sent] (Sent). A row that the run
    writes to is a fetched row: it was Queued or blank. A row whose claim
    write the store accepted during the run ends with its trigger field at
    [ip] or at [sent], which are not blank. A row without an accepted claim
    write is unchanged in the store. *)
Lemma run_end_states cfg tok w src f rf q ip sent t i :
  resolves env cfg w src f rf q ip sent ->
  let w' := (process_emailer_config env cfg tok w).2 in
  let delta := new_events w w' in
  (forall v ok, In (EvUpdate t i f v ok) delta ->
     exists cells,
       store w !! (t, i) = Some cells /\
       (cell cells (VStr f) = q \/ cell cells (VStr f) = VNone)) /\
  (In (EvUpdate t i f ip true) delta ->
     exists cells v,
       store w' !! (t, i) = Some cells /\ dict_get cells f = Some v /\
       (v = ip \/ v = sent) /\ truthy v = true) /\
  (~ In (EvUpdate t i f ip true) delta ->
     store w' !! (t, i) = store w !! (t, i)).
Proof.
  intros Hres w' delta.
  destruct (config_run cfg tok w) as (ds & Ht & Hcases).
  destruct (sound_process_emailer_config cfg tok w) as (ds' & Ht' & Hs).
  assert (delta = ds) as Hd by (by apply new_events_app).
  assert (ds' = ds) as -> by (rewrite Ht in Ht'; by apply app_inv_head in Ht').
  fold w' in Hs. rewrite Hd, Hs. clear Hd delta Ht Ht' Hs.
  assert (Hquiet : existsb is_update ds = false ->
    (forall v ok, In (EvUpdate t i f v ok) ds ->
       exists cells,
         store w !! (t, i) = Some cells /\
         (cell cells (VStr f) = q \/ cell cells (VStr f) = VNone)) /\
    (In (EvUpdate t i f ip true) ds ->
       exists cells v,
         replay ds (store w) !! (t, i) = Some cells /\ dict_get cells f = Some v /\
         (v = ip \/ v = sent) /\ truthy v = true) /\
    (~ In (EvUpdate t i f ip true) ds ->
       replay ds (store w) !! (t, i) = store w !! (t, i))).
  { intros Hq.
    assert (Hnone : forall v ok, ~ In (EvUpdate t i f v ok) ds).
    { intros v ok Hin. assert (existsb is_update ds = true); [|congruence].
      apply existsb_exists. by eexists. }
    split; [|split].
    - intros v ok Hin. by destruct (Hnone v ok).
    - intros Hin. by destruct (Hnone ip true).
    - intros _. by rewrite replay_no_update. }
  destruct Hcases as [->|[(src' & _ & ->)|Hloop]]; [by apply Hquiet..|].
  destruct Hloop as (src' & f' & rf' & q' & ip' & sent' & url & rows & tid & flt
                     & ds0 & Hres' & Hfetch & -> & Hrows).
  destruct (resolves_functional _ _ _ _ _ _ _ _ _ _ _ _ _ _ Hres Hres')
    as (-> & -> & -> & -> & -> & ->).
  destruct Hrows as [->|Hrows]; [by apply Hquiet|].
  assert (Htruthy : forall v, v = ip \/ v = sent -> truthy v = true).
  { destruct Hres as (tbl & trig & _ & _ & _ & _ & _ & _ & Hip & Hsent).
    intros v [->| ->]; by eapply get_option_id_truthy. }
  assert (Hin_tail : forall e, is_update e = true ->
            In e (EvGetTable src :: EvGetRows tid flt :: ds0) -> In e ds0).
  { intros e He [<-|[<-|Hin]]; done. }
  split; [|split].
  - intros v ok Hin. apply Hin_tail in Hin; [|done].
    destruct (rows_run_rows _ _ _ _ _ _ _ _ Hrows _ _ _ _ _ Hin)
      as (row & Hrow & <- & <-).
    by eapply fetched_was_queued_or_blank.
  - intros Hclaim.
    destruct (replay_establishes (fun v => v = ip \/ v = sent) t i f
                (EvGetTable src :: EvGetRows tid flt :: ds0) (store w))
      as (cells & v & Hl & Hg & Hv); [| |by eauto 10].
    + intros f' v Hin. apply Hin_tail in Hin; [|done].
      by destruct (rows_run_updates _ _ _ _ _ _ _ _ Hrows _ _ _ _ _ Hin).
    + apply existsb_writes_row. eauto.
  - intros Hnot. apply replay_frame.
    destruct (existsb (writes_row t i) _) eqn:E; [|done].
    apply existsb_writes_row in E as (f' & v & Hin).
    destruct Hnot. right; right. apply Hin_tail in Hin; [|done].
    by eapply rows_run_written_claimed.
Qed.

(** ** Recipients *)

Lemma comma_delimited_to_list_falsy v :
  truthy v = false -> comma_delimited_to_list v = Ok [].
Proof. unfold comma_delimited_to_list. by intros ->. Qed.

Lemma comma_delimited_to_list_str s :
  s <> "" -> comma_delimited_to_list (VStr s) = Ok (map strip (split comma s)).
Proof.
  intros Hs. unfold comma_delimited_to_list. simpl.
  by destruct (String.eqb_spec s "").
Qed.

Lemma comma_delimited_to_list_empty v l :
  comma_delimited_to_list v = Ok l -> (l = [] <-> truthy v = false).
Proof.
  unfold comma_delimited_to_list. destruct (truthy v) eqn:E.
  - destruct v; try done. intros [= <-]. split; [|done].
    intros Hnil. apply (f_equal (@length string)) in Hnil.
    rewrite length_map, split_length in Hnil. done.
  - by intros [= <-].
Qed.

(** A row whose recipient list is empty is skipped: nothing is posted and
    nothing is written after the claim, which leaves the row at In Progress
    when the store accepted it. *)
Lemma empty_recipients_skip cfg tok f rf cc ip sent url row w :
  recipients_of row f ip rf = Ok [] ->
  let rw := process_row env cfg tok (VStr f) rf cc ip sent url row w in
  let delta := new_events w rw.2 in
  rw.1 = Ok tt /\
  (delta = [EvUpdate (row_table row) (row_id row) f ip false]
     /\ store rw.2 = store w
   \/ delta = [EvUpdate (row_table row) (row_id row) f ip true; EvHttpGet url]
     /\ exists cells,
          store rw.2 !! (row_table row, row_id row) = Some cells /\
          dict_get cells f = Some ip).
Proof.
  intros Hrc rw delta.
  destruct (process_row_run cfg tok f rf cc ip sent url row w) as (ds & Ht & Hr).
  destruct (sound_process_row cfg tok (VStr f) rf cc ip sent url row w)
    as (ds' & Ht' & Hs).
  assert (delta = ds) as Hd by (by apply new_events_app).
  assert (ds' = ds) as -> by (rewrite Ht in Ht'; by apply app_inv_head in Ht').
  fold rw in Hs, Hr. rewrite Hd, Hs. clear Hd delta Ht Ht' Hs.
  rewrite Hrc in Hr. inversion Hr as [| |e He|ep m st He Hne|ep m st ok He Hne];
    subst; try done.
  - split; [done|]. by left.
  - split; [done|]. right. split; [done|]. simpl.
    rewrite lookup_insert_eq. eexists. split; [done|]. apply dict_get_set_eq.
  - injection He as He. by destruct Hne.
  - injection He as He. by destruct Hne.
Qed.

(** C5, as the code has it. Parsing splits on commas and trims each entry;
    it keeps every entry, one per comma-separated segment, so an entry that
    is blank stays in the list as the empty string and the list is empty
    only for a falsy field value. Whenever the list is empty the row is
    skipped: no mail is posted and the row, once claimed, is left at In
    Progress. *)
Theorem recipients_split_and_trimmed :
  (forall s, s <> "" ->
     comma_delimited_to_list (VStr s) = Ok (map strip (split comma s))) /\
  (forall s, length (split comma s) = S (count_char comma s)) /\
  (forall s, trimmed (strip s) = true) /\
  (forall s, strip s = "" <-> all_space s = true) /\
  (forall v l, comma_delimited_to_list v = Ok l -> (l = [] <-> truthy v = false)) /\
  (forall cfg tok f rf cc ip sent url row w,
     recipients_of row f ip rf = Ok [] ->
     let rw := process_row env cfg tok (VStr f) rf cc ip sent url row w in
     let delta := new_events w rw.2 in
     rw.1 = Ok tt /\ existsb is_post delta = false /\
     (In (EvUpdate (row_table row) (row_id row) f ip true) delta ->
      exists cells,
        store rw.2 !! (row_table row, row_id row) = Some cells /\
        dict_get cells f = Some ip)).
Proof.
  split; [exact comma_delimited_to_list_str|].
  split; [exact (split_length comma)|].
  split; [exact strip_trimmed|].
  split; [exact strip_blank|].
  split; [exact comma_delimited_to_list_empty|].
  intros cfg tok f rf cc ip sent url row w Hrc rw delta.
  destruct (empty_recipients_skip cfg tok f rf cc ip sent url row w Hrc)
    as (Hok & [[Hd Hst]|[Hd Hst]]); fold rw in Hok, Hd, Hst; fold delta in Hd;
    rewrite Hd; (split; [done|]); (split; [done|]).
  - intros [[=]|[]].
  - by intros _.
Qed.

(** C9. The parser answers the empty list for every falsy value, the empty
    string as well as None; so a row whose recipient field holds either is
    skipped after the claim write: nothing is posted, Sent is not written,
    and the row, once claimed, is left at In Progress. *)
Theorem falsy_recipient_is_skipped :
  (forall v, truthy v = false -> comma_delimited_to_list v = Ok []) /\
  comma_delimited_to_list (VStr "") = comma_delimited_to_list VNone /\
  (forall cfg tok f r cc ip sent url row w v,
     r <> f ->
     dict_get (values row) r = Some v ->
     truthy v = false ->
     let rw := process_row env cfg tok (VStr f) (VStr r) cc ip sent url row w in
     let delta := new_events w rw.2 in
     rw.1 = Ok tt /\
     (delta = [EvUpdate (row_table row) (row_id row) f ip false]
      \/ delta = [EvUpdate (row_table row) (row_id row) f ip true; EvHttpGet url]
         /\ exists cells,
              store rw.2 !! (row_table row, row_id row) = Some cells /\
              dict_get cells f = Some ip)).
Proof.
  split; [exact comma_delimited_to_list_falsy|]. split; [done|].
  intros cfg tok f r cc ip sent url row w v Hne Hget Hv rw delta.
  assert (Hrc : recipients_of row f ip (VStr r) = Ok []).
  { unfold recipients_of, row_getitem, getitem. simpl.
    rewrite dict_get_set_ne by done. rewrite Hget. simpl.
    by apply comma_delimited_to_list_falsy. }
  destruct (empty_recipients_skip cfg tok f (VStr r) cc ip sent url row w Hrc)
    as (Hok & [[Hd Hst]|[Hd Hst]]); fold rw in Hok, Hd, Hst; fold delta in Hd.
  - split; [done|]. by left.
  - split; [done|]. by right.
Qed.

(** ** The mail sender *)

(** [send_email] raises exactly for a failed request and for the statuses
    400 to 599; every other status makes it return. *)
Lemma send_email_result tok subj rcpt body from cc w :
  sliceable subj = true ->
  (send_email env tok subj rcpt body from cc w).1
  = if send_returns (env_http_post env (now w)) then Ok tt else Raise SendFailed.
Proof.
  intros Hs. unfold send_email, send_returns, raise_for_status. rewrite Hs. simpl.
  destruct (env_http_post env (now w)) as [code|]; [|done].
  destruct (code =? 202)%Z; [done|]. simpl.
  by destruct ((400 <=? code)%Z && (code <? 600)%Z).
Qed.

(** ** The configuration loader *)

Lemma dict_set_fresh d k v :
  existsb (String.eqb k) (keys d) = false -> dict_set d k v = d ++ [(k, v)].
Proof.
  induction d as [|[k' v'] d IH]; simpl; [done|].
  intros [Hk Hd]%orb_false_elim. rewrite String.eqb_sym in Hk. rewrite Hk.
  by rewrite IH.
Qed.

Lemma collapse_items_ok items acc :
  has_empty_list items = false ->
  unique_keys items = true ->
  forallb (fun k => negb (existsb (String.eqb k) (keys acc))) (keys items) = true ->
  collapse_items items acc = Ok (acc ++ collapse_dict items).
Proof.
  revert acc. induction items as [|[k v] items IH]; intros acc; simpl.
  - by rewrite app_nil_r.
  - intros [Hv Hrest]%orb_false_elim [Hk Hu]%andb_prop [Hfresh Hdisj]%andb_prop.
    apply negb_true_iff in Hk, Hfresh.
    assert (Hstep : forall x,
      collapse_items items (dict_set acc k x) = Ok (acc ++ (k, x) :: collapse_dict items)).
    { intros x. rewrite dict_set_fresh by done. rewrite IH; [|done..|].
      - by rewrite <- app_assoc.
      - unfold keys in *. rewrite forallb_forall in Hdisj |- *. intros k' Hin.
        rewrite map_app, existsb_app. simpl. rewrite orb_false_r.
        rewrite (proj1 (negb_true_iff _) (Hdisj k' Hin)). simpl.
        apply negb_true_iff. destruct (String.eqb_spec k' k) as [->|]; [|done].
        assert (existsb (String.eqb k) (map fst items) = true); [|congruence].
        apply existsb_exists. exists k. by rewrite String.eqb_refl. }
    destruct v as [| | | |[|first l]|]; simpl in *; try done; apply Hstep.
Qed.

Lemma collapse_items_empty_list items acc :
  has_empty_list items = true ->
  exists msg, collapse_items items acc = Raise (ValueError msg).
Proof.
  revert acc. induction items as [|[k v] items IH]; intros acc; simpl; [done|].
  intros H. destruct v as [| | | |[|first l]|]; simpl in *; eauto.
Qed.

Lemma collapse_rows_ok rows acc :
  existsb (fun r => has_empty_list (values r)) rows = false ->
  forallb (fun r => unique_keys (values r)) rows = true ->
  collapse_rows rows acc = Ok (acc ++ map (fun r => collapse_dict (values r)) rows).
Proof.
  revert acc. induction rows as [|row rows IH]; intros acc; simpl.
  - by rewrite app_nil_r.
  - intros [Hv Hrest]%orb_false_elim [Hu Hus]%andb_prop.
    unfold to_dict. rewrite collapse_items_ok; [|done..|].
    + simpl. rewrite IH by done. by rewrite <- app_assoc.
    + simpl. apply forallb_forall. done.
Qed.

Lemma collapse_items_total items acc :
  has_empty_list items = false -> exists d, collapse_items items acc = Ok d.
Proof.
  revert acc. induction items as [|[k v] items IH]; intros acc; simpl; [by eauto|].
  intros [Hv Hrest]%orb_false_elim.
  destruct v as [| | | |[|first l]|]; simpl in *; try done; by apply IH.
Qed.

Lemma collapse_rows_empty_list rows acc :
  existsb (fun r => has_empty_list (values r)) rows = true ->
  exists msg, collapse_rows rows acc = Raise (ValueError msg).
Proof.
  revert acc. induction rows as [|row rows IH]; intros acc; simpl; [done|].
  unfold to_dict, mbind, result_bind.
  destruct (has_empty_list (values row)) eqn:E; simpl.
  - intros _. destruct (collapse_items_empty_list _ [] E) as [msg ->]. eauto.
  - intros H. destruct (collapse_items_total _ [] E) as [d ->]. by apply IH.
Qed.

Lemma now_emit e w : now (emit e w) = S (now w).
Proof. unfold now, emit. simpl. rewrite length_app. simpl. lia. Qed.

(** C7. When the store answers, the loader returns the empty list for no
    active record; it raises when a field of an active record holds an
    empty list; and otherwise it returns one record per active record, in
    which a field holding a list holds the list's first element and every
    other field holds its value unchanged. *)
Theorem active_configurations_collapsed id w tbl :
  env_get_table env (now w) id = Some tbl ->
  env_get_rows_ok env (S (now w)) = true ->
  let rows := active_rows tbl (store w) in
  let res := (get_active_configurations env id w).1 in
  (rows = [] -> res = Ok []) /\
  (existsb (fun r => has_empty_list (values r)) rows = true ->
     exists msg, res = Raise (ValueError msg)) /\
  (existsb (fun r => has_empty_list (values r)) rows = false ->
   forallb (fun r => unique_keys (values r)) rows = true ->
     res = Ok (map (fun r => collapse_dict (values r)) rows)).
Proof.
  intros Htbl Hrows rows res.
  assert (Hres : res = match rows with
                       | [] => Ok []
                       | _ => collapse_rows rows []
                       end).
  { subst res. unfold get_active_configurations, get_table, get_rows, lift.
    unfold mbind, M_bind. rewrite Htbl. rewrite now_emit, Hrows. simpl.
    fold (active_rows tbl (store w)). fold rows. by destruct rows. }
  rewrite Hres. split; [by intros ->|]. split.
  - intros Hex. destruct rows as [|r rows']; [done|].
    by apply collapse_rows_empty_list.
  - intros Hno Hu. destruct rows as [|r rows']; [done|].
    by rewrite collapse_rows_ok.
Qed.

(** ** The runner *)

Lemma process_all_ok cfgs tok w : (process_all env cfgs tok w).1 = Ok tt.
Proof.
  unfold process_all. revert w. induction cfgs as [|c cfgs IH]; intros w; simpl.
  - done.
  - unfold mbind, M_bind, try_except.
    destruct (process_emailer_config env c tok w) as [[[]|e] w1]; apply IH.
Qed.

Lemma process_all_app pre post tok w :
  process_all env (pre ++ post) tok w
  = process_all env post tok (process_all env pre tok w).2.
Proof.
  unfold process_all. revert w. induction pre as [|c pre IH]; intros w; simpl.
  - done.
  - unfold mbind, M_bind, try_except.
    destruct (process_emailer_config env c tok w) as [[[]|e] w1]; apply IH.
Qed.

Lemma process_all_in_turn cfgs tok w :
  process_all env cfgs tok w = (Ok tt, processed_in_turn env cfgs tok w).
Proof.
  unfold process_all, processed_in_turn. revert w.
  induction cfgs as [|c cfgs IH]; intros w; simpl.
  - done.
  - unfold mbind, M_bind, try_except.
    destruct (process_emailer_config env c tok w) as [[[]|e] w1]; apply IH.
Qed.

Lemma processed_in_turn_trace cfgs tok w :
  exists delta, trace (processed_in_turn env cfgs tok w) = trace w ++ delta.
Proof.
  unfold processed_in_turn. revert w.
  induction cfgs as [|c cfgs IH]; intros w; simpl.
  - exists []. by rewrite app_nil_r.
  - destruct (IH (process_emailer_config env c tok w).2) as (ds & Hds).
    destruct (sound_process_emailer_config c tok w) as (d & Hd & _).
    exists (d ++ ds). by rewrite Hds, Hd, app_assoc.
Qed.

(** C8. In the runner's loop an exception raised while configuration [cfg]
    is processed is caught: the next configuration is processed from the
    world that the failed one left, then all later ones in turn, and the
    loop itself does not raise. The calls of the runner are those made up to
    the failure, then those of the run on the next configuration, then
    those of the runs on the later ones. *)
Theorem runner_isolates_configurations pre cfg next rest tok w e :
  let failed := process_emailer_config env cfg tok (processed_in_turn env pre tok w) in
  let after := process_emailer_config env next tok failed.2 in
  let all := process_all env (pre ++ cfg :: next :: rest) tok w in
  failed.1 = Raise e ->
  all.1 = Ok tt /\
  all.2 = processed_in_turn env rest tok after.2 /\
  new_events w all.2
  = new_events w failed.2 ++ new_events failed.2 after.2
      ++ new_events after.2 all.2.
Proof.
  intros failed after all _. subst all. rewrite process_all_in_turn. simpl.
  assert (Hall : processed_in_turn env (pre ++ cfg :: next :: rest) tok w
                 = processed_in_turn env rest tok after.2).
  { unfold processed_in_turn. by rewrite fold_left_app. }
  split; [done|]. split; [done|]. rewrite Hall.
  destruct (processed_in_turn_trace pre tok w) as (d0 & H0).
  destruct (sound_process_emailer_config cfg tok (processed_in_turn env pre tok w))
    as (d1 & H1 & _). fold failed in H1.
  destruct (sound_process_emailer_config next tok failed.2) as (d2 & H2 & _).
  fold after in H2.
  destruct (processed_in_turn_trace rest tok after.2) as (d3 & H3).
  rewrite (new_events_app w failed.2 (d0 ++ d1))
    by (by rewrite H1, H0, app_assoc).
  rewrite (new_events_app failed.2 after.2 d2) by done.
  rewrite (new_events_app after.2 _ d3) by done.
  apply new_events_app. rewrite H3, H2, H1, H0. by rewrite <- !app_assoc.
Qed.

(** ** The template variables *)

(** C10. Every space of a variable name becomes an underscore, wherever it
    stands, so the renamed name has no space; in the mapping handed to the
    renderer a name holds the value of the last variable renamed to it, so
    of two field names that differ only in spaces versus underscores the
    later one's value replaces the earlier one's. *)
Theorem spaces_become_underscores :
  (forall key n,
     String.get n (rename_key key) = option_map rename_char (String.get n key)) /\
  (forall key, count_char space (rename_key key) = 0%nat) /\
  (forall vars k,
     dict_get (rename_keys vars) k
     = dict_get (rev (map (fun kv => (rename_key (fst kv), snd kv)) vars)) k) /\
  (forall v1 v2, rename_keys [("a b", v1); ("a_b", v2)] = [("a_b", v2)]) /\
  (forall v1 v2, rename_keys [(" a ", v1); ("_a_", v2)] = [("_a_", v2)]) /\
  (forall vars url w status text,
     env_http_get env (now w) url = Some (status, text) ->
     raise_for_status status = Ok tt ->
     env_jinja_parse env text = true ->
     (create_email_message env vars url w).1
     = env_jinja_render env text (rename_keys vars)).
Proof.
  split; [exact rename_key_get|]. split; [exact rename_key_no_space|].
  split; [exact rename_keys_last|]. split; [done|]. split; [done|].
  intros vars url w status text Hget Hstatus Hparse.
  unfold create_email_message, fetch_template, validate_jinja2_template, lift.
  unfold mbind, M_bind. rewrite Hget, Hstatus, Hparse. simpl.
  by destruct (env_jinja_render env text (rename_keys vars)).
Qed.

(** ** The environment check of the runner *)

(** With all six variables unset or empty, [main] raises before any call. *)
Lemma main_all_absent getenv w :
  existsb (is_set getenv) required_names = false ->
  main env getenv w = (Raise (ValueError "Missing environment variables"), w).
Proof.
  unfold main, required_names, is_set. simpl. by intros ->.
Qed.

Lemma sound_get_active_configurations id :
  sound (get_active_configurations env id).
Proof. unfold get_active_configurations. repeat sound_step. Qed.

Lemma sound_process_all cfgs tok : sound (process_all env cfgs tok).
Proof.
  unfold process_all. repeat sound_step. apply sound_process_emailer_config.
Qed.

(** With any one of them set, [main] passes the check and authenticates
    with whatever client and tenant identifiers it read. *)
Lemma main_some_present getenv w :
  existsb (is_set getenv) required_names = true ->
  exists rest,
    new_events w (main env getenv w).2
    = EvAuthenticate (getenv "CLIENT_ID") (getenv "TENANT_ID") :: rest.
Proof.
  unfold main, required_names, is_set. simpl. intros ->. simpl.
  unfold mbind at 1. unfold M_bind at 1. unfold authenticate.
  destruct (env_token env (now w)) as [token|].
  - match goal with
    | |- context [(?k ≫= ?g) (emit ?e w)] =>
        destruct (sound_bind k g (sound_get_active_configurations _)
                    (fun cfgs => sound_process_all cfgs token) (emit e w))
          as (d & Ht & _)
    end.
    exists d. apply new_events_app. rewrite Ht. simpl. by rewrite <- app_assoc.
  - exists []. by apply new_events_app.
Qed.

(** C6. When the required environment configuration is missing, that is,
    when each of the six variables is unset or empty, [main] raises its
    fatal error before any call: nothing is authenticated and no
    configuration is read or processed. The check is for all six being
    absent: as soon as one of them is set it passes, and [main] goes on to
    authenticate. *)
Theorem main_aborts_when_environment_is_missing getenv w :
  ((forall name, In name required_names ->
      getenv name = None \/ getenv name = Some "") ->
   main env getenv w = (Raise (ValueError "Missing environment variables"), w) /\
   new_events w (main env getenv w).2 = []) /\
  (forall name value,
     In name required_names -> getenv name = Some value -> value <> "" ->
     exists rest,
       new_events w (main env getenv w).2
       = EvAuthenticate (getenv "CLIENT_ID") (getenv "TENANT_ID") :: rest).
Proof.
  split.
  - intros Habsent.
    assert (existsb (is_set getenv) required_names = false) as Hnone.
    { destruct (existsb (is_set getenv) required_names) eqn:E; [|done].
      apply existsb_exists in E as (name & Hin & Hset). unfold is_set in Hset.
      by destruct (Habsent name Hin) as [Hn|Hn]; rewrite Hn in Hset. }
    rewrite (main_all_absent _ _ Hnone). split; [done|].
    apply new_events_app. simpl. by rewrite app_nil_r.
  - intros name value Hin Hget Hvalue. apply main_some_present.
    apply existsb_exists. exists name. split; [done|].
    unfold is_set. rewrite Hget. simpl. by destruct value.
Qed.

End Pipeline.

(** * Further properties of the code *)

(** ** build_index *)

Lemma key_eqb_sym a b : key_eqb a b = key_eqb b a.
Proof.
  destruct a, b; simpl; try done; try apply String.eqb_sym; apply Z.eqb_sym.
Qed.

Lemma key_eqb_trans a b c :
  key_eqb a b = true -> key_eqb b c = true -> key_eqb a c = true.
Proof.
  destruct a, b, c; simpl; try done;
    rewrite ?Z.eqb_eq, ?String.eqb_eq; congruence.
Qed.

Lemma key_eqb_refl a : hashable a = true -> key_eqb a a = true.
Proof.
  destruct a; simpl; try done; intros _;
    [apply Z.eqb_refl | apply Z.eqb_refl | apply String.eqb_refl].
Qed.

(** Two equal keys find the same entry. *)
Lemma key_eqb_cong a b c :
  key_eqb a b = true -> key_eqb c a = key_eqb c b.
Proof.
  intros Hab. destruct (key_eqb c b) eqn:Hcb.
  - apply key_eqb_trans with b; [done|]. by rewrite key_eqb_sym.
  - destruct (key_eqb c a) eqn:Hca; [|done].
    by rewrite (key_eqb_trans c a b Hca Hab) in Hcb.
Qed.

Lemma index_get_set_eq index k k' row :
  key_eqb k k' = true -> index_get (index_set index k row) k' = Some row.
Proof.
  intros Hk. induction index as [|[k0 r0] index IH]; simpl.
  - by rewrite Hk.
  - destruct (key_eqb k0 k) eqn:E; simpl.
    + by rewrite (key_eqb_trans _ _ _ E Hk).
    + rewrite <- (key_eqb_cong k k' k0 Hk), E. apply IH.
Qed.

Lemma index_get_set_ne index k k' row :
  key_eqb k k' = false -> index_get (index_set index k row) k' = index_get index k'.
Proof.
  intros Hk. induction index as [|[k0 r0] index IH]; simpl.
  - by rewrite Hk.
  - destruct (key_eqb k0 k) eqn:E; simpl.
    + destruct (key_eqb k0 k') eqn:E'; [|done].
      rewrite key_eqb_sym in E. by rewrite (key_eqb_trans _ _ _ E E') in Hk.
    + destruct (key_eqb k0 k'); [done|]. apply IH.
Qed.

Lemma find_app_first {A} (p : A -> bool) l1 l2 :
  List.find p (l1 ++ l2)
  = match List.find p l1 with
    | Some x => Some x
    | None => List.find p l2
    end.
Proof. induction l1 as [|x l1 IH]; simpl; [done|]. by destruct (p x). Qed.

Lemma build_index_from_get rows name index0 index k :
  build_index_from rows name index0 = Ok index ->
  index_get index k
  = match List.find (indexed_under name k) (rev rows) with
    | Some row => Some row
    | None => index_get index0 k
    end.
Proof.
  revert index0. induction rows as [|row rows IH]; intros index0; simpl.
  - by intros [= <-].
  - destruct (dict_get row name) as [v|] eqn:Hv; [|done].
    destruct (invalid_index_value v); [done|].
    destruct (hashable v) eqn:Hh; [|done]. simpl.
    intros Hb. rewrite (IH _ Hb). rewrite find_app_first.
    destruct (List.find (indexed_under name k) (rev rows)); [done|]. simpl.
    unfold indexed_under. rewrite Hv.
    destruct (key_eqb v k) eqn:E.
    + by apply index_get_set_eq.
    + by apply index_get_set_ne.
Qed.

Lemma index_set_keys index k row :
  map fst (index_set index k row)
  = if existsb (fun k' => key_eqb k' k) (map fst index) then map fst index
    else map fst index ++ [k].
Proof.
  induction index as [|[k0 r0] index IH]; simpl; [done|].
  destruct (key_eqb k0 k) eqn:E; simpl; [done|].
  rewrite IH. by destruct (existsb _ (map fst index)).
Qed.

Lemma distinct_keys_snoc ks k :
  distinct_keys ks = true ->
  existsb (fun k' => key_eqb k' k) ks = false ->
  distinct_keys (ks ++ [k]) = true.
Proof.
  induction ks as [|k0 ks IH]; simpl; [done|].
  intros [Hk0 Hks]%andb_prop [Hne Hrest]%orb_false_elim.
  rewrite existsb_app. simpl. rewrite Hne, orb_false_r, Hk0. simpl. by apply IH.
Qed.

Lemma index_set_distinct index k row :
  distinct_keys (map fst index) = true ->
  distinct_keys (map fst (index_set index k row)) = true.
Proof.
  intros Hd. rewrite index_set_keys.
  destruct (existsb _ (map fst index)) eqn:E; [done|]. by apply distinct_keys_snoc.
Qed.

Lemma index_set_entries index k row k' row' :
  hashable k = true ->
  In (k', row') (index_set index k row) ->
  In (k', row') index \/ (row' = row /\ key_eqb k' k = true).
Proof.
  intros Hh. induction index as [|[k0 r0] index IH]; simpl.
  - intros [[= <- <-]|[]]. right. split; [done|]. by apply key_eqb_refl.
  - destruct (key_eqb k0 k) eqn:E; simpl.
    + intros [[= <- <-]|Hin]; [by right | by left; right].
    + intros [Hin|Hin]; [by left; left|].
      destruct (IH Hin) as [?|?]; [by left; right | by right].
Qed.

Lemma index_set_length index k row :
  (length (index_set index k row) <= S (length index))%nat.
Proof.
  induction index as [|[k0 r0] index IH]; simpl; [lia|].
  destruct (key_eqb k0 k); simpl; lia.
Qed.

Lemma build_index_from_entries rows name index0 index :
  build_index_from rows name index0 = Ok index ->
  distinct_keys (map fst index0) = true ->
  (length index <= length index0 + length rows)%nat /\
  distinct_keys (map fst index) = true /\
  (forall k row, In (k, row) index ->
     In (k, row) index0 \/ (In row rows /\ indexed_under name k row = true)).
Proof.
  revert index0. induction rows as [|row rows IH]; intros index0; simpl.
  - intros [= <-] Hd. split; [lia|]. split; [done|]. by left.
  - destruct (dict_get row name) as [v|] eqn:Hv; [|done].
    destruct (invalid_index_value v); [done|].
    destruct (hashable v) eqn:Hh; [|done]. simpl.
    intros Hb Hd.
    destruct (IH _ Hb (index_set_distinct _ v row Hd)) as (Hlen & Hdist & Hent).
    pose proof (index_set_length index0 v row).
    split; [lia|]. split; [done|].
    intros k r Hin. destruct (Hent k r Hin) as [Hset|[Hr Hu]].
    + destruct (index_set_entries _ _ _ _ _ Hh Hset) as [?|[-> Hk]]; [by left|].
      right. split; [by left|]. unfold indexed_under. rewrite Hv.
      by rewrite key_eqb_sym.
    + right. split; [by right | done].
Qed.

Lemma build_index_from_app pre rest name index0 :
  build_index_from (pre ++ rest) name index0
  = match build_index_from pre name index0 with
    | Ok index => build_index_from rest name index
    | Raise e => Raise e
    end.
Proof.
  revert index0. induction pre as [|row pre IH]; intros index0; simpl; [done|].
  destruct (dict_get row name) as [v|]; [|done].
  destruct (invalid_index_value v); [done|].
  destruct (hashable v); [|done]. simpl. apply IH.
Qed.

Lemma build_index_from_ok rows name index0 :
  is_ok (build_index_from rows name index0) = forallb (indexable name) rows.
Proof.
  revert index0. induction rows as [|row rows IH]; intros index0; simpl; [done|].
  unfold indexable at 1.
  destruct (dict_get row name) as [v|]; [|done].
  destruct (invalid_index_value v); [done|].
  destruct (hashable v); [|done]. simpl. apply IH.
Qed.

(** X1. The index answers a lookup with the last row of the input that
    files under the key, and with nothing when no row does: of two rows
    with equal index values the later one replaces the earlier. *)
Theorem build_index_last_row_wins rows name index k :
  build_index rows name = Ok index ->
  index_get index k = List.find (indexed_under name k) (rev rows).
Proof.
  intros Hb. rewrite (build_index_from_get _ _ _ _ k Hb).
  by destruct (List.find _ (rev rows)).
Qed.

(** X2. The index is built exactly when every row has the index field with
    a value that is not None, not a blank string and not a list or dict.
    Otherwise the first row that fails decides the exception: [KeyError]
    for a missing field, [ValueError] for None or a blank string,
    [TypeError] for a list or dict. *)
Theorem build_index_rejects_first_bad_row :
  (forall rows name,
     is_ok (build_index rows name) = forallb (indexable name) rows) /\
  (forall pre row rest name,
     forallb (indexable name) pre = true ->
     indexable name row = false ->
     build_index (pre ++ row :: rest) name
     = match dict_get row name with
       | None => Raise (KeyError ("The index field '" ++ name
                                  ++ "' is missing in a row."))
       | Some v =>
           if invalid_index_value v then Raise (ValueError "Invalid index value")
           else Raise TypeError
       end).
Proof.
  split; [intros rows name; apply build_index_from_ok|].
  intros pre row rest name Hpre Hrow. unfold build_index.
  rewrite build_index_from_app.
  pose proof (build_index_from_ok pre name []) as Hok. rewrite Hpre in Hok.
  destruct (build_index_from pre name []) as [index|]; [|done]. simpl.
  unfold indexable in Hrow.
  destruct (dict_get row name) as [v|]; [|done].
  destruct (invalid_index_value v); [done|]. simpl in Hrow. by rewrite Hrow.
Qed.

(** X3. An index that is built has no two equal keys and at most one entry
    per row, and every entry holds a row of the input under that row's own
    index value. *)
Theorem build_index_entries_are_rows rows name index :
  build_index rows name = Ok index ->
  (length index <= length rows)%nat /\
  distinct_keys (map fst index) = true /\
  (forall k row, In (k, row) index ->
     In row rows /\ indexed_under name k row = true).
Proof.
  intros Hb.
  destruct (build_index_from_entries _ _ _ _ Hb eq_refl) as (Hlen & Hd & Hent).
  split; [simpl in Hlen; lia|]. split; [done|].
  intros k row Hin. by destruct (Hent k row Hin) as [[]|?].
Qed.

(** ** get_option_id *)

Lemma build_options_index_last options label :
  forallb well_labelled options = true ->
  forall idx, exists index,
    build_options_index options idx = Ok index /\
    dict_get index label
    = match List.find (option_labelled label) (rev options) with
      | Some option => Some (VDict option)
      | None => dict_get idx label
      end.
Proof.
  induction options as [|option rest IH]; simpl; intros Hwf idx.
  - by exists idx.
  - apply andb_prop in Hwf as [Ho Hrest].
    unfold well_labelled in Ho. unfold getitem, mbind, result_bind.
    rewrite find_app_first. simpl. unfold option_labelled at 2.
    destruct (dict_get option "value") as [v|]; [|done].
    assert (Hskip : exists index,
      build_options_index rest idx = Ok index /\
      dict_get index label
      = match List.find (option_labelled label) (rev rest) with
        | Some o => Some (VDict o)
        | None => dict_get idx label
        end) by apply (IH Hrest).
    destruct v as [| | |s| |]; try done; try (destruct Hskip as (index & -> & Hg);
      exists index; split; [done|]; rewrite Hg;
      by destruct (List.find (option_labelled label) (rev rest))).
    destruct (IH Hrest (dict_set idx s (VDict option))) as (index & Hb & Hg).
    exists index. split; [done|]. rewrite Hg.
    destruct (List.find (option_labelled label) (rev rest)); [done|].
    destruct (String.eqb_spec s label) as [->|Hne].
    + apply dict_get_set_eq.
    + by apply dict_get_set_ne.
Qed.

Lemma build_options_index_unlabelled pre option rest idx :
  forallb well_labelled pre = true ->
  dict_get option "value" = None ->
  build_options_index (pre ++ option :: rest) idx = Raise (KeyError "value").
Proof.
  revert idx. induction pre as [|o pre IH]; simpl; intros idx Hwf Hnone.
  - unfold getitem. by rewrite Hnone.
  - apply andb_prop in Hwf as [Ho Hpre]. unfold well_labelled in Ho.
    unfold getitem, mbind, result_bind.
    destruct (dict_get o "value") as [v|]; [|done].
    destruct v; try done; by apply IH.
Qed.

(** X4. When every option has a label, the lookup is decided by the last
    option that carries the wanted label: its identifier is returned when it
    is truthy, and the lookup raises [ValueError] when it is missing or
    falsy and when no option carries the label. An identifier that is
    returned is therefore never None, zero or empty. An option without a
    label makes every lookup raise [KeyError]. *)
Theorem get_option_id_last_label_wins :
  (forall options label,
     forallb well_labelled options = true ->
     get_option_id options label
     = match List.find (option_labelled label) (rev options) with
       | Some option =>
           if truthy (dict_get_default option "id" VNone)
           then Ok (dict_get_default option "id" VNone)
           else Raise (option_not_found label)
       | None => Raise (option_not_found label)
       end) /\
  (forall options label id,
     get_option_id options label = Ok id -> truthy id = true) /\
  (forall pre option rest label,
     forallb well_labelled pre = true ->
     dict_get option "value" = None ->
     get_option_id (pre ++ option :: rest) label = Raise (KeyError "value")).
Proof.
  split; [|split].
  - intros options label Hwf. unfold get_option_id, mbind, result_bind.
    destruct (build_options_index_last options label Hwf []) as (index & -> & Hg).
    unfold dict_get_default at 1 2. rewrite Hg.
    destruct (List.find (option_labelled label) (rev options)) as [option|] eqn:Hf;
      [|done].
    apply find_some in Hf as [_ Hl]. unfold option_labelled in Hl.
    destruct option as [|kv option]; [done|]. simpl truthy at 1. cbv iota.
    by destruct (truthy (dict_get_default (kv :: option) "id" VNone)).
  - intros options label id H. unfold get_option_id, mbind, result_bind in H.
    destruct (build_options_index options []) as [index|]; [|done].
    destruct (if truthy (dict_get_default index label VNone) then _ else _)
      as [option_id|]; [|done].
    destruct (truthy option_id) eqn:E; simpl in H; [|done]. by injection H as <-.
  - intros pre option rest label Hwf Hnone. unfold get_option_id, mbind, result_bind.
    by rewrite build_options_index_unlabelled.
Qed.

(** ** comma_delimited_to_list, once more *)

Lemma split_no_separator sep s entry :
  In entry (split sep s) -> count_char sep entry = 0%nat.
Proof.
  revert entry. induction s as [|c s IH]; simpl; intros entry.
  - by intros [<-|[]].
  - destruct (Ascii.eqb c sep) eqn:E.
    + intros [<-|Hin]; [done | by apply IH].
    + destruct (split sep s) as [|h t] eqn:Es.
      * intros [<-|[]]. simpl. by rewrite E.
      * intros [<-|Hin]; [|apply IH; by right].
        simpl. rewrite E. apply IH. by left.
Qed.

Lemma lstrip_count c s : (count_char c (lstrip s) <= count_char c s)%nat.
Proof.
  induction s as [|a s IH]; simpl; [lia|].
  destruct (is_space a); simpl; lia.
Qed.

Lemma rstrip_count c s : (count_char c (rstrip s) <= count_char c s)%nat.
Proof.
  induction s as [|a s IH]; simpl; [lia|].
  destruct (rstrip s) as [|b r]; simpl in *.
  - destruct (is_space a); simpl; lia.
  - lia.
Qed.

(** X5. No parsed entry holds a comma, and a truthy value that is not a
    string cannot be parsed: the parser raises [AttributeError] for it. *)
Theorem parsed_entries_hold_no_comma :
  (forall v l entry,
     comma_delimited_to_list v = Ok l -> In entry l ->
     count_char comma entry = 0%nat) /\
  (forall v,
     truthy v = true -> (forall s, v <> VStr s) ->
     comma_delimited_to_list v = Raise AttributeError).
Proof.
  split.
  - intros v l entry. unfold comma_delimited_to_list.
    destruct (truthy v); [|by intros [= <-]].
    destruct v; try done. intros [= <-] (e & <- & Hin)%in_map_iff.
    pose proof (split_no_separator _ _ _ Hin).
    pose proof (rstrip_count comma (lstrip e)).
    pose proof (lstrip_count comma e). unfold strip. lia.
  - intros v Hv Hs. unfold comma_delimited_to_list. rewrite Hv.
    destruct v; try done. by destruct (Hs s).
Qed.

Section Coverage.

Variable env : Env.

#[local] Arguments table_field : simpl never.
#[local] Arguments get_option_id : simpl never.
#[local] Arguments template_url_of : simpl never.
#[local] Arguments getitem : simpl never.
#[local] Arguments comma_delimited_to_list : simpl never.
#[local] Arguments select_rows : simpl never.
#[local] Arguments cell : simpl never.

(** ** The paths of one run *)

Ltac quiet_stop :=
  simpl; rewrite <- ?app_assoc; simpl; left;
  first [ exists []; split; [by rewrite app_nil_r|]; split; [done|]; split; [done|simpl; lia]
        | eexists; split; [reflexivity|]; split; [done|]; split; [done|simpl; lia] ].

(** One run either stops having at most read the schema and queried the
    rows, or it is the loop over the fetched rows. *)
Lemma config_paths cfg tok w :
  (exists delta,
     trace (process_emailer_config env cfg tok w).2 = trace w ++ delta /\
     store (process_emailer_config env cfg tok w).2 = store w /\
     forallb is_read delta = true /\ (length delta <= 2)%nat)
  \/ exists src f rf cc q ip sent url rows tid flt,
       resolves env cfg w src f rf q ip sent /\
       fetched_by env cfg w f q rows /\
       template_ready cfg cc url /\
       process_emailer_config env cfg tok w
       = for_each rows (process_row env cfg tok (VStr f) rf cc ip sent url)
           (emit (EvGetRows tid flt) (emit (EvGetTable src) w)).
Proof.
  unfold process_emailer_config, lift, get_table, get_rows, now.
  unfold mbind, M_bind, result_bind. simpl.
  destruct (getitem cfg "Source Table ID") as [src|] eqn:Hsrc; [|quiet_stop].
  destruct (getitem cfg "Email Trigger Field") as [tf|] eqn:Htf; [|quiet_stop].
  destruct (getitem cfg "Trigger On Blank") as [tob|] eqn:Htob; [|quiet_stop].
  destruct (getitem cfg "Email Recipient Field") as [rf|] eqn:Hrf; [|quiet_stop].
  destruct (getitem cfg "CC Recipients") as [ccv|] eqn:Hccv; [|quiet_stop].
  destruct (comma_delimited_to_list ccv) as [cc|] eqn:Hcc; [|quiet_stop].
  destruct (env_get_table env (length (trace w)) src) as [tbl|] eqn:Htbl;
    [|quiet_stop].
  destruct (getitem cfg "Message Template Fields") as [mtf|] eqn:Hmtf;
    [|quiet_stop].
  destruct (comma_delimited_to_list mtf) as [fieldsl|] eqn:Hfl; [|quiet_stop].
  destruct tf as [| | |f| |]; try quiet_stop.
  simpl.
  destruct (existsb (String.eqb f) (field_names tbl)
            && (is_field_name (field_names tbl) rf
                && forallb (is_field_name (field_names tbl)) (map VStr fieldsl)));
    [|quiet_stop].
  simpl.
  destruct (table_field tbl (VStr f)) as [trig|] eqn:Htrig; [|quiet_stop].
  destruct (String.eqb (TYPE trig) "single_select"); [|quiet_stop]. simpl.
  destruct (get_option_id (options_details trig) "Queued") as [q|] eqn:Hq;
    [|quiet_stop].
  destruct (truthy q); [|quiet_stop]. simpl.
  destruct (get_option_id (options_details trig) "In Progress") as [ip|] eqn:Hip;
    [|quiet_stop].
  destruct (truthy ip); [|quiet_stop]. simpl.
  destruct (get_option_id (options_details trig) "Sent") as [sent|] eqn:Hsent;
    [|quiet_stop].
  destruct (truthy sent); [|quiet_stop]. simpl.
  destruct (env_get_rows_ok env _); [|quiet_stop].
  destruct (template_url_of cfg) as [url|] eqn:Hurl; [|quiet_stop].
  destruct (truthy url) eqn:Hu; [|quiet_stop]. simpl.
  right. eexists src, f, rf, cc, q, ip, sent, url, _, _, _.
  split; [by exists tbl, trig|].
  split; [by exists src, tbl, tob, (VStr f :: rf :: map VStr fieldsl)|].
  split; [|reflexivity].
  unfold template_ready, mbind, result_bind. by rewrite Hccv, Hcc, Hurl.
Qed.


Ltac run_config :=
  unfold process_emailer_config, lift, get_table, get_rows, now;
  unfold mbind, M_bind, result_bind; simpl.

(** X6. A configuration that lacks one of the entries read before the first
    call makes the run raise [KeyError] for the first of them that is
    missing, and a cc entry that is truthy and not a string makes it raise
    [AttributeError]; in both cases no call has been made. *)
Theorem malformed_configuration_raises_before_any_call :
  (forall cfg tok w key,
     In key early_keys -> dict_get cfg key = None ->
     exists k,
       In k early_keys /\ dict_get cfg k = None /\
       process_emailer_config env cfg tok w = (Raise (KeyError k), w)) /\
  (forall cfg tok w v,
     forallb (fun key => bool_decide (dict_get cfg key <> None)) early_keys = true ->
     dict_get cfg "CC Recipients" = Some v ->
     truthy v = true ->
     (forall s, v <> VStr s) ->
     process_emailer_config env cfg tok w = (Raise AttributeError, w)).
Proof.
  split.
  - intros cfg tok w key Hkey Hnone. run_config. unfold getitem.
    destruct (dict_get cfg "Source Table ID") eqn:H1;
      [|exists "Source Table ID"; simpl; tauto].
    destruct (dict_get cfg "Email Trigger Field") eqn:H2;
      [|exists "Email Trigger Field"; simpl; tauto].
    destruct (dict_get cfg "Trigger On Blank") eqn:H3;
      [|exists "Trigger On Blank"; simpl; tauto].
    destruct (dict_get cfg "Email Recipient Field") eqn:H4;
      [|exists "Email Recipient Field"; simpl; tauto].
    destruct (dict_get cfg "CC Recipients") eqn:H5;
      [|exists "CC Recipients"; simpl; tauto].
    simpl in Hkey. destruct Hkey as [<-|[<-|[<-|[<-|[<-|[]]]]]]; congruence.
  - intros cfg tok w v Hall Hcc Hv Hstr. run_config. unfold getitem.
    simpl in Hall. repeat (apply andb_prop in Hall as [?%bool_decide_eq_true Hall]).
    destruct (dict_get cfg "Source Table ID"); [|done].
    destruct (dict_get cfg "Email Trigger Field"); [|done].
    destruct (dict_get cfg "Trigger On Blank"); [|done].
    destruct (dict_get cfg "Email Recipient Field"); [|done].
    rewrite Hcc. unfold comma_delimited_to_list. rewrite Hv.
    destruct v; try done. by destruct (Hstr s).
Qed.

(** X7. When the source table lacks the trigger field, the recipient field
    or a template field, or when its trigger field is not a single select,
    the run returns normally after reading the schema: it raises nothing,
    queries no row and writes none. *)
Theorem schema_mismatch_returns_after_schema_read cfg tok w src tf rf fields tbl :
  reads_configuration env cfg w src tf rf fields tbl ->
  (forallb (is_field_name (field_names tbl)) (tf :: rf :: map VStr fields) = false
   \/ exists trig,
        table_field tbl tf = Ok trig /\
        String.eqb (TYPE trig) "single_select" = false) ->
  process_emailer_config env cfg tok w = (Ok tt, emit (EvGetTable src) w).
Proof.
  intros (Hsrc & Htf & Htob & Hrf & Hcc & Htbl & Hfl) Hbad.
  run_config. unfold mbind, result_bind in Hcc, Hfl.
  rewrite Hsrc, Htf. destruct (getitem cfg "Trigger On Blank"); [|done].
  rewrite Hrf. destruct (getitem cfg "CC Recipients") as [ccv|]; [|done].
  destruct (comma_delimited_to_list ccv); [|done].
  unfold now in Htbl. rewrite Htbl.
  destruct (getitem cfg "Message Template Fields") as [mtf|]; [|done].
  rewrite Hfl. simpl in Hbad.
  destruct (is_field_name (field_names tbl) tf
            && (is_field_name (field_names tbl) rf
                && forallb (is_field_name (field_names tbl)) (map VStr fields)));
    [|done].
  simpl. destruct Hbad as [|(trig & -> & ->)]; done.
Qed.

(** X8. When the schema checks pass and the trigger field lacks an option
    labelled "Queued", "In Progress" or "Sent", the run ends by raising,
    not by returning, after reading the schema and nothing else. *)
Theorem missing_option_raises cfg tok w src tf rf fields tbl trig label :
  reads_configuration env cfg w src tf rf fields tbl ->
  schema_fits tbl tf rf fields trig ->
  In label ["Queued"; "In Progress"; "Sent"] ->
  has_option (options_details trig) label = false ->
  exists e,
    process_emailer_config env cfg tok w = (Raise e, emit (EvGetTable src) w).
Proof.
  intros (Hsrc & Htf & Htob & Hrf & Hcc & Htbl & Hfl) (Hfields & Htrig & Htype)
         Hlabel Hno.
  run_config. unfold mbind, result_bind in Hcc, Hfl.
  rewrite Hsrc, Htf. destruct (getitem cfg "Trigger On Blank"); [|done].
  rewrite Hrf. destruct (getitem cfg "CC Recipients") as [ccv|]; [|done].
  destruct (comma_delimited_to_list ccv); [|done].
  unfold now in Htbl. rewrite Htbl.
  destruct (getitem cfg "Message Template Fields") as [mtf|]; [|done].
  rewrite Hfl. simpl in Hfields. rewrite Hfields. simpl.
  rewrite Htrig, Htype. simpl.
  pose proof (get_option_id_missing _ _ Hno) as Hraise.
  pose proof (get_option_id_truthy (options_details trig)) as Htruthy.
  destruct (get_option_id (options_details trig) "Queued") as [q|e1] eqn:Hq;
    [|by eauto].
  rewrite (Htruthy _ _ Hq). simpl.
  destruct (get_option_id (options_details trig) "In Progress") as [ip|e2] eqn:Hip;
    [|by eauto].
  rewrite (Htruthy _ _ Hip). simpl.
  destruct (get_option_id (options_details trig) "Sent") as [sent|e3] eqn:Hsent;
    [|by eauto].
  simpl in Hlabel. destruct Hlabel as [<-|[<-|[<-|[]]]]; by edestruct Hraise.
Qed.

(** X9. Without a truthy template URL in the configuration the run fetches
    no template, posts no mail and writes no row: it makes at most the
    schema read and the row query, and the store is as it was. *)
Theorem no_template_url_touches_no_row cfg tok w :
  (forall url, template_url_of cfg = Ok url -> truthy url = false) ->
  let w' := (process_emailer_config env cfg tok w).2 in
  forallb is_read (new_events w w') = true /\ store w' = store w.
Proof.
  intros Hurl w'. subst w'. destruct (config_paths cfg tok w) as [Hquiet|Hloop].
  - destruct Hquiet as (delta & Ht & Hs & Hr & _).
    by rewrite (new_events_app _ _ _ Ht).
  - destruct Hloop as (src & f & rf & cc & q & ip & sent & url & rows & tid & flt
                       & _ & _ & (_ & Hu & Ht) & _).
    rewrite (Hurl url Hu) in Ht. done.
Qed.


(** ** The loop over the fetched rows *)

Lemma row_run_counts t i f ip sent url rc r d :
  row_run t i f ip sent url rc r d ->
  (length (List.filter is_post d) <= 1)%nat /\
  (length (List.filter is_http_get d) <= 1)%nat /\
  (length (List.filter is_update d) <= 2)%nat.
Proof. intros H. inversion H; subst; simpl; lia. Qed.

Lemma rows_run_counts f ip sent url rf rows r ds :
  rows_run f ip sent url rf rows r ds ->
  (length (List.filter is_post ds) <= length rows)%nat /\
  (length (List.filter is_http_get ds) <= length rows)%nat /\
  (length (List.filter is_update ds) <= 2 * length rows)%nat.
Proof.
  induction 1 as [|row rows d r ds Hd _ IH|row rows e d Hd]; simpl.
  - lia.
  - rewrite !List.filter_app, !length_app.
    pose proof (row_run_counts _ _ _ _ _ _ _ _ _ Hd). lia.
  - pose proof (row_run_counts _ _ _ _ _ _ _ _ _ Hd). lia.
Qed.

(** X10. Whatever the collaborators answer, the loop over the rows fetches
    the template at most once per row, posts at most one mail per row and
    writes at most twice per row: no call is tried again. *)
Theorem loop_calls_are_bounded cfg tok f rf cc ip sent url rows w :
  let w' := (for_each rows (process_row env cfg tok (VStr f) rf cc ip sent url) w).2 in
  let delta := new_events w w' in
  (length (List.filter is_post delta) <= length rows)%nat /\
  (length (List.filter is_http_get delta) <= length rows)%nat /\
  (length (List.filter is_update delta) <= 2 * length rows)%nat.
Proof.
  intros w' delta. subst w' delta.
  destruct (for_each_rows_run env cfg tok f rf cc ip sent url rows w) as (ds & Ht & Hr).
  rewrite (new_events_app _ _ _ Ht). by eapply rows_run_counts.
Qed.

Lemma row_run_sent_after_post t i f ip sent url rc r d :
  row_run t i f ip sent url rc r d -> ip <> sent ->
  forall pre t' i' f' ok post,
    d = pre ++ EvUpdate t' i' f' sent ok :: post ->
    exists pre' ep m status,
      pre = pre' ++ [EvPost ep m status] /\ send_returns status = true /\
      msg_to m <> [] /\ In (EvUpdate t' i' f' ip true) pre'.
Proof.
  intros H Hne pre t' i' f' ok post Heq.
  inversion H; subst;
    repeat (destruct pre as [|? pre]; simplify_eq/=).
  eexists [_; _], _, _, _. split; [done|]. split; [done|]. split; [done|].
  by left.
Qed.

Lemma rows_run_sent_after_post f ip sent url rf rows r ds :
  rows_run f ip sent url rf rows r ds -> ip <> sent ->
  forall pre t i f' ok post,
    ds = pre ++ EvUpdate t i f' sent ok :: post ->
    exists pre' ep m status,
      pre = pre' ++ [EvPost ep m status] /\ send_returns status = true /\
      msg_to m <> [] /\ In (EvUpdate t i f' ip true) pre'.
Proof.
  intros H Hne.
  induction H as [|row rows d r ds Hd _ IH|row rows e d Hd];
    intros pre t i f' ok post Heq.
  - by destruct pre.
  - apply app_eq_app in Heq as [l [[-> Hl]|[-> Hl]]].
    + destruct l as [|x l]; simplify_eq/=.
      * destruct (IH [] t i f' ok post eq_refl) as (pre' & ? & ? & ? & Hnil & _).
        by destruct pre'.
      * by eapply (row_run_sent_after_post _ _ _ _ _ _ _ _ _ Hd Hne pre t i f' ok l).
    + destruct (IH l t i f' ok post Hl) as (pre' & ep & m & st & -> & Hs & Hm & Hin).
      exists (d ++ pre'), ep, m, st. rewrite app_assoc.
      split; [done|]. split; [done|]. split; [done|]. apply in_or_app. by right.
  - by eapply row_run_sent_after_post.
Qed.

(** X11. In the loop over the rows, a write of the Sent identifier to a row
    comes directly after a mail post that [send_email] returned from, to a
    non-empty recipient list, itself after the accepted claim of that row:
    no row is marked Sent without a mail having been posted for it. *)
Theorem sent_follows_a_returned_post cfg tok f rf cc ip sent url rows w :
  ip <> sent ->
  let w' := (for_each rows (process_row env cfg tok (VStr f) rf cc ip sent url) w).2 in
  forall pre t i f' ok post,
    new_events w w' = pre ++ EvUpdate t i f' sent ok :: post ->
    exists pre' ep m status,
      pre = pre' ++ [EvPost ep m status] /\ send_returns status = true /\
      msg_to m <> [] /\ In (EvUpdate t i f' ip true) pre'.
Proof.
  intros Hne w'. subst w'.
  destruct (for_each_rows_run env cfg tok f rf cc ip sent url rows w) as (ds & Ht & Hr).
  rewrite (new_events_app _ _ _ Ht). by eapply rows_run_sent_after_post.
Qed.

Lemma rows_run_raise f ip sent url rf rows e ds :
  rows_run f ip sent url rf rows (Raise e) ds ->
  exists before row after dbefore,
    rows = before ++ row :: after /\
    recipients_of row f ip rf = Raise e /\
    rows_run f ip sent url rf before (Ok tt) dbefore /\
    ds = dbefore ++ [EvUpdate (row_table row) (row_id row) f ip true; EvHttpGet url].
Proof.
  remember (Raise e) as r eqn:Hr. intros H. revert Hr.
  induction H as [|row rows d r ds Hd _ IH|row rows e' d Hd]; intros Hr.
  - done.
  - destruct (IH Hr) as (before & row' & after & dbefore & -> & Hrc & Hb & ->).
    exists (row :: before), row', after, (d ++ dbefore).
    split; [done|]. split; [done|]. split; [by econstructor|].
    by rewrite app_assoc.
  - injection Hr as ->. exists [], row, rows, [].
    split; [done|]. split; [by inversion Hd|]. split; [constructor|].
    by inversion Hd.
Qed.

(** X12. The loop over the rows raises only when a row's recipient field
    cannot be parsed (it is missing, or holds a truthy value that is not a
    string): that row has been claimed and its template fetched, nothing
    has been posted for it, it stays at In Progress, and the rows after it
    are not processed. *)
Theorem loop_raises_only_on_recipients cfg tok f rf cc ip sent url rows w e :
  let rw := for_each rows (process_row env cfg tok (VStr f) rf cc ip sent url) w in
  rw.1 = Raise e ->
  exists before row after dbefore cells,
    rows = before ++ row :: after /\
    recipients_of row f ip rf = Raise e /\
    rows_run f ip sent url rf before (Ok tt) dbefore /\
    new_events w rw.2
    = dbefore ++ [EvUpdate (row_table row) (row_id row) f ip true; EvHttpGet url] /\
    store rw.2 !! (row_table row, row_id row) = Some cells /\
    dict_get cells f = Some ip.
Proof.
  intros rw Hraise. subst rw.
  destruct (for_each_rows_run env cfg tok f rf cc ip sent url rows w) as (ds & Ht & Hr).
  destruct (sound_rows env cfg tok (VStr f) rf cc ip sent url rows w)
    as (ds' & Ht' & Hs).
  assert (ds' = ds) as -> by (rewrite Ht in Ht'; by apply app_inv_head in Ht').
  rewrite Hraise in Hr.
  destruct (rows_run_raise _ _ _ _ _ _ _ _ Hr)
    as (before & row & after & dbefore & Hrows & Hrc & Hb & ->).
  rewrite (new_events_app _ _ _ Ht), Hs.
  exists before, row, after, dbefore.
  rewrite replay_app. simpl. rewrite lookup_insert_eq. eexists.
  split; [done|]. split; [done|]. split; [done|]. split; [done|].
  split; [done|]. apply dict_get_set_eq.
Qed.


(** ** The rows that one run leaves alone *)

(** A fetched row belongs to the source table and was Queued, or blank with
    the configuration triggering on blank. *)
Lemma fetched_eligible cfg w f q rows src tbl tob row :
  fetched_by env cfg w f q rows ->
  getitem cfg "Source Table ID" = Ok src ->
  env_get_table env (now w) src = Some tbl ->
  getitem cfg "Trigger On Blank" = Ok tob ->
  In row rows ->
  row_table row = table_id tbl /\
  exists cells,
    store w !! (row_table row, row_id row) = Some cells /\
    (cell cells (VStr f) = q
     \/ (truthy tob = true /\ cell cells (VStr f) = VNone)).
Proof.
  intros (src' & tbl' & tob' & include & Hsrc' & Htbl' & Htob' & ->)
         Hsrc Htbl Htob Hin.
  assert (src' = src) as -> by congruence.
  assert (tbl' = tbl) as -> by congruence.
  assert (tob' = tob) as -> by congruence.
  apply select_rows_in in Hin as (cells & Hl & Hsel).
  unfold selects in Hsel. apply andb_prop in Hsel as [Ht%Z.eqb_eq Hsel].
  simpl in Ht, Hsel. split; [done|]. exists cells. split; [done|].
  apply orb_prop in Hsel as [Hq|Hblank].
  - left. unfold filter_matches in Hq. simpl in Hq. by apply value_eqb_eq.
  - right. destruct (truthy tob); [|done]. simpl in Hblank.
    rewrite orb_false_r in Hblank. unfold filter_matches in Hblank.
    simpl in Hblank. by destruct (cell cells (VStr f)).
Qed.

Lemma existsb_touches t i delta :
  existsb (touches t i) delta = true ->
  exists f v ok, In (EvUpdate t i f v ok) delta.
Proof.
  intros (e & Hin & He)%existsb_exists.
  destruct e as [| | |t' i' f v ok| |]; simpl in He; try done.
  apply andb_prop in He as [->%Z.eqb_eq ->%Z.eqb_eq]. eauto.
Qed.

Lemma touches_writes_row t i delta :
  existsb (touches t i) delta = false -> existsb (writes_row t i) delta = false.
Proof.
  induction delta as [|e delta IH]; simpl; [done|].
  intros [He Hd]%orb_false_elim. rewrite (IH Hd), orb_false_r.
  destruct e as [| | |t' i' f v [|]| |]; done.
Qed.

(** The events of one run, and the store as their replay. *)
Lemma config_events cfg tok w :
  exists delta,
    new_events w (process_emailer_config env cfg tok w).2 = delta /\
    store (process_emailer_config env cfg tok w).2 = replay delta (store w) /\
    (existsb is_update delta = false
     \/ exists src f rf q ip sent url rows tid flt ds,
          resolves env cfg w src f rf q ip sent /\
          fetched_by env cfg w f q rows /\
          delta = EvGetTable src :: EvGetRows tid flt :: ds /\
          rows_run f ip sent url rf rows
                   (process_emailer_config env cfg tok w).1 ds).
Proof.
  destruct (config_run env cfg tok w) as (ds & Ht & Hcases).
  destruct (sound_process_emailer_config env cfg tok w) as (ds' & Ht' & Hs).
  assert (ds' = ds) as -> by (rewrite Ht in Ht'; by apply app_inv_head in Ht').
  exists ds. split; [by apply new_events_app|]. split; [done|].
  destruct Hcases as [->|[(src & _ & ->)|Hloop]]; [by left..|].
  destruct Hloop as (src & f & rf & q & ip & sent & url & rows & tid & flt & ds0
                     & Hres & Hfetch & -> & [->|Hrows]); [by left|].
  right. by exists src, f, rf, q, ip, sent, url, rows, tid, flt, ds0.
Qed.

Lemma no_update_no_touch t i delta :
  existsb is_update delta = false -> existsb (touches t i) delta = false.
Proof.
  induction delta as [|e delta IH]; simpl; [done|].
  intros [He Hd]%orb_false_elim. rewrite (IH Hd), orb_false_r. by destruct e.
Qed.

(** A stored row that the query does not select is not written. *)
Lemma unselected_row_untouched cfg tok w src tbl tob f rf q ip sent t i :
  resolves env cfg w src f rf q ip sent ->
  env_get_table env (now w) src = Some tbl ->
  getitem cfg "Trigger On Blank" = Ok tob ->
  (t <> table_id tbl
   \/ forall cells, store w !! (t, i) = Some cells ->
        cell cells (VStr f) <> q /\
        (truthy tob = false \/ cell cells (VStr f) <> VNone)) ->
  let w' := (process_emailer_config env cfg tok w).2 in
  existsb (touches t i) (new_events w w') = false /\
  store w' !! (t, i) = store w !! (t, i).
Proof.
  intros Hres Htbl Htob Hout w'. subst w'.
  destruct (config_events cfg tok w) as (delta & -> & Hs & Hcases).
  assert (Hgoal : existsb (touches t i) delta = false ->
    existsb (touches t i) delta = false /\
    store (process_emailer_config env cfg tok w).2 !! (t, i) = store w !! (t, i)).
  { intros Hno. split; [done|]. rewrite Hs. by apply replay_frame, touches_writes_row. }
  apply Hgoal.
  destruct Hcases as [Hquiet|Hloop]; [by apply no_update_no_touch|].
  destruct Hloop as (src' & f' & rf' & q' & ip' & sent' & url & rows & tid & flt
                     & ds & Hres' & Hfetch & -> & Hrows).
  destruct (resolves_functional env _ _ _ _ _ _ _ _ _ _ _ _ _ _ Hres Hres')
    as (-> & -> & -> & -> & -> & ->).
  destruct (existsb (touches t i) _) eqn:E; [|done].
  apply existsb_touches in E as (g & v & ok & [[=]|[[=]|Hin]]).
  destruct (rows_run_rows _ _ _ _ _ _ _ _ Hrows _ _ _ _ _ Hin)
    as (row & Hrow & <- & <-).
  destruct Hres as (tbl0 & trig & Hsrc & _).
  destruct (fetched_eligible _ _ _ _ _ _ _ _ _ Hfetch Hsrc Htbl Htob Hrow)
    as (Htable & cells & Hl & Hsel).
  destruct Hout as [Hne|Hcell]; [done|].
  destruct (Hcell cells Hl) as [Hq Hblank].
  destruct Hsel as [?|[Ht Hn]]; [done|]. destruct Hblank; congruence.
Qed.

(** X13. A stored row is left alone by a run that does not select it: a row
    of another table, a row whose trigger field is neither Queued nor blank
    (In Progress or Sent from an earlier run, say), and a blank row when the
    configuration does not trigger on blank. No write is attempted on it and
    its cells are unchanged. *)
Theorem rows_not_selected_are_untouched cfg tok w src tbl tob f rf q ip sent t i :
  resolves env cfg w src f rf q ip sent ->
  env_get_table env (now w) src = Some tbl ->
  getitem cfg "Trigger On Blank" = Ok tob ->
  (t <> table_id tbl
   \/ forall cells, store w !! (t, i) = Some cells ->
        cell cells (VStr f) <> q /\
        (truthy tob = false \/ cell cells (VStr f) <> VNone)) ->
  let w' := (process_emailer_config env cfg tok w).2 in
  existsb (touches t i) (new_events w w') = false /\
  store w' !! (t, i) = store w !! (t, i).
Proof. apply unselected_row_untouched. Qed.


(** Replaying writes that all go to field [f] of rows that exist neither
    creates nor removes a row, and changes no other field. *)
Lemma replay_fields f delta st :
  (forall t i g v, In (EvUpdate t i g v true) delta ->
     g = f /\ is_Some (st !! (t, i))) ->
  forall k,
    match st !! k with
    | None => replay delta st !! k = None
    | Some cells =>
        exists cells',
          replay delta st !! k = Some cells' /\
          forall g, g <> f -> dict_get cells' g = dict_get cells g
    end.
Proof.
  induction delta as [|e delta IH] using rev_ind; intros Hall k.
  - simpl. destruct (st !! k); [by eexists|done].
  - rewrite replay_app. simpl.
    assert (Hprev : forall t i g v, In (EvUpdate t i g v true) delta ->
                      g = f /\ is_Some (st !! (t, i))).
    { intros t i g v Hin. apply (Hall t i g v), in_or_app. by left. }
    specialize (IH Hprev).
    destruct e as [| | |t i g v [|]| |]; simpl; try apply IH.
    destruct (Hall t i g v) as [-> [c Hc]]; [apply in_or_app; right; by left|].
    destruct (decide (k = (t, i))) as [->|Hne].
    + specialize (IH (t, i)). rewrite Hc in IH |- *.
      destruct IH as (c' & Hl & Hsame). rewrite Hl. simpl.
      rewrite lookup_insert_eq. eexists. split; [done|].
      intros g Hg. rewrite dict_get_set_ne by done. by apply Hsame.
    + rewrite lookup_insert_ne by done. apply IH.
Qed.

(** X14. One run neither creates nor removes a stored row, and in a row it
    changes no field other than the configuration's trigger field. *)
Theorem run_changes_only_trigger_cells cfg tok w tf t i :
  getitem cfg "Email Trigger Field" = Ok tf ->
  let w' := (process_emailer_config env cfg tok w).2 in
  match store w !! (t, i) with
  | None => store w' !! (t, i) = None
  | Some cells =>
      exists cells',
        store w' !! (t, i) = Some cells' /\
        forall g, VStr g <> tf -> dict_get cells' g = dict_get cells g
  end.
Proof.
  intros Htf w'. subst w'.
  destruct (config_events cfg tok w) as (delta & _ & -> & Hcases).
  destruct Hcases as [Hquiet|Hloop].
  - rewrite replay_no_update by done. destruct (store w !! (t, i)); [by eexists|done].
  - destruct Hloop as (src & f & rf & q & ip & sent & url & rows & tid & flt
                       & ds & Hres & Hfetch & -> & Hrows).
    assert (tf = VStr f) as ->.
    { destruct Hres as (? & ? & _ & Hf & _). congruence. }
    pose proof (replay_fields f (EvGetTable src :: EvGetRows tid flt :: ds) (store w))
      as Hrep.
    specialize (Hrep ltac:(
      intros t' i' g v [[=]|[[=]|Hin]];
      split; [by destruct (rows_run_updates _ _ _ _ _ _ _ _ Hrows _ _ _ _ _ Hin)|];
      destruct (rows_run_rows _ _ _ _ _ _ _ _ Hrows _ _ _ _ _ Hin)
        as (row & Hrow & <- & <-);
      destruct (fetched_was_queued_or_blank env _ _ _ _ _ _ Hfetch Hrow)
        as (cells & -> & _); by eexists) (t, i)).
    destruct (store w !! (t, i)) as [cells|]; [|done].
    destruct Hrep as (cells' & Hl & Hsame). exists cells'. split; [done|].
    intros g Hg. apply Hsame. congruence.
Qed.


(** A row whose claim was accepted ends at In Progress or Sent. *)
Lemma claimed_row_state cfg tok w src f rf q ip sent t i :
  resolves env cfg w src f rf q ip sent ->
  let w' := (process_emailer_config env cfg tok w).2 in
  In (EvUpdate t i f ip true) (new_events w w') ->
  exists cells v,
    store w' !! (t, i) = Some cells /\ dict_get cells f = Some v /\
    (v = ip \/ v = sent) /\ truthy v = true.
Proof.
  intros Hres w' Hin. subst w'.
  destruct (config_events cfg tok w) as (delta & Hd & -> & Hcases).
  rewrite Hd in Hin.
  destruct Hcases as [Hquiet|Hloop].
  - assert (existsb is_update delta = true); [|congruence].
    apply existsb_exists. by eexists.
  - destruct Hloop as (src' & f' & rf' & q' & ip' & sent' & url & rows & tid & flt
                       & ds & Hres' & Hfetch & -> & Hrows).
    destruct (resolves_functional env _ _ _ _ _ _ _ _ _ _ _ _ _ _ Hres Hres')
      as (-> & -> & -> & -> & -> & ->).
    destruct (replay_establishes (fun v => v = ip \/ v = sent) t i f
                (EvGetTable src :: EvGetRows tid flt :: ds) (store w))
      as (cells & v & Hl & Hg & Hv).
    + intros f' v [[=]|[[=]|Hin']].
      by destruct (rows_run_updates _ _ _ _ _ _ _ _ Hrows _ _ _ _ _ Hin').
    + apply existsb_writes_row. eauto.
    + exists cells, v. split; [done|]. split; [done|]. split; [done|].
      destruct Hres as (tbl & trig & _ & _ & _ & _ & _ & _ & Hip & Hsent).
      destruct Hv as [->| ->]; by eapply get_option_id_truthy.
Qed.

(** X15. A second run on the same configuration leaves alone every row that
    the first run claimed: with the Queued identifier different from the In
    Progress and Sent identifiers, such a row is no longer selected, so it
    is neither claimed again nor mailed again, whether the first run left it
    at Sent or stuck at In Progress. *)
Theorem second_run_leaves_claimed_rows cfg tok tok' w src tbl tob f rf q ip sent t i :
  let w1 := (process_emailer_config env cfg tok w).2 in
  let w2 := (process_emailer_config env cfg tok' w1).2 in
  resolves env cfg w src f rf q ip sent ->
  resolves env cfg w1 src f rf q ip sent ->
  env_get_table env (now w1) src = Some tbl ->
  getitem cfg "Trigger On Blank" = Ok tob ->
  q <> ip -> q <> sent ->
  In (EvUpdate t i f ip true) (new_events w w1) ->
  existsb (touches t i) (new_events w1 w2) = false /\
  store w2 !! (t, i) = store w1 !! (t, i).
Proof.
  intros w1 w2 Hres Hres1 Htbl Htob Hq1 Hq2 Hin.
  destruct (claimed_row_state cfg tok w src f rf q ip sent t i Hres Hin)
    as (cells & v & Hl & Hg & Hv & Ht).
  apply (unselected_row_untouched cfg tok' w1 src tbl tob f rf q ip sent t i);
    [done..|].
  right. intros cells' Hl'. fold w1 in Hl. rewrite Hl in Hl'. injection Hl' as <-.
  assert (cell cells (VStr f) = v) as ->.
  { unfold cell, dict_get_default. by rewrite Hg. }
  split; [destruct Hv; congruence|]. right. intros ->. done.
Qed.

(** ** The mails that are posted *)

Lemma process_row_mail cfg tok f rf cc ip sent url row w :
  exists delta,
    trace (process_row env cfg tok (VStr f) rf cc ip sent url row w).2
      = trace w ++ delta /\
    forall ep m status, In (EvPost ep m status) delta ->
      ep = "https://graph.microsoft.com/v1.0/me/sendMail" /\
      msg_subject m = dict_get_default cfg "Subject" (VStr "No Subject") /\
      sliceable (msg_subject m) = true /\
      recipients_of row f ip rf = Ok (msg_to m) /\
      msg_cc m = cc /\ msg_from m = None.
Proof.
  unfold recipients_of.
  unfold process_row, try_except, row_update, create_email_message,
    fetch_template, send_email, lift, emit, now.
  unfold mbind, mret, M_bind, M_ret, result_bind. simpl.
  destruct (store w !! (row_table row, row_id row)) as [cells|] eqn:Hk;
    [|simpl; eexists; split; [reflexivity|]; by intros ? ? ? [|[]]].
  destruct (env_update_ok env (length (trace w))) eqn:Hu;
    [|simpl; eexists; split; [reflexivity|]; by intros ? ? ? [|[]]].
  simpl.
  repeat (case_match; simpl in *; simplify_eq/=);
    rewrite <- ?app_assoc; simpl;
    (eexists; split; [reflexivity|]);
    intros ep m status Hin; simpl in Hin;
    repeat (destruct Hin as [Hin|Hin]; simplify_eq/=);
    try done.
  all: repeat split; try done.
  all: by match goal with
       | H : negb (sliceable ?s) = false |- sliceable ?s = true =>
           apply negb_false_iff in H
       end.
Qed.

(** X16. Every mail that the loop over the rows posts goes to the
    [/me/sendMail] endpoint with no sender address, and carries the
    configuration's subject ("No Subject" when the configuration has no
    such entry), the configuration's cc list, and as recipients the parsed
    recipient field of a row of the loop. A subject that cannot be sliced
    (None, a number) means that nothing is posted at all. *)
Theorem posted_mails_follow_the_configuration cfg tok f rf cc ip sent url rows w :
  let w' := (for_each rows (process_row env cfg tok (VStr f) rf cc ip sent url) w).2 in
  let subject := dict_get_default cfg "Subject" (VStr "No Subject") in
  (forall ep m status, In (EvPost ep m status) (new_events w w') ->
     ep = "https://graph.microsoft.com/v1.0/me/sendMail" /\
     msg_subject m = subject /\ msg_cc m = cc /\ msg_from m = None /\
     exists row, In row rows /\ recipients_of row f ip rf = Ok (msg_to m)) /\
  (sliceable subject = false -> existsb is_post (new_events w w') = false).
Proof.
  intros w' subject. subst w'.
  assert (Hposts : forall ep m status,
    In (EvPost ep m status)
       (new_events w (for_each rows (process_row env cfg tok (VStr f) rf cc ip sent url) w).2) ->
    ep = "https://graph.microsoft.com/v1.0/me/sendMail" /\
    msg_subject m = subject /\ sliceable subject = true /\
    msg_cc m = cc /\ msg_from m = None /\
    exists row, In row rows /\ recipients_of row f ip rf = Ok (msg_to m)).
  { revert w. induction rows as [|row rows IH]; intros w ep m status; simpl.
    - unfold new_events. simpl. by rewrite drop_all.
    - destruct (process_row_mail cfg tok f rf cc ip sent url row w) as (d & Ht & Hd).
      unfold mbind, M_bind.
      destruct (process_row env cfg tok (VStr f) rf cc ip sent url row w)
        as [[[]|e] w1]; simpl in *.
      + destruct (sound_rows env cfg tok (VStr f) rf cc ip sent url rows w1)
          as (ds & Hts & _).
        rewrite (new_events_app w _ (d ++ ds)) by (by rewrite Hts, Ht, app_assoc).
        intros [Hin|Hin]%in_app_or.
        * destruct (Hd _ _ _ Hin) as (? & Hs & Hsl & ? & ? & ?).
          rewrite Hs in Hsl. repeat split; try done. exists row. by split; [left|].
        * rewrite <- (new_events_app w1 _ ds Hts) in Hin.
          destruct (IH _ _ _ _ Hin) as (? & ? & ? & ? & ? & row' & ? & ?).
          repeat split; try done. exists row'. by split; [right|].
      + rewrite (new_events_app w _ d Ht). intros Hin.
        destruct (Hd _ _ _ Hin) as (? & Hs & Hsl & ? & ? & ?).
        rewrite Hs in Hsl. repeat split; try done. exists row. by split; [left|]. }
  split.
  - intros ep m status Hin. by destruct (Hposts _ _ _ Hin) as (? & ? & _ & ? & ? & ?).
  - intros Hs. destruct (existsb is_post _) eqn:E; [|done].
    apply existsb_exists in E as (e & Hin & He).
    destruct e as [| | | | |ep m status]; try done.
    destruct (Hposts _ _ _ Hin) as (_ & _ & Hsl & _). congruence.
Qed.


(** ** The template renderer and the mail sender *)


(** ** The configuration loader and the runner *)

(** X18. The configuration loader only reads: it makes the schema read and
    at most one row query, and leaves the store as it was, whether it
    returns or raises. *)
Theorem loader_only_reads id w :
  let w' := (get_active_configurations env id w).2 in
  store w' = store w /\
  exists tid flt,
    new_events w w' = [EvGetTable id]
    \/ new_events w w' = [EvGetTable id; EvGetRows tid flt].
Proof.
  unfold get_active_configurations, get_table, get_rows, lift.
  unfold mbind, M_bind. simpl.
  destruct (env_get_table env (now w) id) as [tbl|].
  - destruct (env_get_rows_ok env _); simpl.
    + destruct (select_rows tbl None _ "AND" (store w)); simpl;
        (split; [done|]); eexists _, _; right;
        apply new_events_app; simpl; by rewrite <- app_assoc.
    + split; [done|]. eexists _, _. right.
      apply new_events_app. simpl. by rewrite <- app_assoc.
  - split; [done|]. exists 0%Z, []. left. by apply new_events_app.
Qed.

Lemma main_after_check getenv w :
  existsb (is_set getenv) required_names = true ->
  main env getenv w
  = (authenticate env (getenv "CLIENT_ID") (getenv "TENANT_ID") ≫= fun token =>
     get_active_configurations env (env_value (getenv "CONFIG_TABLE_ID")) ≫= fun cfgs =>
     process_all env cfgs token) w.
Proof. unfold main, required_names, is_set. simpl. by intros ->. Qed.

(** X19. A failure to authenticate and a failure of the configuration
    loader are fatal: [main] raises the same exception and no configuration
    is processed. So one active record that holds an empty list makes the
    whole run raise [ValueError] after three calls, whatever the other
    records are. *)
Theorem loader_failure_aborts_the_run getenv w :
  existsb (is_set getenv) required_names = true ->
  let auth := authenticate env (getenv "CLIENT_ID") (getenv "TENANT_ID") w in
  let load := get_active_configurations env (env_value (getenv "CONFIG_TABLE_ID")) auth.2 in
  (forall e, auth.1 = Raise e -> main env getenv w = (Raise e, auth.2)) /\
  (forall token e, auth.1 = Ok token -> load.1 = Raise e ->
     main env getenv w = (Raise e, load.2)) /\
  (forall token tbl,
     auth.1 = Ok token ->
     env_get_table env (now auth.2) (env_value (getenv "CONFIG_TABLE_ID")) = Some tbl ->
     env_get_rows_ok env (S (now auth.2)) = true ->
     existsb (fun r => has_empty_list (values r)) (active_rows tbl (store w)) = true ->
     exists msg tid flt,
       (main env getenv w).1 = Raise (ValueError msg) /\
       new_events w (main env getenv w).2
       = [EvAuthenticate (getenv "CLIENT_ID") (getenv "TENANT_ID");
          EvGetTable (env_value (getenv "CONFIG_TABLE_ID"));
          EvGetRows tid flt]).
Proof.
  intros Hset auth load. subst load auth. rewrite (main_after_check _ _ Hset).
  unfold mbind, M_bind.
  assert (Hauth2 : (authenticate env (getenv "CLIENT_ID") (getenv "TENANT_ID") w).2
                   = emit (EvAuthenticate (getenv "CLIENT_ID")
                             (getenv "TENANT_ID")) w).
  { unfold authenticate. by destruct (env_token env (now w)). }
  destruct (authenticate env (getenv "CLIENT_ID") (getenv "TENANT_ID") w)
    as [[token0|e0] w1]; simpl in *.
  - split; [done|]. split.
    + intros token e _ He. simpl in He.
      destruct (get_active_configurations env _ w1) as [[cfgs|e'] w2]; simpl in *;
        congruence.
    + intros token tbl _ Htbl Hrows Hempty. simpl in Htbl, Hrows.
      unfold get_active_configurations, get_table, get_rows, lift.
      unfold mbind, M_bind. rewrite Htbl, now_emit, Hrows. simpl.
      fold (active_rows tbl (store w1)).
      assert (store w1 = store w) as -> by (by rewrite Hauth2).
      destruct (active_rows tbl (store w)) as [|r rows] eqn:Er; [done|].
      destruct (collapse_rows_empty_list (r :: rows) [] Hempty) as [msg Hmsg].
      rewrite Hmsg. simpl. exists msg. eexists _, _. split; [done|].
      apply new_events_app. rewrite Hauth2. simpl. by rewrite <- !app_assoc.
  - split; [by intros e [= ->]|]. split; done.
Qed.

(** X20. Once the configurations are loaded, [main] cannot raise: it returns
    normally whatever happens while the configurations are processed, and
    with no active configuration it returns after its three calls. *)
Theorem main_returns_once_loaded getenv w token cfgs :
  existsb (is_set getenv) required_names = true ->
  let auth := authenticate env (getenv "CLIENT_ID") (getenv "TENANT_ID") w in
  let load := get_active_configurations env (env_value (getenv "CONFIG_TABLE_ID")) auth.2 in
  auth.1 = Ok token ->
  load.1 = Ok cfgs ->
  (main env getenv w).1 = Ok tt /\
  main env getenv w = process_all env cfgs token load.2 /\
  (cfgs = [] -> (main env getenv w).2 = load.2).
Proof.
  intros Hset auth load. subst load auth. rewrite (main_after_check _ _ Hset).
  unfold mbind, M_bind.
  destruct (authenticate env (getenv "CLIENT_ID") (getenv "TENANT_ID") w)
    as [[token0|e0] w1]; simpl; [|done]. intros [= ->].
  destruct (get_active_configurations env _ w1) as [[cfgs'|e'] w2]; simpl; [|done].
  intros [= ->].
  split; [apply process_all_ok|]. split; [done|]. by intros ->.
Qed.


(** ** No row is claimed twice *)

Lemma NoDup_fst_filter {A B} (p : A * B -> bool) (l : list (A * B)) :
  NoDup (map fst l) -> NoDup (map fst (List.filter p l)).
Proof.
  induction l as [|x l IH]; simpl; [done|].
  intros [Hx Hl]%NoDup_cons. destruct (p x); simpl; [|by apply IH].
  apply NoDup_cons. split; [|by apply IH].
  intros (y & Hy & Hin)%list_elem_of_fmap. apply Hx.
  apply list_elem_of_fmap. exists y. split; [done|].
  apply list_elem_of_In. apply list_elem_of_In in Hin.
  by apply filter_In in Hin as [? _].
Qed.

Lemma select_rows_distinct t inc fs ft st :
  NoDup (map (fun row => (row_table row, row_id row)) (select_rows t inc fs ft st)).
Proof.
  unfold select_rows. rewrite map_map. simpl.
  rewrite (map_ext _ fst) by (by intros [[] ?]).
  apply (NoDup_fst_filter _ (map_to_list st)), NoDup_fst_map_to_list.
Qed.

Lemma filter_touches_none t i d :
  (forall f v ok, ~ In (EvUpdate t i f v ok) d) ->
  List.filter (touches t i) d = [].
Proof.
  induction d as [|e d IH]; simpl; [done|]. intros Hno.
  rewrite IH by (intros f v ok Hin; apply (Hno f v ok); by right).
  destruct (touches t i e) eqn:E; [|done].
  destruct e as [| | |t' i' f v ok| |]; simpl in E; try done.
  apply andb_prop in E as [->%Z.eqb_eq ->%Z.eqb_eq].
  destruct (Hno f v ok). by left.
Qed.

Lemma filter_touches_updates t i d :
  (length (List.filter (touches t i) d) <= length (List.filter is_update d))%nat.
Proof.
  induction d as [|e d IH]; simpl; [done|].
  destruct e; simpl; try done. destruct (_ && _); simpl; lia.
Qed.

Lemma rows_run_touches f ip sent url rf rows r ds t i :
  rows_run f ip sent url rf rows r ds ->
  NoDup (map (fun row => (row_table row, row_id row)) rows) ->
  (length (List.filter (touches t i) ds) <= 2)%nat.
Proof.
  induction 1 as [|row rows d r ds Hd Hrows IH|row rows e d Hd]; simpl.
  - lia.
  - intros [Hrow Hnd]%NoDup_cons. rewrite List.filter_app, length_app.
    destruct (decide ((row_table row, row_id row) = (t, i))) as [Heq|Hne].
    + rewrite (filter_touches_none t i ds).
      * pose proof (filter_touches_updates t i d).
        pose proof (row_run_counts _ _ _ _ _ _ _ _ _ Hd). simpl. lia.
      * intros g v ok Hin.
        destruct (rows_run_rows _ _ _ _ _ _ _ _ Hrows _ _ _ _ _ Hin)
          as (row' & Hin' & Ht & Hi).
        apply Hrow. rewrite Heq. apply list_elem_of_fmap. exists row'.
        split; [by rewrite Ht, Hi | by apply list_elem_of_In].
    + rewrite (filter_touches_none t i d).
      * simpl. by apply IH.
      * intros g v ok Hin.
        destruct (row_run_updates _ _ _ _ _ _ _ _ _ Hd _ _ _ _ _ Hin)
          as (-> & -> & _). done.
  - intros _. pose proof (filter_touches_updates t i d).
    pose proof (row_run_counts _ _ _ _ _ _ _ _ _ Hd). lia.
Qed.

(** X21. In one run a stored row is written at most twice, once to claim it
    and once to mark it Sent: the query returns each row once, so no row is
    claimed, and hence mailed, twice in a run. *)
Theorem row_is_written_at_most_twice cfg tok w t i :
  let w' := (process_emailer_config env cfg tok w).2 in
  (length (List.filter (touches t i) (new_events w w')) <= 2)%nat.
Proof.
  intros w'. subst w'.
  destruct (config_events cfg tok w) as (delta & -> & _ & Hcases).
  destruct Hcases as [Hquiet|Hloop].
  - rewrite filter_touches_none; [simpl; lia|].
    intros f v ok Hin. assert (existsb is_update delta = true); [|congruence].
    apply existsb_exists. by eexists.
  - destruct Hloop as (src & f & rf & q & ip & sent & url & rows & tid & flt
                       & ds & _ & Hfetch & -> & Hrows).
    simpl. eapply rows_run_touches; [done|].
    destruct Hfetch as (? & ? & ? & ? & _ & _ & _ & ->).
    apply select_rows_distinct.
Qed.

(** ** Every fetched row is claimed *)

(** With a readable configuration, a fitting schema, the three options, an
    answered query and a template URL, the run is the loop over the fetched
    rows. *)
Lemma config_reaches_loop cfg tok w src tbl trig tob f rf fields cc q ip sent url :
  reads_configuration env cfg w src (VStr f) rf fields tbl ->
  schema_fits tbl (VStr f) rf fields trig ->
  getitem cfg "Trigger On Blank" = Ok tob ->
  get_option_id (options_details trig) "Queued" = Ok q ->
  get_option_id (options_details trig) "In Progress" = Ok ip ->
  get_option_id (options_details trig) "Sent" = Ok sent ->
  env_get_rows_ok env (S (now w)) = true ->
  template_ready cfg cc url ->
  exists tid flt,
    process_emailer_config env cfg tok w
    = for_each (queued_rows tbl f rf fields q tob (store w))
        (process_row env cfg tok (VStr f) rf cc ip sent url)
        (emit (EvGetRows tid flt) (emit (EvGetTable src) w)).
Proof.
  intros (Hsrc & Htf & _ & Hrf & _ & Htbl & Hfl) (Hfit & Htrig & Htype) Htob
    Hq Hip Hsent Hrows (Hcc & Hurl & Hu).
  unfold process_emailer_config, lift, get_table, get_rows, now in *.
  unfold mbind, M_bind in *. simpl.
  rewrite Hsrc, Htf, Htob, Hrf. simpl. rewrite Hcc. simpl. rewrite Htbl. simpl.
  rewrite Hfl. simpl. simpl in Hfit. rewrite Hfit. simpl.
  rewrite Htrig. simpl. rewrite Htype. simpl.
  rewrite Hq. simpl. rewrite (get_option_id_truthy _ _ _ Hq). simpl.
  rewrite Hip. simpl. rewrite (get_option_id_truthy _ _ _ Hip). simpl.
  rewrite Hsent. simpl. rewrite (get_option_id_truthy _ _ _ Hsent). simpl.
  rewrite length_app, Nat.add_1_r. simpl in Hrows. rewrite Hrows. simpl. rewrite Hurl. simpl. rewrite Hu. simpl.
  by eexists _, _.
Qed.

Lemma rows_run_no_raise f ip sent url rf rows r ds :
  (forall row, In row rows -> is_ok (recipients_of row f ip rf) = true) ->
  rows_run f ip sent url rf rows r ds -> r = Ok tt.
Proof.
  intros Hok Hrun. induction Hrun as [|row rows d r ds Hd Hrun IH|row rows e d Hd].
  - done.
  - apply IH. intros row' Hin. apply Hok. by right.
  - inversion Hd as [| |e' Hrc| |]; subst.
    specialize (Hok row (or_introl eq_refl)). by rewrite Hrc in Hok.
Qed.

Lemma rows_run_attempts f ip sent url rf rows ds :
  rows_run f ip sent url rf rows (Ok tt) ds ->
  forall row, In row rows ->
    exists ok, In (EvUpdate (row_table row) (row_id row) f ip ok) ds.
Proof.
  intros Hrun. remember (Ok tt) as r eqn:Hr.
  induction Hrun as [|row rows d r ds Hd Hrun IH|row rows e d Hd]; [done| |done].
  intros row' [<-|Hin].
  - inversion Hd; subst; eexists; apply in_or_app; left; by left.
  - destruct (IH Hr row' Hin) as (ok & Hok). exists ok. apply in_or_app. by right.
Qed.

Lemma replay_is_Some delta st k :
  is_Some (st !! k) -> is_Some (replay delta st !! k).
Proof.
  revert st. induction delta as [|e delta IH]; intros st Hk; [done|].
  simpl. apply IH. destruct e as [| | |t i f v [|]| |]; simpl; try done.
  destruct (decide ((t, i) = k)) as [<-|Hne].
  - rewrite lookup_insert_eq. by eexists.
  - by rewrite lookup_insert_ne.
Qed.

(** A row that is stored is claimed first, when the store accepts the
    write. *)
Lemma process_row_claim cfg tok f rf cc ip sent url row w cells :
  store w !! (row_table row, row_id row) = Some cells ->
  env_update_ok env (now w) = true ->
  exists rest,
    trace (process_row env cfg tok (VStr f) rf cc ip sent url row w).2
    = trace w ++ EvUpdate (row_table row) (row_id row) f ip true :: rest.
Proof.
  intros Hk Hu.
  unfold process_row, try_except, row_update, create_email_message,
    fetch_template, send_email, lift, emit, now in *.
  unfold mbind, mret, M_bind, M_ret, result_bind in *. simpl.
  rewrite Hk, Hu. simpl.
  repeat (case_match; simpl in *; simplify_eq/=);
    rewrite <- ?app_assoc; simpl; by eexists.
Qed.

Lemma for_each_accepted cfg tok f rf cc ip sent url rows w :
  (forall n, env_update_ok env n = true) ->
  (forall row, In row rows -> is_Some (store w !! (row_table row, row_id row))) ->
  (for_each rows (process_row env cfg tok (VStr f) rf cc ip sent url) w).1 = Ok tt ->
  forall row, In row rows ->
    In (EvUpdate (row_table row) (row_id row) f ip true)
       (new_events w
          (for_each rows (process_row env cfg tok (VStr f) rf cc ip sent url) w).2).
Proof.
  intros Hacc. revert w. induction rows as [|row rows IH]; intros w Hst Hok; [done|].
  simpl in *. unfold mbind, M_bind in *.
  destruct (Hst row (or_introl eq_refl)) as (cells & Hk).
  destruct (process_row_claim cfg tok f rf cc ip sent url row w cells Hk (Hacc _))
    as (rest & Ht).
  destruct (sound_process_row env cfg tok (VStr f) rf cc ip sent url row w)
    as (d & Hd & Hs).
  destruct (process_row env cfg tok (VStr f) rf cc ip sent url row w)
    as [[[]|e] w1]; simpl in *; [|done].
  destruct (sound_for_each rows (process_row env cfg tok (VStr f) rf cc ip sent url)
              (fun x => sound_process_row env cfg tok (VStr f) rf cc ip sent url x) w1)
    as (ds & Hds & _).
  assert (Hnew : new_events w
            (for_each rows (process_row env cfg tok (VStr f) rf cc ip sent url) w1).2
          = (EvUpdate (row_table row) (row_id row) f ip true :: rest) ++ ds).
  { apply new_events_app. by rewrite Hds, Ht, <- app_assoc. }
  intros row' [<-|Hin].
  - rewrite Hnew. by left.
  - rewrite Hnew. apply in_or_app. right.
    rewrite <- (new_events_app w1 _ ds Hds). apply IH; [|done|done].
    intros r Hr. rewrite Hs. apply replay_is_Some. apply Hst. by right.
Qed.

(** C1, as the code has it. Take a run that gets to the loop over the rows:
    the configuration is readable, the schema fits, the trigger field has
    the three options [q] (Queued), [ip] (In Progress) and [sent] (Sent),
    the query is answered and there is a template URL; and let the
    recipient field of every fetched row parse. Then the run returns, and
    for every fetched row: the row was Queued or, the configuration
    triggering on blank, blank; the run attempts the claim write on it; if
    the store accepted that write the row ends with its trigger field at
    [ip] or at [sent], which are not blank; if not, the row is unchanged in
    the store. With a store that accepts every write the claim write of
    every fetched row is accepted, so every fetched row ends at [ip] or at
    [sent]. *)
Theorem fetched_rows_end_in_progress_or_sent
    cfg tok w src tbl trig tob f rf fields cc q ip sent url :
  reads_configuration env cfg w src (VStr f) rf fields tbl ->
  schema_fits tbl (VStr f) rf fields trig ->
  getitem cfg "Trigger On Blank" = Ok tob ->
  get_option_id (options_details trig) "Queued" = Ok q ->
  get_option_id (options_details trig) "In Progress" = Ok ip ->
  get_option_id (options_details trig) "Sent" = Ok sent ->
  env_get_rows_ok env (S (now w)) = true ->
  template_ready cfg cc url ->
  let rows := queued_rows tbl f rf fields q tob (store w) in
  (forall row, In row rows -> is_ok (recipients_of row f ip rf) = true) ->
  let rw := process_emailer_config env cfg tok w in
  let delta := new_events w rw.2 in
  rw.1 = Ok tt /\
  forall row, In row rows ->
    let t := row_table row in
    let i := row_id row in
    (exists cells,
       store w !! (t, i) = Some cells /\
       (cell cells (VStr f) = q
        \/ (truthy tob = true /\ cell cells (VStr f) = VNone))) /\
    (exists ok, In (EvUpdate t i f ip ok) delta) /\
    (In (EvUpdate t i f ip true) delta ->
       exists cells v,
         store rw.2 !! (t, i) = Some cells /\ dict_get cells f = Some v /\
         (v = ip \/ v = sent) /\ truthy v = true) /\
    (~ In (EvUpdate t i f ip true) delta ->
       store rw.2 !! (t, i) = store w !! (t, i)) /\
    ((forall n, env_update_ok env n = true) ->
       In (EvUpdate t i f ip true) delta).
Proof.
  intros Hread Hfit Htob Hq Hip Hsent Hrows Hready rows Hparse rw delta.
  destruct (config_reaches_loop cfg tok w src tbl trig tob f rf fields cc q ip
              sent url Hread Hfit Htob Hq Hip Hsent Hrows Hready)
    as (tid & flt & Hloop).
  fold rows in Hloop. fold rw in Hloop.
  destruct Hread as (Hsrc & Htf & _ & Hrf & _ & Htbl & _).
  destruct Hfit as (_ & Htrig & _).
  assert (Hres : resolves env cfg w src f rf q ip sent) by (by exists tbl, trig).
  assert (Hfetch : fetched_by env cfg w f q rows).
  { by exists src, tbl, tob, (VStr f :: rf :: map VStr fields). }
  destruct (for_each_rows_run env cfg tok f rf cc ip sent url rows
              (emit (EvGetRows tid flt) (emit (EvGetTable src) w)))
    as (ds & Ht & Hrun).
  rewrite <- Hloop in Ht, Hrun.
  assert (Hok : rw.1 = Ok tt) by (by eapply rows_run_no_raise).
  rewrite Hok in Hrun.
  assert (Hdelta : delta = EvGetTable src :: EvGetRows tid flt :: ds).
  { apply new_events_app. rewrite Ht. simpl. by rewrite <- !app_assoc. }
  split; [done|]. intros row Hin t i.
  destruct (run_end_states env cfg tok w src f rf q ip sent t i Hres)
    as (_ & Hclaimed & Hnot).
  split; [|split; [|split; [|split]]].
  - by destruct (fetched_eligible cfg w f q rows src tbl tob row
                   Hfetch Hsrc Htbl Htob Hin) as (_ & Hcells).
  - destruct (rows_run_attempts _ _ _ _ _ _ _ Hrun row Hin) as (ok & Hok').
    exists ok. rewrite Hdelta. by right; right.
  - exact Hclaimed.
  - exact Hnot.
  - intros Hacc. rewrite Hdelta. right; right.
    rewrite <- (new_events_app _ rw.2 ds Ht). rewrite Hloop.
    apply for_each_accepted; [done| |by rewrite <- Hloop|done].
    intros r Hr. simpl.
    destruct (select_rows_in _ _ _ _ _ _ Hr) as (cells & Hcells & _).
    by eexists.
Qed.

End Coverage.

(** ** authenticate *)

#[local] Arguments Auth.usernames : simpl never.

Ltac auth_cases a :=
  unfold Auth.authenticate, Auth.interactive, Auth.finish,
    Auth.silent_gives_nothing;
  destruct a as [ce0 app0 accts0 sil0 flow0 res0]; simpl;
  destruct ce0, app0; simpl;
  repeat case_match; simplify_eq/=.

(** X22. The device flow is started exactly when the application is created
    and the silent acquisition gives nothing (no cached account, or the
    accounts are listed and the result is falsy); otherwise no device call
    is made and the cache file is not written. *)
Theorem device_flow_only_when_silent_gives_nothing a client_id tenant_id :
  let calls := (Auth.authenticate a client_id tenant_id).2 in
  (In Auth.InitiateDeviceFlow calls
   <-> Auth.application a = true /\ Auth.silent_gives_nothing a = true) /\
  (Auth.silent_gives_nothing a = false -> existsb Auth.is_device_call calls = false).
Proof.
  auth_cases a; (split; [split|]); simpl; rewrite ?existsb_app; simpl;
    try tauto; try (intros; intuition discriminate); try done.
Qed.

(** X23. A token that [authenticate] returns is the [access_token] entry of
    the result it acquired last: of the silent result, and then no device
    call was made, or of the device-flow result, and then the silent
    acquisition had given nothing and the last call is the write of the
    cache file. *)
Theorem token_is_the_acquired_access_token a client_id tenant_id token calls :
  Auth.authenticate a client_id tenant_id = (Auth.Token token, calls) ->
  (exists d,
     Auth.silent a = Some (VDict d) /\ dict_get d "access_token" = Some token /\
     existsb Auth.is_device_call calls = false)
  \/ (exists d pre,
        Auth.device_result a = Some d /\ dict_get d "access_token" = Some token /\
        Auth.silent_gives_nothing a = true /\
        calls = pre ++ [Auth.CacheWrite] /\
        existsb Auth.is_cache_write pre = false).
Proof.
  auth_cases a; intros; simplify_eq/=;
    first [ left; eexists; split; [done|]; split; [done|]; done
          | right; eexists _, [_; _; _; _; _; _; _];
            split; [done|]; split; [done|]; split; [done|]; split; [done|]; done
          | right; eexists _, [_; _; _; _; _; _];
            split; [done|]; split; [done|]; split; [done|]; split; [done|]; done
          | right; eexists _, [_; _; _; _; _];
            split; [done|]; split; [done|]; split; [done|]; split; [done|]; done ].
Qed.

(** X24. The cache file is written only after a device flow that gave an
    access token, and [authenticate] then returns that token: no failed or
    silent authentication writes the cache. *)
Theorem cache_is_written_only_after_device_success a client_id tenant_id :
  let run := Auth.authenticate a client_id tenant_id in
  existsb Auth.is_cache_write run.2 = true ->
  exists d token,
    Auth.device_result a = Some d /\
    dict_get d "access_token" = Some token /\
    run.1 = Auth.Token token.
Proof.
  auth_cases a; intros; simplify_eq/=; try done; by eexists _, _.
Qed.

(** X25. The failures of [authenticate]: a device flow without a user code
    raises [ValueError] before any token is asked for; a device-flow result
    without an access token raises and the cache is not written; a truthy
    silent result without an access token raises [KeyError] and does not
    fall back to the device flow; and a cached account that cannot be
    listed by its user name raises before any token is asked for. *)
Theorem authentication_failures a client_id tenant_id :
  let run := Auth.authenticate a client_id tenant_id in
  (forall flow,
     Auth.application a = true -> Auth.silent_gives_nothing a = true ->
     Auth.device_flow a = Some flow -> dict_get flow "user_code" = None ->
     run.1 = Auth.Raised (Auth.Builtin (ValueError "Failed to create device flow")) /\
     forall f, ~ In (Auth.AcquireByDeviceFlow f) run.2) /\
  (forall flow d,
     Auth.application a = true -> Auth.silent_gives_nothing a = true ->
     Auth.device_flow a = Some flow ->
     dict_get flow "user_code" <> None -> dict_get flow "message" <> None ->
     Auth.device_result a = Some d -> dict_get d "access_token" = None ->
     run.1 = Auth.Raised (Auth.Exception
               "Authentication failed. Could not obtain access token.") /\
     existsb Auth.is_cache_write run.2 = false) /\
  (forall account accts d,
     Auth.application a = true ->
     Auth.accounts a = Some (account :: accts) ->
     is_ok (Auth.usernames (account :: accts)) = true ->
     Auth.silent a = Some (VDict d) -> d <> [] ->
     dict_get d "access_token" = None ->
     run.1 = Auth.Raised (Auth.Builtin (KeyError "access_token")) /\
     existsb Auth.is_device_call run.2 = false) /\
  (forall accts e,
     Auth.application a = true ->
     Auth.accounts a = Some accts -> Auth.usernames accts = Raise e ->
     run.1 = Auth.Raised (Auth.Builtin e) /\
     existsb Auth.is_silent_call run.2 = false /\
     existsb Auth.is_device_call run.2 = false).
Proof.
  split; [|split; [|split]].
  - intros flow. auth_cases a; intros; simplify_eq/=; try done;
      (split; [done|]); intros f Hin; simpl in Hin; intuition discriminate.
  - intros flow d. auth_cases a; intros; simplify_eq/=; done.
  - intros account accts d. auth_cases a; intros; simplify_eq/=; try done.
    all: try by destruct d.
    all: match goal with
         | H : Auth.usernames _ = Raise _, H' : is_ok _ = true |- _ =>
             by rewrite H in H'
         end.
  - intros accts e. auth_cases a; intros; simplify_eq/=; try done;
      try congruence.
    all: split; [congruence | done].
Qed.

(** * The pipeline on the small deployment *)

Example comma_delimited_round_trip :
  comma_delimited_to_list (VStr "a, b ,c") = Ok ["a"; "b"; "c"].
Proof. reflexivity. Qed.

Example comma_delimited_none : comma_delimited_to_list VNone = Ok [].
Proof. reflexivity. Qed.

Example get_option_id_docstring :
  get_option_id [[("id", VStr "1234"); ("value", VStr "Queued")];
                 [("id", VStr "5678"); ("value", VStr "Sent")]] "Queued"
  = Ok (VStr "1234").
Proof. reflexivity. Qed.

(** The spec's example: a blank row with a recipient ends Sent, a queued row
    with an empty recipient field ends In Progress. *)
Example two_rows_one_sent_one_stuck :
  let w' := (process_emailer_config Demo.env_ok Demo.configuration "token"
               Demo.start).2 in
  store w' !! (7, 1) = Some (dict_set Demo.row1 "Status" (VInt 3)) /\
  store w' !! (7, 2) = Some (dict_set Demo.row2 "Status" (VInt 2)).
Proof. vm_compute. done. Qed.

(** The demo configuration resolves against the demo source table. *)
Lemma demo_resolves env0 w :
  env_get_table env0 (now w) (VInt 7) = Some Demo.source_table ->
  resolves env0 Demo.configuration w (VInt 7) "Status" (VStr "To")
           (VInt 1) (VInt 2) (VInt 3).
Proof.
  intros H. eexists Demo.source_table, _.
  split; [reflexivity|]. split; [reflexivity|]. split; [reflexivity|].
  split; [exact H|]. split; [reflexivity|]. by vm_compute.
Defined.

(** C1, counterexample. The store refuses the claim writes: both fetched
    rows are left as they were, row 2 at Queued (identifier 1) and row 1
    blank. *)
Lemma fetched_row_left_queued :
  let fetched :=
    select_rows Demo.source_table
      (Some [VStr "Status"; VStr "To"; VStr "Name"])
      [mkFilter (VStr "Status") (VInt 1) "single_select_equal";
       mkFilter (VStr "Status") (VStr "") "empty"] "OR" (store Demo.start) in
  let w' := (process_emailer_config Demo.env_write_refused Demo.configuration
               "token" Demo.start).2 in
  get_option_id Demo.options "Queued" = Ok (VInt 1) /\
  In (mkRow 7 2 Demo.row2) fetched /\
  In (EvGetRows 7 [mkFilter (VStr "Status") (VInt 1) "single_select_equal";
                   mkFilter (VStr "Status") (VStr "") "empty"])
     (new_events Demo.start w') /\
  store w' !! (7, 1) = Some Demo.row1 /\
  exists cells,
    store w' !! (7, 2) = Some cells /\ dict_get cells "Status" = Some (VInt 1).
Proof.
  vm_compute. split; [done|]. split; [by right; left|]. split; [by right; left|].
  split; [done|]. by eexists.
Qed.

(** C1 on the small deployment, whose store accepts every write: both rows
    are fetched and claimed, row 1 ends at Sent and row 2 at In Progress. *)
Lemma fetched_rows_end_in_progress_or_sent_witness :
  let rows := queued_rows Demo.source_table "Status" (VStr "To") ["Name"]
                (VInt 1) (VBool true) (store Demo.start) in
  let rw := process_emailer_config Demo.env_ok Demo.configuration "token"
              Demo.start in
  let delta := new_events Demo.start rw.2 in
  (In (mkRow 7 1 Demo.row1) rows /\ In (mkRow 7 2 Demo.row2) rows) /\
  (forall n, env_update_ok Demo.env_ok n = true) /\
  (exists cells,
     store rw.2 !! (7, 1) = Some cells /\ dict_get cells "Status" = Some (VInt 3)) /\
  (exists cells,
     store rw.2 !! (7, 2) = Some cells /\ dict_get cells "Status" = Some (VInt 2)) /\
  rw.1 = Ok tt /\
  forall row, In row rows ->
    let t := row_table row in
    let i := row_id row in
    (exists cells,
       store Demo.start !! (t, i) = Some cells /\
       (cell cells (VStr "Status") = VInt 1
        \/ (truthy (VBool true) = true /\ cell cells (VStr "Status") = VNone))) /\
    (exists ok, In (EvUpdate t i "Status" (VInt 2) ok) delta) /\
    (In (EvUpdate t i "Status" (VInt 2) true) delta ->
       exists cells v,
         store rw.2 !! (t, i) = Some cells /\ dict_get cells "Status" = Some v /\
         (v = VInt 2 \/ v = VInt 3) /\ truthy v = true) /\
    (~ In (EvUpdate t i "Status" (VInt 2) true) delta ->
       store rw.2 !! (t, i) = store Demo.start !! (t, i)) /\
    ((forall n, env_update_ok Demo.env_ok n = true) ->
       In (EvUpdate t i "Status" (VInt 2) true) delta).
Proof.
  split; [vm_compute; tauto|]. split; [reflexivity|].
  split; [eexists; split; reflexivity|]. split; [eexists; split; reflexivity|].
  apply (fetched_rows_end_in_progress_or_sent Demo.env_ok Demo.configuration
           "token" Demo.start (VInt 7) Demo.source_table
           (mkField "single_select" Demo.options) (VBool true) "Status"
           (VStr "To") ["Name"] [] (VInt 1) (VInt 2) (VInt 3)
           (VStr "http://t/welcome.txt"));
    try (by vm_compute).
  intros row Hin. vm_compute in Hin. by destruct Hin as [<-|[<-|[]]].
Defined.


(** C3, at the failing input. The mail API answers 200: [send_email]
    returns without raising, and the run writes the row to Sent
    (identifier 3). *)
Theorem send_email_returns_on_status_200 :
  let rw := send_email Demo.env_status_200 "token" (VStr "Welcome") ["a@x.com"]
              "Hello" None [] Demo.start in
  let w' := (process_emailer_config Demo.env_status_200 Demo.configuration
               "token" Demo.start).2 in
  env_http_post Demo.env_status_200 (now Demo.start) = Some 200%Z /\
  rw.1 = Ok tt /\
  In (EvUpdate 7 1 "Status" (VInt 3) true) (new_events Demo.start w') /\
  store w' !! (7, 1) = Some (dict_set Demo.row1 "Status" (VInt 3)).
Proof. vm_compute. split; [done|]. split; [done|]. split; [|done]. tauto. Qed.

(** C4 on a source table whose trigger field has no "Sent" option. *)
Lemma missing_option_touches_no_row_witness :
  getitem Demo.configuration "Source Table ID" = Ok (VInt 7) /\
  getitem Demo.configuration "Email Trigger Field" = Ok (VStr "Status") /\
  env_get_table Demo.env_no_sent (now Demo.start) (VInt 7)
    = Some Demo.source_table_no_sent /\
  table_field Demo.source_table_no_sent (VStr "Status")
    = Ok (mkField "single_select" (firstn 2 Demo.options)) /\
  In "Sent" ["Queued"; "In Progress"; "Sent"] /\
  has_option (firstn 2 Demo.options) "Sent" = false /\
  let w' := (process_emailer_config Demo.env_no_sent Demo.configuration "token"
               Demo.start).2 in
  let delta := new_events Demo.start w' in
  (delta = [] \/ delta = [EvGetTable (VInt 7)]) /\ store w' = store Demo.start.
Proof.
  split; [reflexivity|]. split; [reflexivity|]. split; [reflexivity|].
  split; [reflexivity|]. split; [simpl; tauto|]. split; [reflexivity|].
  apply (missing_option_touches_no_row Demo.env_no_sent Demo.configuration
           "token" Demo.start (VInt 7) (VStr "Status") Demo.source_table_no_sent
           (mkField "single_select" (firstn 2 Demo.options)) "Sent");
    first [reflexivity | simpl; tauto].
Defined.

(** C5, counterexample. A blank entry is kept: the parsed list of "a,,b"
    holds the empty string. *)
Lemma blank_entry_is_kept :
  comma_delimited_to_list (VStr "a,,b") = Ok ["a"; ""; "b"] /\
  In "" ["a"; ""; "b"] /\
  comma_delimited_to_list (VStr " ") = Ok [""].
Proof. split; [reflexivity|]. split; [simpl; tauto | reflexivity]. Qed.

(** C5 on the spec's round-trip input. *)
Lemma recipients_split_and_trimmed_witness :
  "a, b ,c" <> "" /\
  comma_delimited_to_list (VStr "a, b ,c")
  = Ok (map strip (split comma "a, b ,c")).
Proof.
  split; [discriminate|].
  apply (proj1 (recipients_split_and_trimmed Demo.env_ok)). discriminate.
Defined.

(** C6 with no variable set, and with [CLIENT_ID] alone. *)
Lemma main_aborts_when_environment_is_missing_witness :
  ((forall name, In name required_names ->
      Demo.getenv_none name = None \/ Demo.getenv_none name = Some "") /\
   main Demo.env_ok Demo.getenv_none Demo.start_all
     = (Raise (ValueError "Missing environment variables"), Demo.start_all) /\
   new_events Demo.start_all
     (main Demo.env_ok Demo.getenv_none Demo.start_all).2 = []) /\
  (In "CLIENT_ID" required_names /\
   Demo.getenv_client_only "CLIENT_ID" = Some "x" /\
   exists rest,
     new_events Demo.start_all
       (main Demo.env_ok Demo.getenv_client_only Demo.start_all).2
     = EvAuthenticate (Some "x") None :: rest).
Proof.
  split.
  - split; [by left|].
    apply (proj1 (main_aborts_when_environment_is_missing Demo.env_ok
                    Demo.getenv_none Demo.start_all)).
    by left.
  - split; [simpl; tauto|]. split; [reflexivity|].
    apply (proj2 (main_aborts_when_environment_is_missing Demo.env_ok
                    Demo.getenv_client_only Demo.start_all) "CLIENT_ID" "x");
      [simpl; tauto | reflexivity | discriminate].
Defined.

(** C7 on the small deployment: the stored configuration's template, a list
    of one file, comes back as that file. *)
Lemma active_configurations_collapsed_witness :
  env_get_table Demo.env_ok (now Demo.start_all) (VStr "10")
    = Some Demo.config_table /\
  env_get_rows_ok Demo.env_ok (S (now Demo.start_all)) = true /\
  (get_active_configurations Demo.env_ok (VStr "10") Demo.start_all).1
  = Ok [Demo.configuration].
Proof.
  split; [reflexivity|]. split; [reflexivity|].
  apply (active_configurations_collapsed Demo.env_ok (VStr "10") Demo.start_all
           Demo.config_table eq_refl eq_refl); reflexivity.
Defined.

(** C8: an empty configuration raises [KeyError], and the next one is
    processed all the same: its mail to row 1 is posted and row 1 marked
    Sent. *)
Lemma runner_isolates_configurations_witness :
  let failed := process_emailer_config Demo.env_ok [] "token" Demo.start in
  let after := process_emailer_config Demo.env_ok Demo.configuration "token"
                 failed.2 in
  let all := process_all Demo.env_ok [[]; Demo.configuration] "token" Demo.start in
  failed.1 = Raise (KeyError "Source Table ID") /\
  In (EvUpdate 7 1 "Status" (VInt 3) true) (new_events failed.2 after.2) /\
  all.1 = Ok tt /\
  all.2 = after.2 /\
  new_events Demo.start all.2
  = new_events Demo.start failed.2 ++ new_events failed.2 after.2
      ++ new_events after.2 all.2.
Proof.
  split; [reflexivity|]. split; [vm_compute; tauto|].
  apply (runner_isolates_configurations Demo.env_ok [] [] Demo.configuration []
           "token" Demo.start (KeyError "Source Table ID")).
  reflexivity.
Defined.

(** C9 on row 2 of the small deployment, whose recipient field is empty. *)
Lemma falsy_recipient_is_skipped_witness :
  "To" <> "Status" /\
  dict_get Demo.row2 "To" = Some (VStr "") /\
  truthy (VStr "") = false /\
  let rw := process_row Demo.env_ok Demo.configuration "token" (VStr "Status")
              (VStr "To") [] (VInt 2) (VInt 3) (VStr "http://t/welcome.txt")
              (mkRow 7 2 Demo.row2) Demo.start in
  let delta := new_events Demo.start rw.2 in
  rw.1 = Ok tt /\
  (delta = [EvUpdate 7 2 "Status" (VInt 2) false]
   \/ delta = [EvUpdate 7 2 "Status" (VInt 2) true;
               EvHttpGet (VStr "http://t/welcome.txt")]
      /\ exists cells,
           store rw.2 !! (7, 2) = Some cells /\
           dict_get cells "Status" = Some (VInt 2)).
Proof.
  split; [discriminate|]. split; [reflexivity|]. split; [reflexivity|].
  apply (proj2 (proj2 (falsy_recipient_is_skipped Demo.env_ok))
           Demo.configuration "token" "Status" "To" [] (VInt 2) (VInt 3)
           (VStr "http://t/welcome.txt") (mkRow 7 2 Demo.row2) Demo.start
           (VStr "")); first [discriminate | reflexivity].
Defined.

(** C10 on the variables "a b" and "a_b". *)
Lemma spaces_become_underscores_witness :
  env_http_get Demo.env_ok (now Demo.start) (VStr "http://t/welcome.txt")
    = Some (200%Z, "Hello {{ Name }}") /\
  raise_for_status 200 = Ok tt /\
  env_jinja_parse Demo.env_ok "Hello {{ Name }}" = true /\
  (create_email_message Demo.env_ok [("a b", VInt 1); ("a_b", VInt 2)]
     (VStr "http://t/welcome.txt") Demo.start).1
  = env_jinja_render Demo.env_ok "Hello {{ Name }}"
      (rename_keys [("a b", VInt 1); ("a_b", VInt 2)]).
Proof.
  split; [reflexivity|]. split; [reflexivity|]. split; [reflexivity|].
  apply (proj2 (proj2 (proj2 (proj2 (proj2
           (spaces_become_underscores Demo.env_ok)))))
           [("a b", VInt 1); ("a_b", VInt 2)] (VStr "http://t/welcome.txt")
           Demo.start 200%Z "Hello {{ Name }}"); reflexivity.
Defined.

(** * The further properties on the small deployment *)

Lemma build_index_last_row_wins_witness :
  build_index Demo2.people "Name"
    = Ok [(VStr "ann", [("Name", VStr "ann"); ("Age", VInt 52)]);
          (VStr "bob", [("Name", VStr "bob"); ("Age", VInt 41)])] /\
  index_get [(VStr "ann", [("Name", VStr "ann"); ("Age", VInt 52)]);
             (VStr "bob", [("Name", VStr "bob"); ("Age", VInt 41)])] (VStr "ann")
    = List.find (indexed_under "Name" (VStr "ann")) (rev Demo2.people).
Proof.
  split; [reflexivity|].
  apply (build_index_last_row_wins Demo2.people "Name"). reflexivity.
Defined.

Lemma build_index_rejects_first_bad_row_witness :
  forallb (indexable "Name") [[("Name", VStr "ann")]] = true /\
  indexable "Name" [("Name", VStr "  ")] = false /\
  build_index ([[("Name", VStr "ann")]] ++ [("Name", VStr "  ")] :: []) "Name"
    = Raise (ValueError "Invalid index value").
Proof.
  split; [reflexivity|]. split; [reflexivity|].
  apply (proj2 build_index_rejects_first_bad_row
           [[("Name", VStr "ann")]] [("Name", VStr "  ")] [] "Name");
    reflexivity.
Defined.

Lemma build_index_entries_are_rows_witness :
  build_index Demo2.people "Name"
    = Ok [(VStr "ann", [("Name", VStr "ann"); ("Age", VInt 52)]);
          (VStr "bob", [("Name", VStr "bob"); ("Age", VInt 41)])] /\
  (2 <= length Demo2.people)%nat.
Proof.
  split; [reflexivity|].
  apply (build_index_entries_are_rows Demo2.people "Name" _ eq_refl).
Defined.

Lemma get_option_id_last_label_wins_witness :
  forallb well_labelled Demo.options = true /\
  get_option_id Demo.options "Sent" = Ok (VInt 3).
Proof.
  split; [reflexivity|].
  apply (proj1 get_option_id_last_label_wins Demo.options "Sent"). reflexivity.
Defined.

Lemma malformed_configuration_raises_before_any_call_witness :
  In "Trigger On Blank" early_keys /\
  dict_get [("Source Table ID", VInt 7)] "Trigger On Blank" = None /\
  exists k,
    In k early_keys /\ dict_get [("Source Table ID", VInt 7)] k = None /\
    process_emailer_config Demo.env_ok [("Source Table ID", VInt 7)] "token"
      Demo.start = (Raise (KeyError k), Demo.start).
Proof.
  split; [simpl; tauto|]. split; [reflexivity|].
  apply (proj1 (malformed_configuration_raises_before_any_call Demo.env_ok)
           [("Source Table ID", VInt 7)] "token" Demo.start "Trigger On Blank");
    [simpl; tauto | reflexivity].
Defined.

Lemma demo_reads_configuration cfg rf :
  dict_set Demo.configuration "Email Recipient Field" rf = cfg ->
  reads_configuration Demo.env_ok cfg Demo.start (VInt 7) (VStr "Status") rf
    ["Name"] Demo.source_table.
Proof. intros <-. by vm_compute. Defined.

Lemma schema_mismatch_returns_after_schema_read_witness :
  reads_configuration Demo.env_ok Demo2.configuration_bad_field Demo.start
    (VInt 7) (VStr "Status") (VStr "Cc") ["Name"] Demo.source_table /\
  forallb (is_field_name (field_names Demo.source_table))
    (VStr "Status" :: VStr "Cc" :: map VStr ["Name"]) = false /\
  process_emailer_config Demo.env_ok Demo2.configuration_bad_field "token" Demo.start
    = (Ok tt, emit (EvGetTable (VInt 7)) Demo.start).
Proof.
  split; [by apply demo_reads_configuration|]. split; [reflexivity|].
  apply (schema_mismatch_returns_after_schema_read Demo.env_ok
           Demo2.configuration_bad_field "token" Demo.start (VInt 7)
           (VStr "Status") (VStr "Cc") ["Name"] Demo.source_table).
  - by apply demo_reads_configuration.
  - left. reflexivity.
Defined.

Lemma missing_option_raises_witness :
  reads_configuration Demo.env_no_sent Demo.configuration Demo.start
    (VInt 7) (VStr "Status") (VStr "To") ["Name"] Demo.source_table_no_sent /\
  schema_fits Demo.source_table_no_sent (VStr "Status") (VStr "To") ["Name"]
    (mkField "single_select" (firstn 2 Demo.options)) /\
  has_option (firstn 2 Demo.options) "Sent" = false /\
  exists e,
    process_emailer_config Demo.env_no_sent Demo.configuration "token" Demo.start
    = (Raise e, emit (EvGetTable (VInt 7)) Demo.start).
Proof.
  split; [by vm_compute|]. split; [by vm_compute|]. split; [reflexivity|].
  apply (missing_option_raises Demo.env_no_sent Demo.configuration "token"
           Demo.start (VInt 7) (VStr "Status") (VStr "To") ["Name"]
           Demo.source_table_no_sent
           (mkField "single_select" (firstn 2 Demo.options)) "Sent");
    [by vm_compute | by vm_compute | simpl; tauto | reflexivity].
Defined.

Lemma no_template_url_touches_no_row_witness :
  template_url_of Demo2.configuration_no_url = Ok VNone /\
  let w' := (process_emailer_config Demo.env_ok Demo2.configuration_no_url
               "token" Demo.start).2 in
  forallb is_read (new_events Demo.start w') = true /\
  store w' = store Demo.start.
Proof.
  split; [reflexivity|].
  apply (no_template_url_touches_no_row Demo.env_ok Demo2.configuration_no_url
           "token" Demo.start).
  intros url H. vm_compute in H. by injection H as <-.
Defined.

Lemma sent_follows_a_returned_post_witness :
  VInt 2 <> VInt 3 /\
  let w' := (for_each [mkRow 7 1 Demo.row1]
               (process_row Demo.env_ok Demo.configuration "token" (VStr "Status")
                  (VStr "To") [] (VInt 2) (VInt 3) (VStr "http://t/welcome.txt"))
               Demo.start).2 in
  forall pre t i f' ok post,
    new_events Demo.start w' = pre ++ EvUpdate t i f' (VInt 3) ok :: post ->
    exists pre' ep m status,
      pre = pre' ++ [EvPost ep m status] /\ send_returns status = true /\
      msg_to m <> [] /\ In (EvUpdate t i f' (VInt 2) true) pre'.
Proof.
  split; [discriminate|].
  apply (sent_follows_a_returned_post Demo.env_ok Demo.configuration "token"
           "Status" (VStr "To") [] (VInt 2) (VInt 3) (VStr "http://t/welcome.txt")
           [mkRow 7 1 Demo.row1] Demo.start).
  discriminate.
Defined.

Lemma loop_raises_only_on_recipients_witness :
  let rw := for_each [Demo2.row_bad_recipient; mkRow 7 2 Demo.row2]
              (process_row Demo.env_ok Demo.configuration "token" (VStr "Status")
                 (VStr "To") [] (VInt 2) (VInt 3) (VStr "http://t/welcome.txt"))
              Demo.start in
  rw.1 = Raise AttributeError /\
  exists before row after dbefore cells,
    [Demo2.row_bad_recipient; mkRow 7 2 Demo.row2] = before ++ row :: after /\
    recipients_of row "Status" (VInt 2) (VStr "To") = Raise AttributeError /\
    rows_run "Status" (VInt 2) (VInt 3) (VStr "http://t/welcome.txt") (VStr "To")
      before (Ok tt) dbefore /\
    new_events Demo.start rw.2
    = dbefore ++ [EvUpdate (row_table row) (row_id row) "Status" (VInt 2) true;
                  EvHttpGet (VStr "http://t/welcome.txt")] /\
    store rw.2 !! (row_table row, row_id row) = Some cells /\
    dict_get cells "Status" = Some (VInt 2).
Proof.
  split; [reflexivity|].
  apply (loop_raises_only_on_recipients Demo.env_ok Demo.configuration "token"
           "Status" (VStr "To") [] (VInt 2) (VInt 3) (VStr "http://t/welcome.txt")
           [Demo2.row_bad_recipient; mkRow 7 2 Demo.row2] Demo.start
           AttributeError).
  reflexivity.
Defined.

Lemma rows_not_selected_are_untouched_witness :
  resolves Demo.env_ok Demo.configuration Demo.start_all (VInt 7) "Status"
    (VStr "To") (VInt 1) (VInt 2) (VInt 3) /\
  env_get_table Demo.env_ok (now Demo.start_all) (VInt 7) = Some Demo.source_table /\
  getitem Demo.configuration "Trigger On Blank" = Ok (VBool true) /\
  10%Z <> table_id Demo.source_table /\
  let w' := (process_emailer_config Demo.env_ok Demo.configuration "token"
               Demo.start_all).2 in
  existsb (touches 10 1) (new_events Demo.start_all w') = false /\
  store w' !! (10, 1) = store Demo.start_all !! (10, 1).
Proof.
  split; [by apply demo_resolves|]. split; [reflexivity|]. split; [reflexivity|].
  split; [discriminate|].
  apply (rows_not_selected_are_untouched Demo.env_ok Demo.configuration "token"
           Demo.start_all (VInt 7) Demo.source_table (VBool true) "Status"
           (VStr "To") (VInt 1) (VInt 2) (VInt 3) 10 1);
    [by apply demo_resolves | reflexivity | reflexivity | left; discriminate].
Defined.

Lemma run_changes_only_trigger_cells_witness :
  getitem Demo.configuration "Email Trigger Field" = Ok (VStr "Status") /\
  let w' := (process_emailer_config Demo.env_ok Demo.configuration "token"
               Demo.start).2 in
  match store Demo.start !! (7, 1) with
  | None => store w' !! (7, 1) = None
  | Some cells =>
      exists cells',
        store w' !! (7, 1) = Some cells' /\
        forall g, VStr g <> VStr "Status" -> dict_get cells' g = dict_get cells g
  end.
Proof.
  split; [reflexivity|].
  apply (run_changes_only_trigger_cells Demo.env_ok Demo.configuration "token"
           Demo.start (VStr "Status") 7 1).
  reflexivity.
Defined.

Lemma second_run_leaves_claimed_rows_witness :
  let w1 := (process_emailer_config Demo.env_ok Demo.configuration "token"
               Demo.start).2 in
  let w2 := (process_emailer_config Demo.env_ok Demo.configuration "token" w1).2 in
  In (EvUpdate 7 2 "Status" (VInt 2) true) (new_events Demo.start w1) /\
  existsb (touches 7 2) (new_events w1 w2) = false /\
  store w2 !! (7, 2) = store w1 !! (7, 2).
Proof.
  split; [vm_compute; tauto|].
  apply (second_run_leaves_claimed_rows Demo.env_ok Demo.configuration "token"
           "token" Demo.start (VInt 7) Demo.source_table (VBool true) "Status"
           (VStr "To") (VInt 1) (VInt 2) (VInt 3) 7 2);
    [by apply demo_resolves | by apply demo_resolves | reflexivity | reflexivity
    | discriminate | discriminate | vm_compute; tauto].
Defined.

Lemma posted_mails_follow_the_configuration_witness :
  sliceable (dict_get_default Demo2.configuration_no_subject "Subject"
               (VStr "No Subject")) = false /\
  existsb is_post
    (new_events Demo.start
       (for_each [mkRow 7 1 Demo.row1]
          (process_row Demo.env_ok Demo2.configuration_no_subject "token"
             (VStr "Status") (VStr "To") [] (VInt 2) (VInt 3)
             (VStr "http://t/welcome.txt")) Demo.start).2) = false.
Proof.
  split; [reflexivity|].
  apply (proj2 (posted_mails_follow_the_configuration Demo.env_ok
                  Demo2.configuration_no_subject "token" "Status" (VStr "To") []
                  (VInt 2) (VInt 3) (VStr "http://t/welcome.txt")
                  [mkRow 7 1 Demo.row1] Demo.start)).
  reflexivity.
Defined.


Lemma loader_failure_aborts_the_run_witness :
  existsb (is_set Demo.getenv_all) required_names = true /\
  existsb (fun r => has_empty_list (values r))
    (active_rows Demo.config_table (store Demo2.start_empty_template)) = true /\
  exists msg tid flt,
    (main Demo.env_ok Demo.getenv_all Demo2.start_empty_template).1
      = Raise (ValueError msg) /\
    new_events Demo2.start_empty_template
      (main Demo.env_ok Demo.getenv_all Demo2.start_empty_template).2
    = [EvAuthenticate (Demo.getenv_all "CLIENT_ID") (Demo.getenv_all "TENANT_ID");
       EvGetTable (env_value (Demo.getenv_all "CONFIG_TABLE_ID"));
       EvGetRows tid flt].
Proof.
  split; [reflexivity|]. split; [reflexivity|].
  apply (proj2 (proj2 (loader_failure_aborts_the_run Demo.env_ok Demo.getenv_all
                         Demo2.start_empty_template eq_refl))
           "token" Demo.config_table); reflexivity.
Defined.

Lemma main_returns_once_loaded_witness :
  existsb (is_set Demo.getenv_all) required_names = true /\
  (main Demo.env_ok Demo.getenv_all Demo.start_all).1 = Ok tt.
Proof.
  split; [reflexivity|].
  apply (main_returns_once_loaded Demo.env_ok Demo.getenv_all Demo.start_all
           "token" [Demo.configuration]); reflexivity.
Defined.

Lemma device_flow_only_when_silent_gives_nothing_witness :
  Auth.silent_gives_nothing Demo2.cached = false /\
  existsb Auth.is_device_call
    (Auth.authenticate Demo2.cached (Some "c") (Some "t")).2 = false.
Proof.
  split; [reflexivity|].
  apply (proj2 (device_flow_only_when_silent_gives_nothing Demo2.cached
                  (Some "c") (Some "t"))).
  reflexivity.
Defined.

Lemma token_is_the_acquired_access_token_witness :
  Auth.authenticate Demo2.first_login (Some "c") (Some "t")
    = (Auth.Token (VStr "t2"),
       [Auth.CacheExists; Auth.NewApplication (Some "c") (Some "t");
        Auth.GetAccounts; Auth.InitiateDeviceFlow;
        Auth.AcquireByDeviceFlow
          [("user_code", VStr "ABCD"); ("message", VStr "go to the login page")];
        Auth.CacheWrite]) /\
  ((exists d,
      Auth.silent Demo2.first_login = Some (VDict d) /\
      dict_get d "access_token" = Some (VStr "t2") /\
      existsb Auth.is_device_call
        [Auth.CacheExists; Auth.NewApplication (Some "c") (Some "t");
         Auth.GetAccounts; Auth.InitiateDeviceFlow;
         Auth.AcquireByDeviceFlow
           [("user_code", VStr "ABCD"); ("message", VStr "go to the login page")];
         Auth.CacheWrite] = false)
   \/ (exists d pre,
         Auth.device_result Demo2.first_login = Some d /\
         dict_get d "access_token" = Some (VStr "t2") /\
         Auth.silent_gives_nothing Demo2.first_login = true /\
         [Auth.CacheExists; Auth.NewApplication (Some "c") (Some "t");
          Auth.GetAccounts; Auth.InitiateDeviceFlow;
          Auth.AcquireByDeviceFlow
            [("user_code", VStr "ABCD"); ("message", VStr "go to the login page")];
          Auth.CacheWrite] = pre ++ [Auth.CacheWrite] /\
         existsb Auth.is_cache_write pre = false)).
Proof.
  split; [reflexivity|].
  apply (token_is_the_acquired_access_token Demo2.first_login (Some "c") (Some "t")).
  reflexivity.
Defined.

Lemma cache_is_written_only_after_device_success_witness :
  existsb Auth.is_cache_write
    (Auth.authenticate Demo2.first_login (Some "c") (Some "t")).2 = true /\
  exists d token,
    Auth.device_result Demo2.first_login = Some d /\
    dict_get d "access_token" = Some token /\
    (Auth.authenticate Demo2.first_login (Some "c") (Some "t")).1 = Auth.Token token.
Proof.
  split; [reflexivity|].
  apply (cache_is_written_only_after_device_success Demo2.first_login
           (Some "c") (Some "t")).
  reflexivity.
Defined.

Lemma authentication_failures_witness :
  Auth.application Demo2.no_user_code = true /\
  Auth.silent_gives_nothing Demo2.no_user_code = true /\
  Auth.device_flow Demo2.no_user_code = Some [("error", VStr "x")] /\
  dict_get [("error", VStr "x")] "user_code" = None /\
  (Auth.authenticate Demo2.no_user_code (Some "c") (Some "t")).1
    = Auth.Raised (Auth.Builtin (ValueError "Failed to create device flow")).
Proof.
  split; [reflexivity|]. split; [reflexivity|]. split; [reflexivity|].
  split; [reflexivity|].
  apply (proj1 (authentication_failures Demo2.no_user_code (Some "c") (Some "t"))
           [("error", VStr "x")]); reflexivity.
Defined.

Lemma parsed_entries_hold_no_comma_witness :
  truthy (VInt 5) = true /\
  comma_delimited_to_list (VInt 5) = Raise AttributeError.
Proof.
  split; [reflexivity|].
  apply (proj2 parsed_entries_hold_no_comma (VInt 5)); [reflexivity | discriminate].
Defined.
